(** * Unified identity binding and merge engine (package [object]) and its
      HTTP boundary (package [controllers]): a shallow embedding and the
      properties of the specification checked against it.

    Go strings are [string]; a Go [error] is its message; a Go result
    [(T, error)] is [error + T], and [( *T, error)] whose pointer may be
    nil is [error + option T].  The relational store is a record of tables,
    each a list of rows in storage order; the storage layer, the id
    generator, the clock, the token verifier and the password checker are
    collaborators gathered in [Env]. *)

From stdpp Require Import strings gmap list.
From Stdlib Require Import Ascii String List Bool Arith Lia.
Import ListNotations.

Local Open Scope string_scope.
Local Open Scope list_scope.

(** ** Strings *)

Definition error := string.

(** [strings.ToLower] looks first whether every byte of the string is
    below [utf8.RuneSelf].  If so the letters [A-Z] are lowered byte by
    byte and every other byte is kept: [lower_bytes].  If not the result
    is [strings.Map(unicode.ToLower, s)], which decodes UTF-8 and uses the
    case tables of package [unicode]; that path is a collaborator
    ([unicode_ToLower] in [Env] below, where [ToLower] is defined). *)
Definition lower_ascii (c : ascii) : ascii :=
  let n := nat_of_ascii c in
  if (65 <=? n)%nat && (n <=? 90)%nat then ascii_of_nat (n + 32) else c.

Fixpoint lower_bytes (s : string) : string :=
  match s with
  | EmptyString => EmptyString
  | String c s' => String (lower_ascii c) (lower_bytes s')
  end.

Fixpoint isASCII (s : string) : bool :=
  match s with
  | EmptyString => true
  | String c s' => (nat_of_ascii c <? 128)%nat && isASCII s'
  end.

(** [strings.Split s sep] for a one-byte separator: always at least one
    part, an empty input gives one empty part. *)
Fixpoint Split (s : string) (sep : ascii) : list string :=
  match s with
  | EmptyString => [EmptyString]
  | String c s' =>
      if Ascii.eqb c sep then EmptyString :: Split s' sep
      else match Split s' sep with
           | [] => [String c EmptyString]
           | part :: parts => String c part :: parts
           end
  end.

(** ** Data model *)

Module Binding.
(** [type UserIdentityBinding struct]; [Id] is the primary key. *)
Record t := mk {
  Id : string;
  UniversalId : string;
  AuthType : string;
  AuthValue : string;
  CreatedTime : string
}.
End Binding.
Abbreviation UserIdentityBinding := Binding.t.

(** [type AuthMethod struct] *)
Record AuthMethod := mkAuthMethod {
  auth_type : string;
  auth_value : string
}.

(** [type MergeResult struct] *)
Record MergeResult := mkMergeResult {
  universal_id : string;
  deleted_user_id : string;
  merged_auth_methods : list AuthMethod
}.

Module User.
(** Modelled from the spec: the [User] struct is declared outside the
    sources at hand.  An account has a stable universal identity, a
    deletion flag and one field per provider; the fields kept are those
    the engine reads.  [Properties] is a Go map that may be nil. *)
Record t := mk {
  Owner : string;
  Name : string;
  Password : string;
  Email : string;
  Phone : string;
  GitHub : string;
  Google : string;
  WeChat : string;
  QQ : string;
  Facebook : string;
  DingTalk : string;
  Weibo : string;
  Ldap : string;
  Custom : string;
  Properties : option (gmap string string);
  UniversalId : string;
  IsDeleted : bool
}.

(** Modelled from the spec: [user.GetId()] is defined outside the sources
    at hand; the account reference is the [owner/name] composite. *)
Definition GetId (u : t) : string := Owner u +:+ "/" +:+ Name u.
End User.

(** Modelled from the spec: [*Claims] is declared outside the sources at
    hand; a verified token gives the subject and the universal identity. *)
Record Claims := mkClaims {
  ClaimsUser : User.t;
  ClaimsUniversalId : string
}.

(** The decoded body of a merge request and what the controller answers. *)
Record MergeRequest := mkMergeRequest {
  ReservedUserToken : string;
  DeletedUserToken : string
}.

Inductive Response :=
| ResponseError (msg : string)
| ServeJSON (result : MergeResult).

(** The decoded bodies of the bind and unbind requests, and what the
    identity endpoints answer: an error message, the identity with its
    bound methods, the binding made, or the plain acknowledgement. *)
Record BindRequest := mkBindRequest {
  RequestAuthType : string;
  RequestAuthValue : string
}.

Record UnbindRequest := mkUnbindRequest {
  UnbindAuthType : string
}.

Inductive IdentityResponse :=
| IdentityError (msg : string)
| IdentityInfo (universalId : string) (bound_auth_methods : list AuthMethod)
| BindOk (binding : AuthMethod)
| UnbindOk.

(** Modelled from the spec: the structs [Token], [Session],
    [VerificationRecord], [Resource], [Payment], [Transaction] and
    [Subscription] are declared outside the sources at hand.  Each is a
    record kept by account reference; only the columns named in the
    [Where] clauses of [MergeUsers] are kept, with the row's own key. *)
Record Scoped := mkScoped {
  row_owner : string;
  row_name : string;
  row_user : string
}.

Record DB := mkDB {
  user_identity_binding : list UserIdentityBinding;
  user : list User.t;
  token : list Scoped;
  session : list Scoped;
  verification_record : list Scoped;
  resource : list Scoped;
  payment : list Scoped;
  transaction : list Scoped;
  subscription : list Scoped
}.

(** The collaborators.  [storage_fault k] is the failure, if any, of the
    [k]-th call that reaches the storage layer; [GenerateId k] and
    [GetCurrentTime k] are the results of the [k]-th call of
    [util.GenerateId] and [util.GetCurrentTime]; [unicode_ToLower s] is
    [strings.Map(unicode.ToLower, s)]; [duplicate_key b] is the error
    with which the database driver refuses the row [b] when its primary
    key is taken (the text is the driver's). *)
Record Env := mkEnv {
  storage_fault : nat -> option error;
  GenerateId : nat -> string;
  GetCurrentTime : nat -> string;
  ParseJwtTokenByApplication : string -> error + Claims;
  CheckUserPassword : DB -> string -> string -> string -> string -> error + option User.t;
  unicode_ToLower : string -> string;
  duplicate_key : UserIdentityBinding -> error
}.

Definition ToLower (env : Env) (s : string) : string :=
  if isASCII s then lower_bytes s else unicode_ToLower env s.

(** The state threaded through every operation: the committed store, the
    working copy of the transaction that the session has open (if any),
    how many storage calls, ids and clock readings have been consumed,
    and the working copy of a transaction whose commit was sent and
    failed (if any): the code has neither committed it nor rolled it
    back. *)
Record World := mkWorld {
  db : DB;
  tx : option DB;
  calls : nat;
  ids : nat;
  ticks : nat;
  unresolved : option DB
}.

(** ** The state and error monad of the engine *)

Definition M (A : Type) : Type := World -> (error + A) * World.

Definition ret {A} (a : A) : M A := fun w => (inr a, w).

Definition fail {A} (e : error) : M A := fun w => (inl e, w).

Definition bind {A B} (c : M A) (k : A -> M B) : M B :=
  fun w => match c w with
           | (inl e, w') => (inl e, w')
           | (inr a, w') => k a w'
           end.

Notation "'let*' x ':=' c 'in' k" := (bind c (fun x => k))
  (at level 10, x name, c at level 100, k at level 200).

(** [fmt.Errorf("... %v", err)] around a failing call. *)
Definition wrap_err {A} (f : error -> error) (c : M A) : M A :=
  fun w => match c w with
           | (inl e, w') => (inl (f e), w')
           | (inr a, w') => (inr a, w')
           end.

(** ** Tables *)

Definition set_user_identity_binding (l : list UserIdentityBinding) (d : DB) : DB :=
  mkDB l (user d) (token d) (session d) (verification_record d)
       (resource d) (payment d) (transaction d) (subscription d).

Definition set_user (l : list User.t) (d : DB) : DB :=
  mkDB (user_identity_binding d) l (token d) (session d) (verification_record d)
       (resource d) (payment d) (transaction d) (subscription d).

Definition set_token (l : list Scoped) (d : DB) : DB :=
  mkDB (user_identity_binding d) (user d) l (session d) (verification_record d)
       (resource d) (payment d) (transaction d) (subscription d).

Definition set_session (l : list Scoped) (d : DB) : DB :=
  mkDB (user_identity_binding d) (user d) (token d) l (verification_record d)
       (resource d) (payment d) (transaction d) (subscription d).

Definition set_verification_record (l : list Scoped) (d : DB) : DB :=
  mkDB (user_identity_binding d) (user d) (token d) (session d) l
       (resource d) (payment d) (transaction d) (subscription d).

Definition set_resource (l : list Scoped) (d : DB) : DB :=
  mkDB (user_identity_binding d) (user d) (token d) (session d)
       (verification_record d) l (payment d) (transaction d) (subscription d).

Definition set_payment (l : list Scoped) (d : DB) : DB :=
  mkDB (user_identity_binding d) (user d) (token d) (session d)
       (verification_record d) (resource d) l (transaction d) (subscription d).

Definition set_transaction (l : list Scoped) (d : DB) : DB :=
  mkDB (user_identity_binding d) (user d) (token d) (session d)
       (verification_record d) (resource d) (payment d) l (subscription d).

Definition set_subscription (l : list Scoped) (d : DB) : DB :=
  mkDB (user_identity_binding d) (user d) (token d) (session d)
       (verification_record d) (resource d) (payment d) (transaction d) l.

(** A table seen through its getter and setter, so that [Where(...).Delete]
    is written once. *)
Record Table (R : Type) := mkTable {
  rows : DB -> list R;
  set_rows : list R -> DB -> DB
}.
Arguments rows {R} _ _.
Arguments set_rows {R} _ _ _.

Definition UserIdentityBindingT := mkTable _ user_identity_binding set_user_identity_binding.
Definition UserT := mkTable _ user set_user.
Definition TokenT := mkTable _ token set_token.
Definition SessionT := mkTable _ session set_session.
Definition VerificationRecordT := mkTable _ verification_record set_verification_record.
Definition ResourceT := mkTable _ resource set_resource.
Definition PaymentT := mkTable _ payment set_payment.
Definition TransactionT := mkTable _ transaction set_transaction.
Definition SubscriptionT := mkTable _ subscription set_subscription.

(** [Where(cond).Delete(&T{})]: the rows satisfying [cond] go, the count of
    affected rows is returned; no matching row is not an error. *)
Definition delete_where {R} (T : Table R) (cond : R -> bool) (d : DB) : error + (nat * DB) :=
  inr (List.length (List.filter cond (rows T d)),
       set_rows T (List.filter (fun r => negb (cond r)) (rows T d)) d).

(** [Insert(binding)]: [Id] is the primary key of [user_identity_binding],
    the only constraint the struct tags declare; a row with a taken key is
    refused by the storage layer, with the error of the driver. *)
Definition insert_binding (env : Env) (b : UserIdentityBinding) (d : DB)
  : error + (nat * DB) :=
  if existsb (fun r => String.eqb (Binding.Id r) (Binding.Id b)) (user_identity_binding d)
  then inl (duplicate_key env b)
  else inr (1%nat, set_user_identity_binding (user_identity_binding d ++ [b]) d).

(** The conditions xorm builds from a bean, for [session.Delete(deletedUser)]:
    every non-empty column of the bean must agree.  A string column takes
    part when the bean's string is not empty; the [Properties] map takes
    part when the bean's map is neither nil nor empty, and the row must
    then hold the same map (the column stores its JSON text); a boolean
    column takes no part.  Only the columns kept in [User.t] are
    compared. *)
Definition user_columns : list (User.t -> string) :=
  [User.Owner; User.Name; User.Password; User.Email; User.Phone; User.GitHub;
   User.Google; User.WeChat; User.QQ; User.Facebook; User.DingTalk; User.Weibo;
   User.Ldap; User.Custom; User.UniversalId].

Definition properties_match (bean r : User.t) : bool :=
  match User.Properties bean with
  | None => true
  | Some props =>
      if bool_decide (props = ∅) then true
      else bool_decide (User.Properties r = Some props)
  end.

Definition user_matches (bean r : User.t) : bool :=
  forallb (fun col => String.eqb (col bean) "" || String.eqb (col bean) (col r)) user_columns
  && properties_match bean r.

(** ** Provider resolver *)

(** [user.Properties[key]]: a missing key reads as the empty string. *)
Definition property (props : gmap string string) (key : string) : string :=
  default "" (props !! key).

Definition autoDetectProviderType (user : User.t) : string * string :=
  if negb (User.Email user =? "") then ("email", User.Email user)
  else if negb (User.Phone user =? "") then ("phone", User.Phone user)
  else if negb (User.Password user =? "")
       then ("password", User.Owner user +:+ "/" +:+ User.Name user)
  else if negb (User.GitHub user =? "") then ("github", User.GitHub user)
  else if negb (User.Google user =? "") then ("google", User.Google user)
  else if negb (User.WeChat user =? "") then ("wechat", User.WeChat user)
  else if negb (User.QQ user =? "") then ("qq", User.QQ user)
  else if negb (User.Facebook user =? "") then ("facebook", User.Facebook user)
  else if negb (User.DingTalk user =? "") then ("dingtalk", User.DingTalk user)
  else if negb (User.Weibo user =? "") then ("weibo", User.Weibo user)
  else if negb (User.Ldap user =? "") then ("ldap", User.Ldap user)
  else if negb (User.Custom user =? "") then ("custom", User.Custom user)
  else ("", "").

Definition getProviderValue (env : Env) (user : User.t) (providerType : string) : string :=
  let providerTypeLower := ToLower env providerType in
  if providerTypeLower =? "github" then
    if negb (User.GitHub user =? "") then User.GitHub user
    else match User.Properties user with
         | Some props =>
             if negb (property props "oauth_GitHub_id" =? "")
             then property props "oauth_GitHub_id"
             else if negb (property props "oauth_GitHub_username" =? "")
             then property props "oauth_GitHub_username"
             else ""
         | None => ""
         end
  else if providerTypeLower =? "google" then User.Google user
  else if providerTypeLower =? "wechat" then User.WeChat user
  else if providerTypeLower =? "qq" then User.QQ user
  else if providerTypeLower =? "facebook" then User.Facebook user
  else if providerTypeLower =? "dingtalk" then User.DingTalk user
  else if providerTypeLower =? "weibo" then User.Weibo user
  else if providerTypeLower =? "email" then User.Email user
  else if providerTypeLower =? "phone" then User.Phone user
  else if providerTypeLower =? "password" then
    if negb (User.Password user =? "")
    then User.Owner user +:+ "/" +:+ User.Name user
    else ""
  else if providerTypeLower =? "ldap" then User.Ldap user
  else if providerTypeLower =? "custom" then
    if negb (User.Custom user =? "") then User.Custom user
    else match User.Properties user with
         | Some props =>
             if negb (property props "oauth_Custom_id" =? "")
             then property props "oauth_Custom_id"
             else ""
         | None => ""
         end
  else match User.Properties user with
       | Some props =>
           if negb (property props ("oauth_" +:+ providerType +:+ "_id") =? "")
           then property props ("oauth_" +:+ providerType +:+ "_id")
           else ""
       | None => ""
       end.

(** ** The storage layer *)

Definition set_db (d : DB) (w : World) : World :=
  mkWorld d (tx w) (calls w) (ids w) (ticks w) (unresolved w).

Definition set_tx (t : option DB) (w : World) : World :=
  mkWorld (db w) t (calls w) (ids w) (ticks w) (unresolved w).

Definition set_unresolved (t : option DB) (w : World) : World :=
  mkWorld (db w) (tx w) (calls w) (ids w) (ticks w) t.

Definition counted (w : World) : World :=
  mkWorld (db w) (tx w) (S (calls w)) (ids w) (ticks w) (unresolved w).

(** What a session sees and writes: the working copy of its transaction
    once [Begin] has been called, the committed store before that
    (autocommit). *)
Definition session_view (w : World) : DB :=
  match tx w with Some d => d | None => db w end.

Definition session_put (d : DB) (w : World) : World :=
  match tx w with Some _ => set_tx (Some d) w | None => set_db d w end.

(** [session.Rollback()]: the working copy of the open transaction is
    dropped; on a session without one nothing happens.  Its own error is
    ignored by every caller. *)
Definition Rollback (w : World) : World := set_tx None w.

(** The deferred [session.Close()]: xorm rolls back a transaction that
    the session still has open, that is one on which neither [Commit] nor
    [Rollback] has been called.  After a [Commit], also a failed one, the
    session has none ([Commit] below), so [Close] rolls nothing back
    then. *)
Definition Close (w : World) : World :=
  match tx w with
  | Some _ => Rollback w
  | None => w
  end.

(** [if err != nil { session.Rollback(); return nil, err }] *)
Definition or_rollback {A} (c : M A) : M A :=
  fun w => match c w with
           | (inl e, w') => (inl e, Rollback w')
           | (inr a, w') => (inr a, w')
           end.

(** [defer session.Close()] *)
Definition deferred_close {A} (c : M A) : M A :=
  fun w => let '(r, w') := c w in (r, Close w').

Section Engine.

Variable env : Env.

(** One call into the storage layer: it is counted, and fails when the
    collaborator says so. *)
Definition storage_call : M unit :=
  fun w =>
    match storage_fault env (calls w) with
    | Some e => (inl e, counted w)
    | None => (inr tt, counted w)
    end.

Definition util_GenerateId : M string :=
  fun w => (inr (GenerateId env (ids w)),
            mkWorld (db w) (tx w) (calls w) (S (ids w)) (ticks w) (unresolved w)).

Definition util_GetCurrentTime : M string :=
  fun w => (inr (GetCurrentTime env (ticks w)),
            mkWorld (db w) (tx w) (calls w) (ids w) (S (ticks w)) (unresolved w)).

(** Statements on [ormer.Engine] *)
Definition engine_query {A} (q : DB -> A) : M A :=
  let* _ := storage_call in
  fun w => (inr (q (db w)), w).

Definition engine_exec {A} (stmt : DB -> error + (A * DB)) : M A :=
  let* _ := storage_call in
  fun w => match stmt (db w) with
           | inl e => (inl e, w)
           | inr (a, d) => (inr a, set_db d w)
           end.

(** Statements on a [*xorm.Session] *)
Definition session_query {A} (q : DB -> A) : M A :=
  let* _ := storage_call in
  fun w => (inr (q (session_view w)), w).

Definition session_exec {A} (stmt : DB -> error + (A * DB)) : M A :=
  let* _ := storage_call in
  fun w => match stmt (session_view w) with
           | inl e => (inl e, w)
           | inr (a, d) => (inr a, session_put d w)
           end.

Definition Begin : M unit :=
  let* _ := storage_call in
  fun w => (inr tt, set_tx (Some (db w)) w).

(** [session.Commit()]: on a session without an open transaction it
    returns nil at once.  Otherwise xorm first marks the session as
    committed and back in autocommit, and only then sends the commit.
    When that succeeds the working copy becomes the store.  When it
    fails the error is returned and the session is left without a
    transaction of its own: neither [Rollback] nor [Close] will roll the
    working copy back, it stays behind unresolved. *)
Definition Commit : M unit :=
  fun w =>
    match tx w with
    | None => (inr tt, w)
    | Some working =>
        match storage_call (set_tx None w) with
        | (inl e, w') => (inl e, set_unresolved (Some working) w')
        | (inr _, w') => (inr tt, set_db working w')
        end
    end.

(** ** Binding store *)

Definition AddUserIdentityBinding (binding : UserIdentityBinding) : M bool :=
  let* affected := engine_exec (insert_binding env binding) in
  ret (negb (affected =? 0)%nat).

Definition GetUserIdentityBindingsByUniversalId (universalId : string)
  : M (list UserIdentityBinding) :=
  engine_query (fun d =>
    List.filter (fun b => Binding.UniversalId b =? universalId) (user_identity_binding d)).

(** [Get] returns the first row that satisfies the condition. *)
Definition GetUserIdentityBindingByAuth (authType authValue : string)
  : M (option UserIdentityBinding) :=
  engine_query (fun d =>
    List.find (fun b => (Binding.AuthType b =? authType) && (Binding.AuthValue b =? authValue))
              (user_identity_binding d)).

Definition DeleteUserIdentityBinding (id : string) : M bool :=
  let* affected :=
    engine_exec (delete_where UserIdentityBindingT (fun b => Binding.Id b =? id)) in
  ret (negb (affected =? 0)%nat).

Definition DeleteUserIdentityBindingsByUniversalId (universalId : string) : M bool :=
  let* affected :=
    engine_exec (delete_where UserIdentityBindingT
                   (fun b => Binding.UniversalId b =? universalId)) in
  ret (negb (affected =? 0)%nat).

Definition checkAuthMethodExists (universalId authType authValue : string) : M bool :=
  let* count :=
    session_query (fun d =>
      List.length (List.filter
        (fun b => (Binding.UniversalId b =? universalId)
                  && (Binding.AuthType b =? authType)
                  && (Binding.AuthValue b =? authValue))
        (user_identity_binding d))) in
  ret (0 <? count)%nat.

Definition getUserByUniversalId (universalId : string) : M (option User.t) :=
  let* found :=
    engine_query (fun d => List.find (fun u => User.UniversalId u =? universalId) (user d)) in
  match found with
  | None => fail ("user not found for universal_id: " +:+ universalId)
  | Some u => ret (Some u)
  end.

(** ** Binding manager: creation with the account *)

Definition createIdentityBindingsWithValue
    (user : User.t) (universalId primaryProvider providerValue : string) : M unit :=
  if primaryProvider =? "" then fail "primaryProvider is required"
  else
    let providerValue :=
      if providerValue =? "" then getProviderValue env user primaryProvider
      else providerValue in
    let '(primaryProvider, providerValue) :=
      if providerValue =? "" then
        let '(autoDetectedProvider, autoDetectedValue) := autoDetectProviderType user in
        if negb (autoDetectedProvider =? "") && negb (autoDetectedValue =? "")
        then (autoDetectedProvider, autoDetectedValue)
        else (primaryProvider, providerValue)
      else (primaryProvider, providerValue) in
    if providerValue =? ""
    then fail ("cannot get value for provider type: " +:+ primaryProvider)
    else
      let* id := util_GenerateId in
      let* now := util_GetCurrentTime in
      let binding :=
        Binding.mk id universalId (ToLower env primaryProvider) providerValue now in
      let* _ := session_exec (insert_binding env binding) in
      ret tt.

Definition createIdentityBindings
    (user : User.t) (universalId primaryProvider : string) : M unit :=
  createIdentityBindingsWithValue user universalId primaryProvider "".

(** ** Merge orchestrator *)

(** Step 6 of [MergeUsers], the loop over [deletedBindings]. *)
Fixpoint transferBindings (reservedId : string)
    (deletedBindings : list UserIdentityBinding)
    (mergedAuthMethods : list AuthMethod) : M (list AuthMethod) :=
  match deletedBindings with
  | [] => ret mergedAuthMethods
  | binding :: rest =>
      let* exists_ :=
        or_rollback (checkAuthMethodExists reservedId
                       (Binding.AuthType binding) (Binding.AuthValue binding)) in
      if negb exists_ then
        let* id := util_GenerateId in
        let* now := util_GetCurrentTime in
        let newBinding :=
          Binding.mk id reservedId (Binding.AuthType binding)
                     (Binding.AuthValue binding) now in
        let* _ := or_rollback (session_exec (insert_binding env newBinding)) in
        transferBindings reservedId rest
          (mergedAuthMethods ++
             [mkAuthMethod (Binding.AuthType binding) (Binding.AuthValue binding)])
      else transferBindings reservedId rest mergedAuthMethods
  end.

(** Steps 7 to 9: the bindings, the dependent records and the row of the
    deleted account. *)
Definition purgeDeletedUser (deletedUser : User.t) : M unit :=
  let* _ := or_rollback (session_exec (delete_where UserIdentityBindingT
              (fun b => Binding.UniversalId b =? User.UniversalId deletedUser))) in
  let* _ := or_rollback (session_exec (delete_where TokenT
              (fun r => row_user r =? User.Name deletedUser))) in
  let deletedUserId := User.GetId deletedUser in
  let* _ := or_rollback (session_exec (delete_where SessionT
              (fun r => (row_owner r =? User.Owner deletedUser)
                        && (row_name r =? User.Name deletedUser)))) in
  let* _ := or_rollback (session_exec (delete_where VerificationRecordT
              (fun r => row_user r =? deletedUserId))) in
  let* _ := or_rollback (session_exec (delete_where ResourceT
              (fun r => row_user r =? User.Name deletedUser))) in
  let* _ := or_rollback (session_exec (delete_where PaymentT
              (fun r => row_user r =? User.Name deletedUser))) in
  let* _ := or_rollback (session_exec (delete_where TransactionT
              (fun r => row_user r =? User.Name deletedUser))) in
  let* _ := or_rollback (session_exec (delete_where SubscriptionT
              (fun r => row_user r =? User.Name deletedUser))) in
  let* _ := or_rollback (session_exec (delete_where UserT (user_matches deletedUser))) in
  ret tt.

(** Everything from [session.Begin()] to the end, under the deferred
    [session.Close()]. *)
Definition mergeTransaction (reservedUser deletedUser : User.t)
    (deletedBindings : list UserIdentityBinding) : M MergeResult :=
  deferred_close (
    let* _ := Begin in
    let* mergedAuthMethods :=
      transferBindings (User.UniversalId reservedUser) deletedBindings [] in
    let* _ := purgeDeletedUser deletedUser in
    let* _ := Commit in
    ret (mkMergeResult (User.UniversalId reservedUser)
                       (User.UniversalId deletedUser)
                       mergedAuthMethods)).

Definition parse_token (token : string) : M Claims :=
  fun w => (ParseJwtTokenByApplication env token, w).

Definition MergeUsers (reservedUserToken deletedUserToken : string) : M MergeResult :=
  let* reservedClaims :=
    wrap_err (fun err => "invalid reserved user token: " +:+ err)
             (parse_token reservedUserToken) in
  let* deletedClaims :=
    wrap_err (fun err => "invalid deleted user token: " +:+ err)
             (parse_token deletedUserToken) in
  let* reservedUser :=
    wrap_err (fun err => "Reserved account does not exist (UniversalId: "
                         +:+ ClaimsUniversalId reservedClaims +:+ "): " +:+ err)
             (getUserByUniversalId (ClaimsUniversalId reservedClaims)) in
  match reservedUser with
  | None => fail ("Reserved account does not exist (UniversalId: "
                  +:+ ClaimsUniversalId reservedClaims +:+ ")")
  | Some reservedUser =>
  let* deletedUser :=
    wrap_err (fun err => "Account to be deleted does not exist (UniversalId: "
                         +:+ ClaimsUniversalId deletedClaims +:+ "): " +:+ err)
             (getUserByUniversalId (ClaimsUniversalId deletedClaims)) in
  match deletedUser with
  | None => fail ("Account to be deleted does not exist (UniversalId: "
                  +:+ ClaimsUniversalId deletedClaims +:+ ")")
  | Some deletedUser =>
  if User.IsDeleted reservedUser then
    fail ("Reserved account has been deleted and cannot be merged (User: "
          +:+ User.GetId reservedUser +:+ ")")
  else if User.IsDeleted deletedUser then
    fail ("Account to be deleted has been deleted and cannot be merged (User: "
          +:+ User.GetId deletedUser +:+ ")")
  else if User.UniversalId reservedUser =? User.UniversalId deletedUser then
    fail "cannot merge the same user"
  else
    let* deletedBindings :=
      GetUserIdentityBindingsByUniversalId (User.UniversalId deletedUser) in
    mergeTransaction reservedUser deletedUser deletedBindings
  end
  end.

(** ** Unified login resolver *)

(** A call result as the Go pair [(value, err)] it is assigned to. *)
Definition go_pair {A} (c : M (option A)) : World -> (option A * option error) * World :=
  fun w => match c w with
           | (inl e, w') => ((None, Some e), w')
           | (inr a, w') => ((a, None), w')
           end.

Definition validateUsernamePassword (userOwnerName password : string) : M (option User.t) :=
  match Split userOwnerName "/" with
  | [owner; name] =>
      fun w => (CheckUserPassword env (db w) owner name password "en", w)
  | _ => fail "invalid username format, expected: owner/name"
  end.

(** The statements after the [switch], on the function-level variables
    [binding] and [err]. *)
Definition loginWithBinding (binding : option UserIdentityBinding) (err : option error)
  : M (option User.t) :=
  match err with
  | Some e => fail e
  | None =>
      match binding with
      | None => fail "authentication failed"
      | Some b => getUserByUniversalId (Binding.UniversalId b)
      end
  end.

Definition LoginWithUnifiedIdentity (authType authValue password : string)
  : M (option User.t) :=
  fun w =>
    if authType =? "github" then
      let '((binding, err), w1) := go_pair (GetUserIdentityBindingByAuth "github" authValue) w in
      loginWithBinding binding err w1
    else if authType =? "phone" then
      let '((binding, err), w1) := go_pair (GetUserIdentityBindingByAuth "phone" authValue) w in
      loginWithBinding binding err w1
    else if authType =? "email" then
      let '((binding, err), w1) := go_pair (GetUserIdentityBindingByAuth "email" authValue) w in
      loginWithBinding binding err w1
    else if authType =? "password" then
      (* [user, err := ...] declares a second [err], local to this case *)
      let '((user, err'), w1) := go_pair (validateUsernamePassword authValue password) w in
      match err', user with
      | Some e, _ => (inl e, w1)
      | None, None => (inr None, w1)
      | None, Some user =>
          (* [binding, err = ...] assigns the outer [binding] and the
             inner [err]; the outer [err] keeps its nil *)
          let '((binding, _), w2) :=
            go_pair (GetUserIdentityBindingByAuth "password"
                       (User.Owner user +:+ "/" +:+ User.Name user)) w1 in
          loginWithBinding binding None w2
      end
    else (inl ("unsupported auth type: " +:+ authType), w).

(** ** Binding manager: bind and unbind *)

Definition AddUserIdentityBindingForUser (universalId authType authValue : string)
  : M UserIdentityBinding :=
  let* existingBinding := GetUserIdentityBindingByAuth authType authValue in
  match existingBinding with
  | Some existingBinding =>
      if Binding.UniversalId existingBinding =? universalId
      then ret existingBinding
      else fail ("this " +:+ authType +:+ " has been bound to other users")
  | None =>
      let* id := util_GenerateId in
      let* now := util_GetCurrentTime in
      let binding := Binding.mk id universalId authType authValue now in
      let* success := AddUserIdentityBinding binding in
      if negb success then fail "failed to create identity binding"
      else ret binding
  end.

Definition RemoveUserIdentityBindingForUser (universalId authType : string) : M unit :=
  let* bindings := GetUserIdentityBindingsByUniversalId universalId in
  if (List.length bindings <=? 1)%nat
  then fail "cannot delete the only login method, please bind other login methods first"
  else
    match List.find (fun b => Binding.AuthType b =? authType) bindings with
    | None => fail "identity binding to be deleted not found"
    | Some targetBinding =>
        let* success := DeleteUserIdentityBinding (Binding.Id targetBinding) in
        if negb success then fail "failed to delete identity binding"
        else ret tt
    end.

(** ** HTTP boundary: [ApiController.MergeUsers]

    The controller receives the [Authorization] header and the request
    body; decoding the JSON body is glue, so the decoded body (or the
    decoding error) is the input. *)

Definition ApiController_MergeUsers (authHeader : string)
    (requestBody : error + MergeRequest) : World -> Response * World :=
  fun w =>
    if authHeader =? "" then (ResponseError "Authorization header required", w)
    else
      match Split authHeader " " with
      | [scheme; token] =>
          if negb (scheme =? "Bearer")
          then (ResponseError
                  "Invalid authorization header format. Expected: Bearer <token>", w)
          else
            match ParseJwtTokenByApplication env token with
            | inl _ => (ResponseError "Invalid token", w)
            | inr claims =>
                match requestBody with
                | inl _ => (ResponseError "Invalid request body", w)
                | inr request =>
                    if (ReservedUserToken request =? "") || (DeletedUserToken request =? "")
                    then (ResponseError
                            "Both reserved_user_token and deleted_user_token are required", w)
                    else
                      match ParseJwtTokenByApplication env (ReservedUserToken request) with
                      | inl _ => (ResponseError "Invalid reserved_user_token", w)
                      | inr reservedClaims =>
                          match ParseJwtTokenByApplication env (DeletedUserToken request) with
                          | inl _ => (ResponseError "Invalid deleted_user_token", w)
                          | inr deletedClaims =>
                              let currentUserId := User.Name (ClaimsUser claims) in
                              if negb (currentUserId =? User.Name (ClaimsUser reservedClaims))
                                 && negb (currentUserId =? User.Name (ClaimsUser deletedClaims))
                              then (ResponseError
                                      "Unauthorized: You can only merge accounts you own", w)
                              else
                                match MergeUsers (ReservedUserToken request)
                                                 (DeletedUserToken request) w with
                                | (inl err, w') => (ResponseError err, w')
                                | (inr result, w') => (ServeJSON result, w')
                                end
                          end
                      end
                end
            end
      | _ => (ResponseError
                "Invalid authorization header format. Expected: Bearer <token>", w)
      end.

(** ** Binding store: the authentication summary of an identity *)

(** The loop of [getUserAuthInfo] on the named results [phoneNumber] and
    [githubAccount]. *)
Definition authInfoStep (acc : string * string) (binding : UserIdentityBinding)
  : string * string :=
  let '(phoneNumber, githubAccount) := acc in
  if Binding.AuthType binding =? "phone" then (Binding.AuthValue binding, githubAccount)
  else if Binding.AuthType binding =? "github" then (phoneNumber, Binding.AuthValue binding)
  else (phoneNumber, githubAccount).

Definition getUserAuthInfo (universalId : string) : M (string * string) :=
  let* bindings :=
    engine_query (fun d =>
      List.filter (fun b => Binding.UniversalId b =? universalId) (user_identity_binding d)) in
  ret (List.fold_left authInfoStep bindings ("", "")).

(** ** HTTP boundary: the identity endpoints

    The statements that [GetIdentityInfo], [BindAuthMethod] and
    [UnbindAuthMethod] share word for word: the [Authorization] header,
    the bearer token, its verification, and the universal identity of the
    caller. *)
Definition bearerIdentity (authHeader : string) : string + Claims :=
  if authHeader =? "" then inl "Authorization header required"
  else
    match Split authHeader " " with
    | [scheme; token] =>
        if negb (scheme =? "Bearer")
        then inl "Invalid authorization header format. Expected: Bearer <token>"
        else
          match ParseJwtTokenByApplication env token with
          | inl _ => inl "Invalid token"
          | inr claims =>
              if ClaimsUniversalId claims =? ""
              then inl "User does not have a unified identity"
              else inr claims
          end
    | _ => inl "Invalid authorization header format. Expected: Bearer <token>"
    end.

Definition ApiController_GetIdentityInfo (authHeader : string)
  : World -> IdentityResponse * World :=
  fun w =>
    match bearerIdentity authHeader with
    | inl msg => (IdentityError msg, w)
    | inr claims =>
        match GetUserIdentityBindingsByUniversalId (ClaimsUniversalId claims) w with
        | (inl err, w') => (IdentityError err, w')
        | (inr bindings, w') =>
            (IdentityInfo (ClaimsUniversalId claims)
               (List.map (fun binding =>
                            mkAuthMethod (Binding.AuthType binding) (Binding.AuthValue binding))
                         bindings), w')
        end
    end.

Definition ApiController_BindAuthMethod (authHeader : string)
    (requestBody : error + BindRequest) : World -> IdentityResponse * World :=
  fun w =>
    match bearerIdentity authHeader with
    | inl msg => (IdentityError msg, w)
    | inr claims =>
        match requestBody with
        | inl _ => (IdentityError "Invalid request body", w)
        | inr request =>
            if (RequestAuthType request =? "") || (RequestAuthValue request =? "")
            then (IdentityError "auth_type and auth_value are required", w)
            else
              match AddUserIdentityBindingForUser (ClaimsUniversalId claims)
                      (RequestAuthType request) (RequestAuthValue request) w with
              | (inl err, w') => (IdentityError err, w')
              | (inr binding, w') =>
                  (BindOk (mkAuthMethod (Binding.AuthType binding)
                                        (Binding.AuthValue binding)), w')
              end
        end
    end.

Definition ApiController_UnbindAuthMethod (authHeader : string)
    (requestBody : error + UnbindRequest) : World -> IdentityResponse * World :=
  fun w =>
    match bearerIdentity authHeader with
    | inl msg => (IdentityError msg, w)
    | inr claims =>
        match requestBody with
        | inl _ => (IdentityError "Invalid request body", w)
        | inr request =>
            if UnbindAuthType request =? ""
            then (IdentityError "auth_type is required", w)
            else
              match RemoveUserIdentityBindingForUser (ClaimsUniversalId claims)
                      (UnbindAuthType request) w with
              | (inl err, w') => (IdentityError err, w')
              | (inr _, w') => (UnbindOk, w')
              end
        end
    end.

End Engine.

(** ** Custom identity provider (package [idp])

    A decoded JSON value as [encoding/json] leaves it in an
    [interface{}]; a number is kept as its literal.  A Go
    [map[string]interface{}] is a [gmap string Value], and reading a key
    that is absent gives [Null], the nil interface. *)
#[warnings="-register-all"] Inductive Value :=
| Null
| Bool (b : bool)
| Number (literal : string)
| Text (s : string)
| Array (items : list Value)
| Object (fields : list (string * Value)).

Definition index (dataMap : gmap string Value) (key : string) : Value :=
  default Null (dataMap !! key).

Module CustomUserInfo.
(** [type CustomUserInfo struct] *)
Record t := mk {
  Id : string;
  Username : string;
  DisplayName : string;
  Email : string;
  AvatarUrl : string
}.
End CustomUserInfo.

Module UserInfo.
(** The [UserInfo] struct is declared outside the sources at hand; the
    five fields that [processUserInfoResponse] sets are kept. *)
Record t := mk {
  Id : string;
  Username : string;
  DisplayName : string;
  Email : string;
  AvatarUrl : string
}.
End UserInfo.

(** The collaborators of the provider: [util.ParseIdToString],
    [mapstructure.Decode] into a [CustomUserInfo], and the [%v] verb of
    [fmt] on a decoded value. *)
Record IdpEnv := mkIdpEnv {
  ParseIdToString : Value -> error + string;
  Decode : gmap string Value -> error + CustomUserInfo.t;
  format_v : Value -> string
}.

(** One turn of the loop [for k, v := range idp.UserMapping]. *)
Definition mapStep (dataMap : gmap string Value) (entry : string * string)
  : gmap string Value :=
  let '(k, v) := entry in
  if v =? "" then <[k := Text ""]> dataMap
  else <[k := index dataMap v]> dataMap.

(** The whole loop.  Go leaves the order in which a map is ranged over
    open; [visit] is the order in which the entries of [UserMapping] come
    up in this run. *)
Definition mapUserInfo (visit : list (string * string)) (dataMap : gmap string Value)
  : gmap string Value :=
  List.fold_left mapStep visit dataMap.

Definition requiredFields : list string := ["id"; "username"; "displayName"].

(** What a call comes to: it returns its Go result, or the runtime
    panics. *)
Inductive Outcome (A : Type) :=
| Returns (r : error + A)
| Panics.
Arguments Returns {A} r.
Arguments Panics {A}.

(** The comma-ok read [v, ok := dataMap[key]] of a map that may be nil:
    a nil map has no key. *)
Definition read (dataMap : option (gmap string Value)) (key : string) : option Value :=
  match dataMap with
  | Some m => m !! key
  | None => None
  end.

Section CustomIdProvider.

Variable ienv : IdpEnv.

(** [idp.UserMapping], and the order [visit] in which this run ranges
    over it. *)
Variable UserMapping : gmap string string.
Variable visit : list (string * string).

(** [dataMap] is a Go map and may be nil ([None]): [json.Unmarshal]
    leaves it nil for the JSON document [null].  Reading a nil map gives
    nil; the first assignment to one, in the mapping loop or at
    [dataMap["id"] = id], panics. *)
Definition processUserInfoResponse (dataMap : option (gmap string Value))
  : Outcome UserInfo.t :=
  match List.find (fun field => negb (bool_decide (is_Some (UserMapping !! field))))
                  requiredFields with
  | Some field =>
      Returns (inl ("cannot find " +:+ field
           +:+ " in userMapping, please check your configuration in custom provider"))
  | None =>
      match dataMap with
      | None =>
          match visit with
          | _ :: _ => Panics
          | [] =>
              match ParseIdToString ienv Null with
              | inl err => Returns (inl err)
              | inr _ => Panics
              end
          end
      | Some dataMap =>
          let dataMap := mapUserInfo visit dataMap in
          match ParseIdToString ienv (index dataMap "id") with
          | inl err => Returns (inl err)
          | inr id =>
              let dataMap := <["id" := Text id]> dataMap in
              match Decode ienv dataMap with
              | inl err => Returns (inl err)
              | inr customUserinfo =>
                  Returns (inr (UserInfo.mk (CustomUserInfo.Id customUserinfo)
                                  (CustomUserInfo.Username customUserinfo)
                                  (CustomUserInfo.DisplayName customUserinfo)
                                  (CustomUserInfo.Email customUserinfo)
                                  (CustomUserInfo.AvatarUrl customUserinfo)))
              end
          end
      end
  end.

(** [executeUserInfoRequest] from the point where the response has been
    read: [response] is what [idp.Client.Do], [io.ReadAll] and
    [json.Unmarshal] have given, an error of one of them or the decoded
    map, nil for the document [null]. *)
Definition executeUserInfoRequest (response : error + option (gmap string Value))
  : Outcome UserInfo.t :=
  match response with
  | inl err => Returns (inl err)
  | inr dataMap =>
      match read dataMap "errcode" with
      | Some errcode =>
          match read dataMap "errmsg" with
          | Some errmsg =>
              Returns (inl ("call external API error: errcode=" +:+ format_v ienv errcode
                            +:+ ", errmsg=" +:+ format_v ienv errmsg))
          | None =>
              Returns (inl ("call external API error: errcode="
                            +:+ format_v ienv errcode))
          end
      | None => processUserInfoResponse dataMap
      end
  end.

End CustomIdProvider.

(** ** Mock SMS service (package [main])

    The request as the handler reads it: the method, the form after
    [r.ParseForm()], and the [SMSRequest] as [json.Decoder.Decode] leaves
    it when asked (its error is only logged). *)
Record SMSRequest := mkSMSRequest {
  Phone : string;
  PhoneNumber : string;
  Code : string
}.

Record SMSHttpRequest := mkSMSHttpRequest {
  Method : string;
  Form : gmap string (list string);
  decodedBody : SMSRequest
}.

(** The [Data] of a successful answer. *)
Record SMSData := mkSMSData {
  data_phone : string;
  data_code : string;
  data_timestamp : Z
}.

(** [type SMSResponse struct] *)
Record SMSResponse := mkSMSResponse {
  Success : bool;
  Message : string;
  Data : option SMSData
}.

(** [r.FormValue(key)]: the first value of the key, or the empty string. *)
Definition FormValue (r : SMSHttpRequest) (key : string) : string :=
  match Form r !! key with
  | Some (v :: _) => v
  | _ => ""
  end.

(** The handler answers with a status and, but for a preflight request, a
    body; [now] is [time.Now().Unix()]. *)
Definition sendSMSHandler (now : Z) (r : SMSHttpRequest) : nat * option SMSResponse :=
  if Method r =? "OPTIONS" then (200%nat, None)
  else if negb (Method r =? "POST")
  then (405%nat, Some (mkSMSResponse false "Only POST requests are supported" None))
  else
    let smsReq :=
      if negb (bool_decide (Form r = ∅)) then
        let phone := FormValue r "phoneNumber" in
        let phone := if phone =? "" then FormValue r "phone" else phone in
        mkSMSRequest phone "" (FormValue r "code")
      else
        let decoded := decodedBody r in
        if negb (PhoneNumber decoded =? "")
        then mkSMSRequest (PhoneNumber decoded) (PhoneNumber decoded) (Code decoded)
        else decoded in
    if Phone smsReq =? ""
    then (400%nat, Some (mkSMSResponse false "Phone number cannot be empty" None))
    else if Code smsReq =? ""
    then (400%nat, Some (mkSMSResponse false "Verification code cannot be empty" None))
    else (200%nat,
          Some (mkSMSResponse true
                  ("Verification code has been successfully sent to phone number "
                   +:+ Phone smsReq)
                  (Some (mkSMSData (Phone smsReq) (Code smsReq) now)))).

(** ** Vocabulary of the specification *)

(** The credential of a binding: its [(authType, authValue)] projection. *)
Definition credential (b : UserIdentityBinding) : AuthMethod :=
  mkAuthMethod (Binding.AuthType b) (Binding.AuthValue b).

Definition AuthMethod_eqb (a b : AuthMethod) : bool :=
  (auth_type a =? auth_type b) && (auth_value a =? auth_value b).

(** The bindings an identity owns, and the credentials bound to it. *)
Definition owned_by (universalId : string) (l : list UserIdentityBinding)
  : list UserIdentityBinding :=
  List.filter (fun b => Binding.UniversalId b =? universalId) l.

Definition credentials_of (universalId : string) (l : list UserIdentityBinding)
  : list AuthMethod :=
  List.map credential (owned_by universalId l).

(** Global credential uniqueness, as the specification words it. *)
Definition credential_unique (l : list UserIdentityBinding) : Prop :=
  forall b1 b2, In b1 l -> In b2 l ->
    Binding.AuthType b1 = Binding.AuthType b2 ->
    Binding.AuthValue b1 = Binding.AuthValue b2 ->
    Binding.UniversalId b1 = Binding.UniversalId b2.

(** The binding that [GetUserIdentityBindingByAuth] returns for a
    credential: the first one stored with it. *)
Definition first_with (authType authValue : string) (l : list UserIdentityBinding)
  : option UserIdentityBinding :=
  List.find (fun b => (Binding.AuthType b =? authType) && (Binding.AuthValue b =? authValue)) l.

(** The primary key of [user_identity_binding]. *)
Definition primary_key_unique (l : list UserIdentityBinding) : Prop :=
  NoDup (List.map Binding.Id l).

(** The store without the rows of [l] changed: every table but
    [user_identity_binding] is the same. *)
Definition same_other_tables (d d' : DB) : Prop :=
  d' = set_user_identity_binding (user_identity_binding d') d.

(** The storage layer answers the [n] calls from the [k]-th on. *)
Definition reliable (env : Env) (k n : nat) : Prop :=
  forall i, (i < n)%nat -> storage_fault env (k + i) = None.

(** The fixed priority order of the provider resolver, as the
    specification lists it: provider type, the field that is tested, and
    the value reported for it. *)
Definition priority_order (u : User.t) : list (string * (string * string)) :=
  [("email", (User.Email u, User.Email u));
   ("phone", (User.Phone u, User.Phone u));
   ("password", (User.Password u, User.Owner u +:+ "/" +:+ User.Name u));
   ("github", (User.GitHub u, User.GitHub u));
   ("google", (User.Google u, User.Google u));
   ("wechat", (User.WeChat u, User.WeChat u));
   ("qq", (User.QQ u, User.QQ u));
   ("facebook", (User.Facebook u, User.Facebook u));
   ("dingtalk", (User.DingTalk u, User.DingTalk u));
   ("weibo", (User.Weibo u, User.Weibo u));
   ("ldap", (User.Ldap u, User.Ldap u));
   ("custom", (User.Custom u, User.Custom u))].

Definition first_non_empty (u : User.t) : string * string :=
  match List.find (fun e => negb (fst (snd e) =? "")) (priority_order u) with
  | Some e => (fst e, snd (snd e))
  | None => ("", "")
  end.

Definition every_field_empty (u : User.t) : Prop :=
  Forall (fun e => fst (snd e) = "") (priority_order u).

(** What the transfer loop of a merge inserts: going through the bindings
    of the deleted identity, a row is made for each credential that the
    reserved identity does not hold yet, [have] being the credentials it
    holds so far; ids and times are drawn in order. *)
Fixpoint transferred (env : Env) (reservedId : string) (have : list AuthMethod)
    (deletedBindings : list UserIdentityBinding) (nid ntick : nat)
  : list UserIdentityBinding :=
  match deletedBindings with
  | [] => []
  | b :: rest =>
      if existsb (AuthMethod_eqb (credential b)) have
      then transferred env reservedId have rest nid ntick
      else Binding.mk (GenerateId env nid) reservedId (Binding.AuthType b)
                      (Binding.AuthValue b) (GetCurrentTime env ntick)
           :: transferred env reservedId (have ++ [credential b]) rest (S nid) (S ntick)
  end.

(** The store after steps 7 to 9 of a merge. *)
Definition purged (deletedUser : User.t) (d : DB) : DB :=
  mkDB (List.filter (fun b => negb (Binding.UniversalId b =? User.UniversalId deletedUser))
                    (user_identity_binding d))
       (List.filter (fun r => negb (user_matches deletedUser r)) (user d))
       (List.filter (fun r => negb (row_user r =? User.Name deletedUser)) (token d))
       (List.filter (fun r => negb ((row_owner r =? User.Owner deletedUser)
                                    && (row_name r =? User.Name deletedUser))) (session d))
       (List.filter (fun r => negb (row_user r =? User.GetId deletedUser))
                    (verification_record d))
       (List.filter (fun r => negb (row_user r =? User.Name deletedUser)) (resource d))
       (List.filter (fun r => negb (row_user r =? User.Name deletedUser)) (payment d))
       (List.filter (fun r => negb (row_user r =? User.Name deletedUser)) (transaction d))
       (List.filter (fun r => negb (row_user r =? User.Name deletedUser)) (subscription d)).

(** ** Vocabulary of the proofs *)

Definition in_transaction (w : World) : Prop := tx w <> None.

(** A computation that, run inside an open transaction, leaves the
    committed store alone, leaves nothing unresolved behind, when it
    succeeds leaves the transaction open, and when it fails has rolled
    it back. *)
Definition transactional {A} (c : M A) : Prop :=
  forall w r w', in_transaction w -> c w = (r, w') ->
    db w' = db w /\ unresolved w' = unresolved w
    /\ (forall a, r = inr a -> in_transaction w').

(** A computation that never changes the committed store nor the
    transaction. *)
Definition read_only {A} (c : M A) : Prop :=
  forall w r w', c w = (r, w') ->
    db w' = db w /\ tx w' = tx w /\ unresolved w' = unresolved w.

(** The storage layer answers every call from the [k]-th on. *)
Definition never_fails_from (env : Env) (k : nat) : Prop :=
  forall i, (k <= i)%nat -> storage_fault env i = None.

(** The ids drawn from the [k]-th on are pairwise distinct and none is the
    key of a row of [l]. *)
Definition fresh_ids_from (env : Env) (k : nat) (l : list UserIdentityBinding) : Prop :=
  (forall i, (k <= i)%nat -> ~ In (GenerateId env i) (List.map Binding.Id l))
  /\ (forall i j, (k <= i)%nat -> (i < j)%nat -> GenerateId env i <> GenerateId env j).

(** A computation that, inside a transaction and with a storage layer
    that answers, returns a value and leaves the transaction open. *)
Definition succeeds (env : Env) {A} (c : M A) : Prop :=
  forall w, in_transaction w -> never_fails_from env (calls w) ->
    exists a w', c w = (inr a, w') /\ in_transaction w' /\ (calls w <= calls w')%nat.

(** How many times the byte [sep] occurs in [s]. *)
Fixpoint count_sep (sep : ascii) (s : string) : nat :=
  match s with
  | EmptyString => 0%nat
  | String c s' => ((if Ascii.eqb c sep then 1 else 0) + count_sep sep s')%nat
  end.

(** The last binding of a given type in a list, if any. *)
Definition last_of_type (authType : string) (l : list UserIdentityBinding)
  : option UserIdentityBinding :=
  List.find (fun b => Binding.AuthType b =? authType) (List.rev l).

(** The provider types that [getProviderValue] names in its [switch]. *)
Definition listed_types : list string :=
  ["github"; "google"; "wechat"; "qq"; "facebook"; "dingtalk"; "weibo"; "email";
   "phone"; "password"; "ldap"; "custom"].

(** What one turn of the mapping loop stores under its key when the
    entry names the source [v], read in the response [dataMap]. *)
Definition source_value (dataMap : gmap string Value) (v : string) : Value :=
  if v =? "" then Text "" else index dataMap v.

(** No entry of the mapping reads a key that another entry writes: the
    source of each entry is its own key or no key of the mapping. *)
Definition sources_untouched (UserMapping : gmap string string) : bool :=
  forallb (fun entry : string * string =>
             (snd entry =? fst entry)
             || negb (bool_decide (is_Some (UserMapping !! snd entry))))
          (map_to_list UserMapping).

(** The form of an SMS request with another decoded body. *)
Definition with_body (r : SMSHttpRequest) (body : SMSRequest) : SMSHttpRequest :=
  mkSMSHttpRequest (Method r) (Form r) body.

(** ** A concrete deployment, used to run the engine

    Three accounts: [alice] (an email credential), [bob] (the same email
    and a phone) and [mallory]; the tokens ["tokA"], ["tokB"] and ["tokM"]
    name them. *)

Module Example.

Definition account (name password email phone uid : string) : User.t :=
  User.mk "org" name password email phone "" "" "" "" "" "" "" "" "" None uid false.

Definition alice : User.t := account "alice" "h1" "a@x.com" "" "uid-A".
Definition bob : User.t := account "bob" "" "a@x.com" "555" "uid-B".
Definition mallory : User.t := account "mallory" "h3" "m@x.com" "" "uid-M".

Definition parse (token : string) : error + Claims :=
  if token =? "tokA" then inr (mkClaims alice "uid-A")
  else if token =? "tokB" then inr (mkClaims bob "uid-B")
  else if token =? "tokM" then inr (mkClaims mallory "uid-M")
  else inl "token is malformed".

(** The password checker accepts ["secret"] for every stored account. *)
Definition check (d : DB) (owner name password lang : string) : error + option User.t :=
  match List.find (fun u => (User.Owner u =? owner) && (User.Name u =? name)) (user d) with
  | Some u => if password =? "secret" then inr (Some u) else inl "password incorrect"
  | None => inl "user does not exist"
  end.

Definition digit (k : nat) : string := String (ascii_of_nat (48 + k)) EmptyString.

(** The deployment works with ASCII names only, so what stands for the
    tables of package [unicode] is never asked; the driver names the key
    it refuses. *)
Definition lower_unicode (s : string) : string := s.

Definition refuse (b : UserIdentityBinding) : error :=
  "primary key taken: " +:+ Binding.Id b.

(** No storage failure; ids ["id-0"], ["id-1"], ...; times ["t0"], ... *)
Definition env0 : Env :=
  mkEnv (fun _ => None) (fun k => "id-" +:+ digit k) (fun k => "t" +:+ digit k) parse check
        lower_unicode refuse.

(** The same deployment with the [k]-th storage call failing. *)
Definition env_fault (k : nat) : Env :=
  mkEnv (fun n => if (n =? k)%nat then Some "connection lost" else None)
        (fun k => "id-" +:+ digit k) (fun k => "t" +:+ digit k) parse check
        lower_unicode refuse.

Definition store0 : DB :=
  mkDB [Binding.mk "b1" "uid-A" "email" "a@x.com" "t";
        Binding.mk "b2" "uid-B" "email" "a@x.com" "t";
        Binding.mk "b3" "uid-B" "phone" "555" "t";
        Binding.mk "b4" "uid-M" "google" "g-7" "t";
        Binding.mk "b5" "uid-A" "password" "org/alice" "t"]
       [alice; bob; mallory]
       [mkScoped "org" "tk1" "alice"; mkScoped "org" "tk2" "bob"]
       [mkScoped "org" "bob" ""; mkScoped "org" "alice" ""]
       [mkScoped "org" "v1" "org/bob"]
       [mkScoped "org" "r1" "bob"; mkScoped "org" "r2" "mallory"]
       [mkScoped "org" "p1" "bob"]
       []
       [mkScoped "org" "s1" "bob"].

Definition world0 : World := mkWorld store0 None 0 0 0 None.

(** A store in which every credential has one owner: only [alice] has
    signed up so far. *)
Definition store1 : DB :=
  mkDB [Binding.mk "b1" "uid-A" "email" "a@x.com" "t"] [alice] [] [] [] [] [] [] [].

Definition world1 : World := mkWorld store1 None 0 0 0 None.

End Example.

(** ** The deployment with a checker that knows nobody, and a store in
    which [alice] holds the email and [bob] the phone *)

Module Quiet.

Definition env_silent : Env :=
  mkEnv (fun _ => None) (GenerateId Example.env0) (GetCurrentTime Example.env0)
        Example.parse (fun _ _ _ _ _ => inr None)
        Example.lower_unicode Example.refuse.

Definition store2 : DB :=
  mkDB [Binding.mk "b1" "uid-A" "email" "a@x.com" "t";
        Binding.mk "b3" "uid-B" "phone" "555" "t"]
       [Example.alice; Example.bob]
       [mkScoped "org" "tk1" "alice"; mkScoped "org" "tk2" "bob"]
       [] [] [] [mkScoped "org" "p1" "bob"] [] [].

Definition world2 : World := mkWorld store2 None 0 0 0 None.

(** A second account named [alice], of another organisation and with a
    universal identity of its own, and the deployment in which the token
    ["tokX"] names it. *)
Definition namesake : User.t :=
  User.mk "other-org" "alice" "h9" "x@y.org" "" "" "" "" "" "" "" "" "" "" None "uid-X" false.

Definition env_namesake : Env :=
  mkEnv (fun _ => None) (GenerateId Example.env0) (GetCurrentTime Example.env0)
        (fun token => if token =? "tokX" then inr (mkClaims namesake "uid-X")
                      else Example.parse token)
        Example.check Example.lower_unicode Example.refuse.

End Quiet.

(** ** A custom provider and an SMS request, used to run the two *)

Module ProviderExample.

Definition partial : gmap string string :=
  list_to_map [("id", "uid"); ("username", "")].

Definition mapping : gmap string string :=
  list_to_map [("id", "uid"); ("username", "login"); ("displayName", "name");
               ("email", "")].

Definition swapped : gmap string string :=
  list_to_map [("id", "username"); ("username", "id"); ("displayName", "name")].

Definition answer : gmap string Value :=
  list_to_map [("uid", Number "7"); ("login", Text "ann"); ("name", Text "Ann");
               ("email", Text "ann@example.org"); ("id", Text "row-1");
               ("username", Text "ann")].

Definition text (v : Value) : string :=
  match v with
  | Text s => s
  | Number literal => literal
  | _ => ""
  end.

Definition ienv0 : IdpEnv :=
  mkIdpEnv
    (fun v => match v with
              | Text s => inr s
              | Number literal => inr literal
              | _ => inl "unsupported id type"
              end)
    (fun d => inr (CustomUserInfo.mk (text (index d "id")) (text (index d "username"))
                     (text (index d "displayName")) (text (index d "email"))
                     (text (index d "avatarUrl"))))
    text.

Definition sms_form : SMSHttpRequest :=
  mkSMSHttpRequest "POST"
    (list_to_map [("phoneNumber", ["+8613800000000"]); ("phone", ["13900000000"]);
                  ("code", ["4711"])])
    (mkSMSRequest "" "" "").

Definition sms_json : SMSHttpRequest :=
  mkSMSHttpRequest "POST" ∅ (mkSMSRequest "13900000000" "+8613800000000" "4711").

End ProviderExample.

(** * Properties *)

(** ** The monad *)

Lemma bind_inr {A B} (c : M A) (k : A -> M B) w b w' :
  bind c k w = (inr b, w') ->
  exists a w1, c w = (inr a, w1) /\ k a w1 = (inr b, w').
Proof.
  unfold bind. destruct (c w) as [[e|a] w1] eqn:E; intros H.
  - discriminate.
  - exists a, w1. auto.
Qed.

Lemma bind_inl {A B} (c : M A) (k : A -> M B) w e w' :
  bind c k w = (inl e, w') ->
  c w = (inl e, w') \/ exists a w1, c w = (inr a, w1) /\ k a w1 = (inl e, w').
Proof.
  unfold bind. destruct (c w) as [[e0|a] w1] eqn:E; intros H.
  - left. congruence.
  - right. exists a, w1. auto.
Qed.

Lemma bind_step {A B} (c : M A) (k : A -> M B) w a w1 :
  c w = (inr a, w1) -> bind c k w = k a w1.
Proof. unfold bind. intros ->. reflexivity. Qed.

Lemma or_rollback_inr {A} (c : M A) w a w' :
  or_rollback c w = (inr a, w') -> c w = (inr a, w').
Proof.
  unfold or_rollback. destruct (c w) as [[e|x] w1]; intros H; congruence.
Qed.

Lemma or_rollback_step {A} (c : M A) w a w' :
  c w = (inr a, w') -> or_rollback c w = (inr a, w').
Proof. unfold or_rollback. intros ->. reflexivity. Qed.

(** ** Strings and rows *)

Lemma eqb_neq_false (a b : string) : a <> b -> (a =? b) = false.
Proof. intros H. apply String.eqb_neq. exact H. Qed.

Lemma AuthMethod_eqb_eq (a b : AuthMethod) : AuthMethod_eqb a b = true <-> a = b.
Proof.
  destruct a as [t1 v1], b as [t2 v2]. unfold AuthMethod_eqb. simpl.
  rewrite andb_true_iff, !String.eqb_eq. split.
  - intros [-> ->]. reflexivity.
  - intros H. inversion H. auto.
Qed.

Lemma existsb_AuthMethod (c : AuthMethod) (l : list AuthMethod) :
  existsb (AuthMethod_eqb c) l = true <-> In c l.
Proof.
  rewrite existsb_exists. split.
  - intros [x [Hin Heq]]. apply AuthMethod_eqb_eq in Heq. subst. exact Hin.
  - intros Hin. exists c. split; [exact Hin|]. apply AuthMethod_eqb_eq. reflexivity.
Qed.

Lemma AuthMethod_eq_dec (a b : AuthMethod) : {a = b} + {a <> b}.
Proof.
  destruct (AuthMethod_eqb a b) eqn:E.
  - left. apply AuthMethod_eqb_eq. exact E.
  - right. intros H. apply AuthMethod_eqb_eq in H. congruence.
Qed.

Lemma count_positive {R} (p : R -> bool) (l : list R) :
  (0 <? List.length (List.filter p l))%nat = existsb p l.
Proof.
  induction l as [|x l IH]; simpl; [reflexivity|].
  destruct (p x); simpl; [reflexivity|exact IH].
Qed.

(** ** The storage layer *)

Section StorageFacts.

Variable env : Env.

Lemma storage_call_ok w :
  storage_fault env (calls w) = None -> storage_call env w = (inr tt, counted w).
Proof. unfold storage_call. intros ->. reflexivity. Qed.

Lemma storage_call_fault w e :
  storage_fault env (calls w) = Some e -> storage_call env w = (inl e, counted w).
Proof. unfold storage_call. intros ->. reflexivity. Qed.

Lemma storage_call_inr w u w' :
  storage_call env w = (inr u, w') ->
  storage_fault env (calls w) = None /\ w' = counted w.
Proof.
  unfold storage_call. destruct (storage_fault env (calls w)); intros H.
  - discriminate.
  - inversion H. auto.
Qed.

Lemma read_only_storage_call : read_only (storage_call env).
Proof.
  intros w r w'. unfold storage_call.
  destruct (storage_fault env (calls w)); intros H; inversion H; auto.
Qed.

Lemma read_only_ret {A} (a : A) : read_only (ret a).
Proof. intros w r w' H. inversion H. auto. Qed.

Lemma read_only_fail {A} (e : error) : read_only (@fail A e).
Proof. intros w r w' H. inversion H. auto. Qed.

Lemma read_only_bind {A B} (c : M A) (k : A -> M B) :
  read_only c -> (forall a, read_only (k a)) -> read_only (bind c k).
Proof.
  intros Hc Hk w r w'. unfold bind.
  destruct (c w) as [[e|a] w1] eqn:E; intros H.
  - inversion H; subst. eapply Hc; eauto.
  - destruct (Hc _ _ _ E) as [D1 [T1 U1]]. destruct (Hk a _ _ _ H) as [D2 [T2 U2]].
    repeat split; congruence.
Qed.

Lemma read_only_wrap_err {A} f (c : M A) : read_only c -> read_only (wrap_err f c).
Proof.
  intros Hc w r w'. unfold wrap_err.
  destruct (c w) as [[e|a] w1] eqn:E; intros H; inversion H; subst; eapply Hc; eauto.
Qed.

Lemma read_only_engine_query {A} (q : DB -> A) : read_only (engine_query env q).
Proof.
  apply read_only_bind; [apply read_only_storage_call|].
  intros _ w r w' H. inversion H. auto.
Qed.

Lemma read_only_getUserByUniversalId uid : read_only (getUserByUniversalId env uid).
Proof.
  apply read_only_bind; [apply read_only_engine_query|].
  intros [u|]; [apply read_only_ret|apply read_only_fail].
Qed.

Lemma read_only_parse_token tok : read_only (parse_token env tok).
Proof. intros w r w' H. inversion H. auto. Qed.

(** *** Inside a transaction *)

Lemma transactional_of_read_only {A} (c : M A) : read_only c -> transactional c.
Proof.
  intros Hc w r w' Hin H. destruct (Hc _ _ _ H) as [D [T U]].
  split; [exact D|]. split; [exact U|].
  intros _ _. unfold in_transaction in *. congruence.
Qed.

Lemma transactional_bind {A B} (c : M A) (k : A -> M B) :
  transactional c -> (forall a, transactional (k a)) -> transactional (bind c k).
Proof.
  intros Hc Hk w r w' Hin. unfold bind.
  destruct (c w) as [[e|a] w1] eqn:E; intros H.
  - inversion H; subst. destruct (Hc _ _ _ Hin E) as [D [U _]].
    split; [exact D|]. split; [exact U|].
    intros a Ha. discriminate.
  - destruct (Hc _ _ _ Hin E) as [D1 [U1 T1]].
    destruct (Hk a _ _ _ (T1 a eq_refl) H) as [D2 [U2 T2]].
    split; [congruence|]. split; [congruence|exact T2].
Qed.

Lemma transactional_or_rollback {A} (c : M A) :
  transactional c -> transactional (or_rollback c).
Proof.
  intros Hc w r w' Hin. unfold or_rollback.
  destruct (c w) as [[e|a] w1] eqn:E; intros H; inversion H; subst;
    destruct (Hc _ _ _ Hin E) as [D [U T]].
  - split; [exact D|]. split; [exact U|]. intros a Ha. discriminate.
  - split; [exact D|]. split; [exact U|]. exact T.
Qed.

Lemma transactional_session_query {A} (q : DB -> A) : transactional (session_query env q).
Proof.
  apply transactional_of_read_only.
  apply read_only_bind; [apply read_only_storage_call|].
  intros _ w r w' H. inversion H. auto.
Qed.

Lemma transactional_session_exec {A} (stmt : DB -> error + (A * DB)) :
  transactional (session_exec env stmt).
Proof.
  apply transactional_bind.
  - apply transactional_of_read_only, read_only_storage_call.
  - intros _ w r w' Hin. unfold session_view, session_put, in_transaction in *.
    destruct (tx w) as [t|] eqn:T; [|congruence].
    destruct (stmt t) as [e|[a d]]; intros H; inversion H; subst; simpl.
    + split; [reflexivity|]. split; [reflexivity|]. intros a Ha. discriminate.
    + split; [reflexivity|]. split; [reflexivity|]. intros _ _. discriminate.
Qed.

Lemma read_only_util_GenerateId : read_only (util_GenerateId env).
Proof. intros w r w' H. inversion H. auto. Qed.

Lemma read_only_util_GetCurrentTime : read_only (util_GetCurrentTime env).
Proof. intros w r w' H. inversion H. auto. Qed.

Lemma transactional_checkAuthMethodExists uid ty v :
  transactional (checkAuthMethodExists env uid ty v).
Proof.
  apply transactional_bind; [apply transactional_session_query|].
  intros n. apply transactional_of_read_only, read_only_ret.
Qed.

Lemma transactional_transferBindings reservedId deletedBindings merged :
  transactional (transferBindings env reservedId deletedBindings merged).
Proof.
  revert merged. induction deletedBindings as [|b rest IH]; intros merged; simpl.
  - apply transactional_of_read_only, read_only_ret.
  - apply transactional_bind.
    + apply transactional_or_rollback, transactional_checkAuthMethodExists.
    + intros [|]; simpl; [apply IH|].
      apply transactional_bind;
        [apply transactional_of_read_only, read_only_util_GenerateId|intros id].
      apply transactional_bind;
        [apply transactional_of_read_only, read_only_util_GetCurrentTime|intros now].
      apply transactional_bind;
        [apply transactional_or_rollback, transactional_session_exec|intros _].
      apply IH.
Qed.

Lemma transactional_purgeDeletedUser deletedUser :
  transactional (purgeDeletedUser env deletedUser).
Proof.
  unfold purgeDeletedUser.
  repeat (apply transactional_bind;
          [apply transactional_or_rollback, transactional_session_exec|intros _]).
  apply transactional_of_read_only, read_only_ret.
Qed.

End StorageFacts.

(** ** Merge: the failure paths *)

Section MergeFailure.

Variable env : Env.

Lemma Begin_inr w u w' :
  Begin env w = (inr u, w') ->
  storage_fault env (calls w) = None /\ w' = set_tx (Some (db w)) (counted w).
Proof.
  unfold Begin. intros H. apply bind_inr in H. destruct H as [x [w1 [H1 H2]]].
  apply storage_call_inr in H1. destruct H1 as [F ->]. inversion H2. auto.
Qed.

Lemma Begin_inl w e w' :
  Begin env w = (inl e, w') ->
  db w' = db w /\ tx w' = tx w /\ unresolved w' = unresolved w.
Proof.
  unfold Begin. intros H. apply bind_inl in H. destruct H as [H|[x [w1 [H1 H2]]]].
  - apply read_only_storage_call in H. exact H.
  - discriminate.
Qed.

Lemma Commit_inl w e w' :
  Commit env w = (inl e, w') ->
  exists working,
    tx w = Some working
    /\ storage_fault env (calls w) = Some e
    /\ w' = set_unresolved (Some working) (set_tx None (counted w)).
Proof.
  unfold Commit, storage_call. destruct (tx w) as [working|]; [|discriminate].
  simpl. destruct (storage_fault env (calls w)) as [e0|] eqn:F; intros H;
    inversion H; subst.
  exists working. auto.
Qed.

Lemma Commit_inr w working u w' :
  tx w = Some working ->
  Commit env w = (inr u, w') ->
  storage_fault env (calls w) = None /\
  w' = set_db working (set_tx None (counted w)).
Proof.
  unfold Commit, storage_call. intros ->.
  simpl. destruct (storage_fault env (calls w)) as [e0|] eqn:F; intros H;
    inversion H; subst.
  auto.
Qed.

Lemma Close_db w : db (Close w) = db w.
Proof. unfold Close. destruct (tx w); reflexivity. Qed.

Lemma Close_tx w : tx (Close w) = None.
Proof. unfold Close. destruct (tx w) eqn:T; [reflexivity|exact T]. Qed.

Lemma Close_unresolved w : unresolved (Close w) = unresolved w.
Proof. unfold Close. destruct (tx w); reflexivity. Qed.

Lemma Close_calls w : calls (Close w) = calls w.
Proof. unfold Close. destruct (tx w); reflexivity. Qed.

Lemma Close_closed w : tx w = None -> Close w = w.
Proof. unfold Close. intros ->. reflexivity. Qed.

Lemma mergeTransaction_inl reservedUser deletedUser deletedBindings w e w' :
  mergeTransaction env reservedUser deletedUser deletedBindings w = (inl e, w') ->
  db w' = db w.
Proof.
  unfold mergeTransaction, deferred_close.
  match goal with |- context [let '(_, _) := ?c w in _] => destruct (c w) as [r w1] eqn:E end.
  intros H. inversion H; subst. clear H. rewrite Close_db.
  apply bind_inl in E. destruct E as [E|[u [w2 [B E]]]].
  { apply Begin_inl in E. tauto. }
  apply Begin_inr in B. destruct B as [_ ->].
  set (w2 := set_tx (Some (db w)) (counted w)) in *.
  assert (Hin : in_transaction w2) by (unfold in_transaction; simpl; discriminate).
  assert (D2 : db w2 = db w) by reflexivity.
  clearbody w2.
  apply bind_inl in E. destruct E as [E|[m [w3 [T E]]]].
  { eapply transactional_transferBindings in E; eauto. destruct E. congruence. }
  destruct (transactional_transferBindings env _ _ _ _ _ _ Hin T) as [D3 [_ I3]].
  specialize (I3 _ eq_refl).
  apply bind_inl in E. destruct E as [E|[u' [w4 [P E]]]].
  { eapply transactional_purgeDeletedUser in E; eauto. destruct E as [E _]. congruence. }
  destruct (transactional_purgeDeletedUser env _ _ _ _ I3 P) as [D4 [_ I4]].
  apply bind_inl in E. destruct E as [E|[u'' [w5 [C E]]]].
  { apply Commit_inl in E. destruct E as [working [_ [_ ->]]]. simpl. congruence. }
  discriminate.
Qed.

(** No failure of a merge changes the store. *)
Lemma MergeUsers_inl reservedUserToken deletedUserToken w e w' :
  MergeUsers env reservedUserToken deletedUserToken w = (inl e, w') -> db w' = db w.
Proof.
  unfold MergeUsers. intros H.
  apply bind_inl in H. destruct H as [H|[rc [w1 [H1 H]]]].
  { eapply read_only_wrap_err in H; [tauto|apply read_only_parse_token]. }
  eapply read_only_wrap_err in H1; [|apply read_only_parse_token]. destruct H1 as [D1 _].
  apply bind_inl in H. destruct H as [H|[dc [w2 [H2 H]]]].
  { eapply read_only_wrap_err in H; [|apply read_only_parse_token]. destruct H. congruence. }
  eapply read_only_wrap_err in H2; [|apply read_only_parse_token]. destruct H2 as [D2 _].
  apply bind_inl in H. destruct H as [H|[ru [w3 [H3 H]]]].
  { eapply read_only_wrap_err in H; [|apply read_only_getUserByUniversalId].
    destruct H. congruence. }
  eapply read_only_wrap_err in H3; [|apply read_only_getUserByUniversalId].
  destruct H3 as [D3 _].
  destruct ru as [ru|]; [|inversion H; subst; congruence].
  apply bind_inl in H. destruct H as [H|[du [w4 [H4 H]]]].
  { eapply read_only_wrap_err in H; [|apply read_only_getUserByUniversalId].
    destruct H. congruence. }
  eapply read_only_wrap_err in H4; [|apply read_only_getUserByUniversalId].
  destruct H4 as [D4 _].
  destruct du as [du|]; [|inversion H; subst; congruence].
  destruct (User.IsDeleted ru); [inversion H; subst; congruence|].
  destruct (User.IsDeleted du); [inversion H; subst; congruence|].
  destruct (User.UniversalId ru =? User.UniversalId du);
    [inversion H; subst; congruence|].
  apply bind_inl in H. destruct H as [H|[bs [w5 [H5 H]]]].
  { apply read_only_engine_query in H. destruct H. congruence. }
  apply read_only_engine_query in H5. destruct H5 as [D5 _].
  apply mergeTransaction_inl in H. congruence.
Qed.

End MergeFailure.

(** ** Merge: the transfer loop *)

Lemma credentials_of_app uid (l1 l2 : list UserIdentityBinding) :
  credentials_of uid (l1 ++ l2) = credentials_of uid l1 ++ credentials_of uid l2.
Proof. unfold credentials_of, owned_by. rewrite List.filter_app, List.map_app. reflexivity. Qed.

Lemma In_credentials_of uid (l : list UserIdentityBinding) (c : AuthMethod) :
  In c (credentials_of uid l) <->
  exists b, In b l /\ Binding.UniversalId b = uid /\ credential b = c.
Proof.
  unfold credentials_of, owned_by. rewrite in_map_iff. split.
  - intros [b [Hc Hb]]. apply List.filter_In in Hb. destruct Hb as [Hb Hu].
    apply String.eqb_eq in Hu. eauto.
  - intros [b [Hb [Hu Hc]]]. exists b. split; [exact Hc|].
    apply List.filter_In. split; [exact Hb|]. apply String.eqb_eq. exact Hu.
Qed.

(** The existence test of [checkAuthMethodExists] is membership of the
    credential among those of the identity. *)
Lemma exists_under_identity uid ty v (l : list UserIdentityBinding) :
  existsb (fun b => (Binding.UniversalId b =? uid)
                    && (Binding.AuthType b =? ty) && (Binding.AuthValue b =? v)) l
  = existsb (AuthMethod_eqb (mkAuthMethod ty v)) (credentials_of uid l).
Proof.
  unfold credentials_of, owned_by.
  induction l as [|b l IH]; simpl; [reflexivity|].
  destruct (Binding.UniversalId b =? uid); simpl; [|exact IH].
  rewrite IH. f_equal. unfold AuthMethod_eqb, credential. simpl.
  rewrite (String.eqb_sym ty), (String.eqb_sym v). reflexivity.
Qed.

Section MergeTransfer.

Variable env : Env.

Lemma session_exec_inr {A} (stmt : DB -> error + (A * DB)) w t a w' :
  tx w = Some t ->
  session_exec env stmt w = (inr a, w') ->
  exists t', stmt t = inr (a, t') /\ w' = set_tx (Some t') (counted w)
             /\ storage_fault env (calls w) = None.
Proof.
  intros T H. unfold session_exec in H. apply bind_inr in H.
  destruct H as [u [w1 [H1 H2]]]. apply storage_call_inr in H1. destruct H1 as [F ->].
  unfold session_view, session_put in H2. simpl in H2. rewrite T in H2.
  destruct (stmt t) as [e|[a' t']]; [discriminate|].
  inversion H2; subst. exists t'. auto.
Qed.

Lemma session_exec_ok {A} (stmt : DB -> error + (A * DB)) w t a t' :
  tx w = Some t -> storage_fault env (calls w) = None -> stmt t = inr (a, t') ->
  session_exec env stmt w = (inr a, set_tx (Some t') (counted w)).
Proof.
  intros T F S. unfold session_exec.
  rewrite (bind_step _ _ _ _ _ (storage_call_ok env w F)).
  unfold session_view, session_put. simpl. rewrite T, S. reflexivity.
Qed.

Lemma checkAuthMethodExists_inr uid ty v w t ex w' :
  tx w = Some t ->
  checkAuthMethodExists env uid ty v w = (inr ex, w') ->
  ex = existsb (AuthMethod_eqb (mkAuthMethod ty v))
               (credentials_of uid (user_identity_binding t))
  /\ w' = counted w /\ storage_fault env (calls w) = None.
Proof.
  intros T H. unfold checkAuthMethodExists, session_query in H.
  apply bind_inr in H. destruct H as [n [w1 [H1 H2]]].
  apply bind_inr in H1. destruct H1 as [u [w2 [H0 H1]]].
  apply storage_call_inr in H0. destruct H0 as [F ->].
  unfold session_view in H1. simpl in H1. rewrite T in H1.
  inversion H1; subst. inversion H2; subst.
  rewrite count_positive, exists_under_identity. auto.
Qed.

Lemma checkAuthMethodExists_ok uid ty v w t :
  tx w = Some t -> storage_fault env (calls w) = None ->
  checkAuthMethodExists env uid ty v w
  = (inr (existsb (AuthMethod_eqb (mkAuthMethod ty v))
                  (credentials_of uid (user_identity_binding t))), counted w).
Proof.
  intros T F. unfold checkAuthMethodExists, session_query, bind, ret.
  rewrite (storage_call_ok env w F). unfold session_view. simpl. rewrite T.
  rewrite count_positive, exists_under_identity. reflexivity.
Qed.

Lemma insert_binding_inr b d n d' :
  insert_binding env b d = inr (n, d') ->
  ~ In (Binding.Id b) (List.map Binding.Id (user_identity_binding d))
  /\ n = 1%nat
  /\ d' = set_user_identity_binding (user_identity_binding d ++ [b]) d.
Proof.
  unfold insert_binding.
  destruct (existsb _ _) eqn:E; intros H; [discriminate|].
  inversion H; subst. split; [|auto].
  intros Hin. apply in_map_iff in Hin. destruct Hin as [r [Hr Hin]].
  assert (existsb (fun r => Binding.Id r =? Binding.Id b) (user_identity_binding d) = true).
  { apply existsb_exists. exists r. split; [exact Hin|]. apply String.eqb_eq. exact Hr. }
  congruence.
Qed.

Lemma insert_binding_ok b d :
  ~ In (Binding.Id b) (List.map Binding.Id (user_identity_binding d)) ->
  insert_binding env b d
  = inr (1%nat, set_user_identity_binding (user_identity_binding d ++ [b]) d).
Proof.
  intros Hn. unfold insert_binding.
  destruct (existsb _ _) eqn:E; [|reflexivity].
  exfalso. apply Hn. apply existsb_exists in E. destruct E as [r [Hin Hr]].
  apply String.eqb_eq in Hr. apply in_map_iff. exists r. auto.
Qed.

(** A transfer loop that succeeds has appended exactly the rows of
    [transferred] to the working copy, under ids that were free. *)
Lemma transferBindings_inr reservedId deletedBindings :
  forall merged w t merged' w',
    tx w = Some t ->
    transferBindings env reservedId deletedBindings merged w = (inr merged', w') ->
    let ins := transferred env reservedId
                 (credentials_of reservedId (user_identity_binding t))
                 deletedBindings (ids w) (ticks w) in
    tx w' = Some (set_user_identity_binding (user_identity_binding t ++ ins) t)
    /\ db w' = db w
    /\ merged' = merged ++ List.map credential ins
    /\ NoDup (List.map Binding.Id ins)
    /\ (forall b, In b ins ->
          ~ In (Binding.Id b) (List.map Binding.Id (user_identity_binding t))).
Proof.
  induction deletedBindings as [|b rest IH]; intros merged w t merged' w' T H; simpl in *.
  - inversion H; subst. rewrite app_nil_r, app_nil_r.
    repeat split; auto.
    + rewrite T. destruct t; reflexivity.
    + constructor.
  - apply bind_inr in H. destruct H as [ex [w1 [H1 H]]].
    apply or_rollback_inr in H1.
    eapply checkAuthMethodExists_inr in H1; [|exact T]. destruct H1 as [-> [-> F1]].
    change (mkAuthMethod (Binding.AuthType b) (Binding.AuthValue b)) with (credential b) in *.
    destruct (existsb (AuthMethod_eqb (credential b))
                      (credentials_of reservedId (user_identity_binding t))) eqn:E;
      simpl in H.
    + apply (IH merged (counted w) t merged' w' T H).
    + apply bind_inr in H. destruct H as [id [w2 [G H]]]. inversion G; subst id w2. clear G.
      apply bind_inr in H. destruct H as [now [w3 [G H]]]. inversion G; subst now w3. clear G.
      apply bind_inr in H. destruct H as [n [w4 [I H]]].
      apply or_rollback_inr in I.
      eapply session_exec_inr in I; [|simpl; exact T].
      destruct I as [t' [I [-> F2]]].
      apply insert_binding_inr in I. destruct I as [Hfresh [-> ->]].
      set (nb := Binding.mk (GenerateId env (ids w)) reservedId (Binding.AuthType b)
                            (Binding.AuthValue b) (GetCurrentTime env (ticks w))) in *.
      eapply IH in H; [|reflexivity]. simpl in H.
      rewrite credentials_of_app in H.
      assert (Hc : credentials_of reservedId [nb] = [credential b]).
      { unfold credentials_of, owned_by. simpl. rewrite String.eqb_refl. reflexivity. }
      rewrite Hc in H.
      destruct H as [T' [D' [M' [N' Fr']]]].
      repeat split.
      * rewrite T'. f_equal. unfold set_user_identity_binding. simpl.
        rewrite <- app_assoc. reflexivity.
      * exact D'.
      * rewrite M'. rewrite <- app_assoc. reflexivity.
      * simpl. constructor; [|exact N'].
        intros Hin. apply in_map_iff in Hin. destruct Hin as [b' [Hid Hb']].
        apply (Fr' b' Hb'). rewrite List.map_app. apply in_or_app. right.
        simpl. left. symmetry. exact Hid.
      * intros b' [<-|Hb']; [exact Hfresh|].
        intros Hin. apply (Fr' b' Hb'). rewrite List.map_app. apply in_or_app. left.
        exact Hin.
Qed.

End MergeTransfer.

(** ** Merge: the success path *)

Section MergeSuccess.

Variable env : Env.

Lemma engine_query_inr {A} (q : DB -> A) w a w' :
  engine_query env q w = (inr a, w') ->
  a = q (db w) /\ w' = counted w /\ storage_fault env (calls w) = None.
Proof.
  unfold engine_query. intros H. apply bind_inr in H. destruct H as [u [w1 [H1 H2]]].
  apply storage_call_inr in H1. destruct H1 as [F ->]. inversion H2. auto.
Qed.

Lemma engine_query_ok {A} (q : DB -> A) w :
  storage_fault env (calls w) = None ->
  engine_query env q w = (inr (q (db w)), counted w).
Proof.
  intros F. unfold engine_query, bind. rewrite (storage_call_ok env w F). reflexivity.
Qed.

Lemma engine_query_fault {A} (q : DB -> A) w e :
  storage_fault env (calls w) = Some e ->
  engine_query env q w = (inl e, counted w).
Proof.
  intros F. unfold engine_query, bind. rewrite (storage_call_fault env w e F). reflexivity.
Qed.

Lemma getUserByUniversalId_inr uid w r w' :
  getUserByUniversalId env uid w = (inr r, w') ->
  exists u, r = Some u
            /\ List.find (fun u => User.UniversalId u =? uid) (user (db w)) = Some u
            /\ w' = counted w /\ storage_fault env (calls w) = None.
Proof.
  unfold getUserByUniversalId. intros H. apply bind_inr in H.
  destruct H as [found [w1 [H1 H2]]]. apply engine_query_inr in H1.
  destruct H1 as [-> [-> F]].
  destruct (List.find _ _) as [u|] eqn:E; [|discriminate].
  inversion H2; subst. exists u. auto.
Qed.

Lemma getUserByUniversalId_ok uid w u :
  storage_fault env (calls w) = None ->
  List.find (fun u => User.UniversalId u =? uid) (user (db w)) = Some u ->
  getUserByUniversalId env uid w = (inr (Some u), counted w).
Proof.
  intros F E. unfold getUserByUniversalId, bind.
  rewrite (engine_query_ok _ w F), E. reflexivity.
Qed.

Lemma getUserByUniversalId_none uid w :
  storage_fault env (calls w) = None ->
  List.find (fun u => User.UniversalId u =? uid) (user (db w)) = None ->
  getUserByUniversalId env uid w
  = (inl ("user not found for universal_id: " +:+ uid), counted w).
Proof.
  intros F E. unfold getUserByUniversalId, bind.
  rewrite (engine_query_ok _ w F), E. reflexivity.
Qed.

Lemma wrap_err_inr {A} f (c : M A) w a w' :
  wrap_err f c w = (inr a, w') -> c w = (inr a, w').
Proof. unfold wrap_err. destruct (c w) as [[e|x] w1]; intros H; congruence. Qed.

(** One [Where(...).Delete(...)] of the purge. *)
Lemma delete_step {R} (T : Table R) (cond : R -> bool) w t n w' :
  tx w = Some t ->
  or_rollback (session_exec env (delete_where T cond)) w = (inr n, w') ->
  tx w' = Some (set_rows T (List.filter (fun r => negb (cond r)) (rows T t)) t)
  /\ db w' = db w /\ calls w' = S (calls w)
  /\ storage_fault env (calls w) = None.
Proof.
  intros Tx H. apply or_rollback_inr in H.
  eapply session_exec_inr in H; [|exact Tx]. destruct H as [t' [H [-> F]]].
  unfold delete_where in H. inversion H; subst. simpl. auto.
Qed.

Lemma purgeDeletedUser_inr deletedUser w t u w' :
  tx w = Some t ->
  purgeDeletedUser env deletedUser w = (inr u, w') ->
  tx w' = Some (purged deletedUser t) /\ db w' = db w /\ calls w' = (calls w + 9)%nat.
Proof.
  intros T0 H. unfold purgeDeletedUser in H.
  apply bind_inr in H. destruct H as [n1 [w1 [S1 H]]].
  destruct (delete_step _ _ _ _ _ _ T0 S1) as [T1 [D1 [C1 _]]].
  apply bind_inr in H. destruct H as [n2 [w2 [S2 H]]].
  destruct (delete_step _ _ _ _ _ _ T1 S2) as [T2 [D2 [C2 _]]].
  apply bind_inr in H. destruct H as [n3 [w3 [S3 H]]].
  destruct (delete_step _ _ _ _ _ _ T2 S3) as [T3 [D3 [C3 _]]].
  apply bind_inr in H. destruct H as [n4 [w4 [S4 H]]].
  destruct (delete_step _ _ _ _ _ _ T3 S4) as [T4 [D4 [C4 _]]].
  apply bind_inr in H. destruct H as [n5 [w5 [S5 H]]].
  destruct (delete_step _ _ _ _ _ _ T4 S5) as [T5 [D5 [C5 _]]].
  apply bind_inr in H. destruct H as [n6 [w6 [S6 H]]].
  destruct (delete_step _ _ _ _ _ _ T5 S6) as [T6 [D6 [C6 _]]].
  apply bind_inr in H. destruct H as [n7 [w7 [S7 H]]].
  destruct (delete_step _ _ _ _ _ _ T6 S7) as [T7 [D7 [C7 _]]].
  apply bind_inr in H. destruct H as [n8 [w8 [S8 H]]].
  destruct (delete_step _ _ _ _ _ _ T7 S8) as [T8 [D8 [C8 _]]].
  apply bind_inr in H. destruct H as [n9 [w9 [S9 H]]].
  destruct (delete_step _ _ _ _ _ _ T8 S9) as [T9 [D9 [C9 _]]].
  inversion H; subst w'. split; [|split; [congruence|lia]].
  rewrite T9. destruct t; reflexivity.
Qed.

Lemma mergeTransaction_inr reservedUser deletedUser deletedBindings w res w' :
  mergeTransaction env reservedUser deletedUser deletedBindings w = (inr res, w') ->
  let ins := transferred env (User.UniversalId reservedUser)
               (credentials_of (User.UniversalId reservedUser)
                               (user_identity_binding (db w)))
               deletedBindings (ids w) (ticks w) in
  res = mkMergeResult (User.UniversalId reservedUser) (User.UniversalId deletedUser)
                      (List.map credential ins)
  /\ db w' = purged deletedUser
               (set_user_identity_binding (user_identity_binding (db w) ++ ins) (db w))
  /\ tx w' = None
  /\ NoDup (List.map Binding.Id ins)
  /\ (forall b, In b ins ->
        ~ In (Binding.Id b) (List.map Binding.Id (user_identity_binding (db w)))).
Proof.
  unfold mergeTransaction, deferred_close.
  match goal with |- context [let '(_, _) := ?c w in _] => destruct (c w) as [r w1] eqn:E end.
  intros H. inversion H; subst. clear H. rewrite Close_db, Close_tx.
  apply bind_inr in E. destruct E as [u [w2 [B E]]].
  apply Begin_inr in B. destruct B as [_ ->].
  apply bind_inr in E. destruct E as [m [w3 [T E]]].
  eapply transferBindings_inr in T; [|reflexivity]. simpl in T.
  destruct T as [T3 [D3 [-> [N Fr]]]].
  apply bind_inr in E. destruct E as [u' [w4 [P E]]].
  eapply purgeDeletedUser_inr in P; [|exact T3]. destruct P as [T4 [D4 _]].
  apply bind_inr in E. destruct E as [u'' [w5 [C E]]].
  eapply Commit_inr in C; [|exact T4]. destruct C as [_ ->].
  inversion E; subst. simpl. auto.
Qed.

(** What a successful merge has done. *)
Lemma MergeUsers_inr reservedUserToken deletedUserToken w res w' :
  MergeUsers env reservedUserToken deletedUserToken w = (inr res, w') ->
  exists reservedClaims deletedClaims reservedUser deletedUser,
    ParseJwtTokenByApplication env reservedUserToken = inr reservedClaims
    /\ ParseJwtTokenByApplication env deletedUserToken = inr deletedClaims
    /\ List.find (fun u => User.UniversalId u =? ClaimsUniversalId reservedClaims)
                 (user (db w)) = Some reservedUser
    /\ List.find (fun u => User.UniversalId u =? ClaimsUniversalId deletedClaims)
                 (user (db w)) = Some deletedUser
    /\ User.IsDeleted reservedUser = false
    /\ User.IsDeleted deletedUser = false
    /\ User.UniversalId reservedUser <> User.UniversalId deletedUser
    /\ let ins := transferred env (User.UniversalId reservedUser)
                    (credentials_of (User.UniversalId reservedUser)
                                    (user_identity_binding (db w)))
                    (owned_by (User.UniversalId deletedUser)
                              (user_identity_binding (db w)))
                    (ids w) (ticks w) in
       res = mkMergeResult (User.UniversalId reservedUser)
                           (User.UniversalId deletedUser) (List.map credential ins)
       /\ db w' = purged deletedUser
                    (set_user_identity_binding
                       (user_identity_binding (db w) ++ ins) (db w))
       /\ NoDup (List.map Binding.Id ins)
       /\ (forall b, In b ins ->
             ~ In (Binding.Id b) (List.map Binding.Id (user_identity_binding (db w)))).
Proof.
  unfold MergeUsers. intros H.
  apply bind_inr in H. destruct H as [rc [w1 [H1 H]]].
  apply wrap_err_inr in H1. unfold parse_token in H1. inversion H1 as [[P1 W1]].
  subst w1. clear H1.
  apply bind_inr in H. destruct H as [dc [w2 [H2 H]]].
  apply wrap_err_inr in H2. unfold parse_token in H2. inversion H2 as [[P2 W2]].
  subst w2. clear H2.
  apply bind_inr in H. destruct H as [ru [w3 [H3 H]]].
  apply wrap_err_inr in H3. apply getUserByUniversalId_inr in H3.
  destruct H3 as [reservedUser [-> [F1 [-> _]]]].
  apply bind_inr in H. destruct H as [du [w4 [H4 H]]].
  apply wrap_err_inr in H4. apply getUserByUniversalId_inr in H4.
  destruct H4 as [deletedUser [-> [F2 [-> _]]]]. simpl in F2.
  destruct (User.IsDeleted reservedUser) eqn:I1; [discriminate|].
  destruct (User.IsDeleted deletedUser) eqn:I2; [discriminate|].
  destruct (User.UniversalId reservedUser =? User.UniversalId deletedUser) eqn:Ne;
    [discriminate|].
  apply bind_inr in H. destruct H as [bs [w5 [H5 H]]].
  apply engine_query_inr in H5. destruct H5 as [-> [-> _]].
  apply mergeTransaction_inr in H. simpl in H.
  exists rc, dc, reservedUser, deletedUser.
  apply String.eqb_neq in Ne.
  repeat (split; [solve [auto]|]). simpl.
  destruct H as [R [D [_ [N Fr]]]]. auto.
Qed.

End MergeSuccess.

(** ** What the transfer inserts *)

Section Transferred.

Variable env : Env.
Variable reservedId : string.

Lemma transferred_owner deletedBindings :
  forall have nid ntick,
    Forall (fun b => Binding.UniversalId b = reservedId)
           (transferred env reservedId have deletedBindings nid ntick).
Proof.
  induction deletedBindings as [|b rest IH]; intros have nid ntick; simpl.
  - constructor.
  - destruct (existsb _ _); [apply IH|]. constructor; [reflexivity|apply IH].
Qed.

(** A credential is transferred exactly when the deleted identity holds
    it and the reserved identity does not. *)
Lemma transferred_credentials deletedBindings :
  forall have nid ntick c,
    In c (List.map credential (transferred env reservedId have deletedBindings nid ntick))
    <-> In c (List.map credential deletedBindings) /\ ~ In c have.
Proof.
  induction deletedBindings as [|b rest IH]; intros have nid ntick c; simpl.
  - tauto.
  - destruct (existsb (AuthMethod_eqb (credential b)) have) eqn:E.
    + apply existsb_AuthMethod in E. rewrite IH. split.
      * intros [H1 H2]. auto.
      * intros [[H1|H1] H2]; [subst; contradiction|auto].
    + assert (Hb : ~ In (credential b) have).
      { intros H. apply existsb_AuthMethod in H. congruence. }
      simpl. rewrite IH. unfold credential at 1. simpl.
      change (mkAuthMethod (Binding.AuthType b) (Binding.AuthValue b)) with (credential b).
      split.
      * intros [H|[H1 H2]]; [subst; auto|].
        split; [auto|]. intros H. apply H2. apply in_or_app. auto.
      * intros [[H|H] H2]; [auto|].
        destruct (AuthMethod_eq_dec (credential b) c) as [->|Hne]; [auto|].
        right. split; [exact H|]. intros H3. apply in_app_or in H3.
        destruct H3 as [H3|[H3|[]]]; contradiction.
Qed.



End Transferred.

Lemma owned_by_other uid other (l : list UserIdentityBinding) :
  uid <> other ->
  owned_by uid (List.filter (fun b => negb (Binding.UniversalId b =? other)) l)
  = owned_by uid l.
Proof.
  intros Hne. unfold owned_by. induction l as [|b l IH]; simpl; [reflexivity|].
  destruct (Binding.UniversalId b =? other) eqn:E1; simpl.
  - apply String.eqb_eq in E1.
    destruct (Binding.UniversalId b =? uid) eqn:E2; [|exact IH].
    apply String.eqb_eq in E2. congruence.
  - destruct (Binding.UniversalId b =? uid); [f_equal|]; exact IH.
Qed.

Lemma owned_by_all uid (l : list UserIdentityBinding) :
  Forall (fun b => Binding.UniversalId b = uid) l -> owned_by uid l = l.
Proof.
  unfold owned_by. induction 1 as [|b l Hb Hl IH]; simpl; [reflexivity|].
  rewrite Hb, String.eqb_refl, IH. reflexivity.
Qed.

Lemma owned_by_purged uid (l : list UserIdentityBinding) :
  owned_by uid (List.filter (fun b => negb (Binding.UniversalId b =? uid)) l) = [].
Proof.
  unfold owned_by. induction l as [|b l IH]; simpl; [reflexivity|].
  destruct (Binding.UniversalId b =? uid) eqn:E; simpl; [exact IH|].
  rewrite E. exact IH.
Qed.

Lemma filter_keeps_all {R} (p : R -> bool) (l : list R) :
  Forall (fun r => p r = true) l -> List.filter p l = l.
Proof.
  induction 1 as [|r l Hr Hl IH]; simpl; [reflexivity|]. rewrite Hr, IH. reflexivity.
Qed.

(** ** Merge: credentials of the surviving identity *)

Section MergeCredentials.

Variable env : Env.


End MergeCredentials.

(** ** Merge: it does succeed *)

Section MergeSucceeds.

Variable env : Env.

Lemma succeeds_ret {A} (a : A) : succeeds env (ret a).
Proof. intros w I F. exists a, w. auto. Qed.

Lemma succeeds_bind {A B} (c : M A) (k : A -> M B) :
  succeeds env c -> (forall a, succeeds env (k a)) -> succeeds env (bind c k).
Proof.
  intros Hc Hk w I F. destruct (Hc w I F) as [a [w1 [E [I1 L1]]]].
  assert (F1 : never_fails_from env (calls w1)).
  { intros i Hi. apply F. lia. }
  destruct (Hk a w1 I1 F1) as [b [w2 [E2 [I2 L2]]]].
  exists b, w2. rewrite (bind_step _ _ _ _ _ E). split; [exact E2|]. split; [exact I2|lia].
Qed.

Lemma succeeds_delete {R} (T : Table R) (cond : R -> bool) :
  succeeds env (or_rollback (session_exec env (delete_where T cond))).
Proof.
  intros w I F. unfold in_transaction in I.
  destruct (tx w) as [t|] eqn:Tx; [|congruence].
  eexists. eexists. split.
  - apply or_rollback_step. eapply session_exec_ok; [exact Tx| |reflexivity].
    apply F. lia.
  - split; [unfold in_transaction; simpl; discriminate|simpl; lia].
Qed.

Lemma succeeds_purgeDeletedUser deletedUser : succeeds env (purgeDeletedUser env deletedUser).
Proof.
  unfold purgeDeletedUser.
  repeat (apply succeeds_bind; [apply succeeds_delete|intros _]).
  apply succeeds_ret.
Qed.

Lemma fresh_ids_next k (l : list UserIdentityBinding) b :
  fresh_ids_from env k l -> Binding.Id b = GenerateId env k ->
  fresh_ids_from env (S k) (l ++ [b]).
Proof.
  intros [H1 H2] Hb. split.
  - intros i Hi Hin. rewrite List.map_app in Hin. apply in_app_or in Hin.
    destruct Hin as [Hin|[Hin|[]]].
    + apply (H1 i); [lia|exact Hin].
    + rewrite Hb in Hin. apply (H2 k i); [lia|lia|exact Hin].
  - intros i j Hi Hj. apply H2; lia.
Qed.

Lemma transferBindings_ok reservedId deletedBindings :
  forall merged w t,
    tx w = Some t -> never_fails_from env (calls w) ->
    fresh_ids_from env (ids w) (user_identity_binding t) ->
    exists merged' w',
      transferBindings env reservedId deletedBindings merged w = (inr merged', w')
      /\ (calls w <= calls w')%nat.
Proof.
  induction deletedBindings as [|b rest IH]; intros merged w t T F Fr; simpl.
  - exists merged, w. auto.
  - assert (F0 : storage_fault env (calls w) = None) by (apply F; lia).
    rewrite (bind_step _ _ _ _ _
               (or_rollback_step _ _ _ _ (checkAuthMethodExists_ok env _ _ _ w t T F0))).
    assert (F1 : never_fails_from env (calls (counted w))).
    { intros i Hi. apply F. simpl in Hi. lia. }
    destruct (existsb _ _); simpl.
    + destruct (IH merged (counted w) t T F1 Fr) as [m' [w' [E L]]].
      exists m', w'. split; [exact E|]. simpl in L. lia.
    + unfold util_GenerateId, util_GetCurrentTime. unfold bind at 1. unfold bind at 1.
      simpl.
      set (nb := Binding.mk (GenerateId env (ids w)) reservedId (Binding.AuthType b)
                            (Binding.AuthValue b) (GetCurrentTime env (ticks w))).
      set (w2 := mkWorld (db w) (tx w) (S (calls w)) (S (ids w)) (S (ticks w))
                         (unresolved w)).
      assert (T2 : tx w2 = Some t) by exact T.
      assert (F2 : storage_fault env (calls w2) = None) by (apply F; simpl; lia).
      assert (I : insert_binding env nb t
                  = inr (1%nat, set_user_identity_binding
                                  (user_identity_binding t ++ [nb]) t)).
      { apply insert_binding_ok. destruct Fr as [Fr _]. apply Fr. simpl. lia. }
      rewrite (bind_step _ _ _ _ _
                 (or_rollback_step _ _ _ _ (session_exec_ok env _ w2 t _ _ T2 F2 I))).
      match goal with
      | |- context [transferBindings env reservedId rest ?m ?w3] =>
          destruct (IH m w3 (set_user_identity_binding (user_identity_binding t ++ [nb]) t))
            as [m' [w' [E L]]]
      end.
      * reflexivity.
      * intros i Hi. apply F. simpl in Hi. lia.
      * simpl. apply fresh_ids_next; [exact Fr|reflexivity].
      * exists m', w'. split; [exact E|]. simpl in L. lia.
Qed.

(** With both tokens valid, both accounts stored and not flagged, two
    distinct identities, a storage layer that answers and an id
    generator that does not repeat a key, the merge returns a result,
    whatever the tables of dependent records hold. *)
Lemma MergeUsers_succeeds reservedUserToken deletedUserToken w
      reservedClaims deletedClaims reservedUser deletedUser :
  ParseJwtTokenByApplication env reservedUserToken = inr reservedClaims ->
  ParseJwtTokenByApplication env deletedUserToken = inr deletedClaims ->
  List.find (fun u => User.UniversalId u =? ClaimsUniversalId reservedClaims)
            (user (db w)) = Some reservedUser ->
  List.find (fun u => User.UniversalId u =? ClaimsUniversalId deletedClaims)
            (user (db w)) = Some deletedUser ->
  User.IsDeleted reservedUser = false ->
  User.IsDeleted deletedUser = false ->
  User.UniversalId reservedUser <> User.UniversalId deletedUser ->
  never_fails_from env (calls w) ->
  fresh_ids_from env (ids w) (user_identity_binding (db w)) ->
  exists res w', MergeUsers env reservedUserToken deletedUserToken w = (inr res, w').
Proof.
  intros P1 P2 U1 U2 I1 I2 Hne F Fr.
  unfold MergeUsers, parse_token, wrap_err. unfold bind at 1. rewrite P1.
  unfold bind at 1. rewrite P2.
  assert (F0 : storage_fault env (calls w) = None) by (apply F; lia).
  unfold bind at 1. rewrite (getUserByUniversalId_ok env _ w _ F0 U1).
  assert (F1 : storage_fault env (calls (counted w)) = None) by (apply F; simpl; lia).
  unfold bind at 1. rewrite (getUserByUniversalId_ok env _ (counted w) _ F1 U2).
  rewrite I1, I2, (eqb_neq_false _ _ Hne).
  assert (F2 : storage_fault env (calls (counted (counted w))) = None)
    by (apply F; simpl; lia).
  unfold GetUserIdentityBindingsByUniversalId.
  rewrite (bind_step _ _ _ _ _ (engine_query_ok env _ _ F2)).
  set (w3 := counted (counted (counted w))).
  unfold mergeTransaction, deferred_close.
  assert (F3 : storage_fault env (calls w3) = None) by (apply F; simpl; lia).
  assert (B : Begin env w3 = (inr tt, set_tx (Some (db w3)) (counted w3))).
  { unfold Begin, bind. rewrite (storage_call_ok env w3 F3). reflexivity. }
  rewrite (bind_step _ _ _ _ _ B).
  set (w4 := set_tx (Some (db w3)) (counted w3)).
  destruct (transferBindings_ok (User.UniversalId reservedUser)
              (List.filter (fun b => Binding.UniversalId b =? User.UniversalId deletedUser)
                           (user_identity_binding (db (counted (counted w)))))
              [] w4 (db w3) eq_refl) as [m [w5 [T L5]]].
  { intros i Hi. apply F. simpl in Hi. lia. }
  { exact Fr. }
  rewrite (bind_step _ _ _ _ _ T).
  assert (I5 : in_transaction w5).
  { eapply transactional_transferBindings in T.
    - destruct T as [_ [_ T]]. apply (T m eq_refl).
    - unfold in_transaction. simpl. discriminate. }
  assert (F5 : never_fails_from env (calls w5)).
  { intros i Hi. apply F. simpl in L5. lia. }
  destruct (succeeds_purgeDeletedUser deletedUser w5 I5 F5) as [u [w6 [P [I6 L6]]]].
  rewrite (bind_step _ _ _ _ _ P).
  assert (F6 : storage_fault env (calls w6) = None).
  { apply F. simpl in L5. lia. }
  unfold in_transaction in I6. destruct (tx w6) as [t6|] eqn:T6; [|congruence].
  unfold bind at 1. unfold Commit. rewrite T6. unfold storage_call. simpl.
  rewrite F6. eauto.
Qed.

End MergeSucceeds.

(** ** Merge: what is purged *)

Lemma user_matches_refl (u : User.t) : user_matches u u = true.
Proof.
  unfold user_matches. apply andb_true_iff. split.
  - apply forallb_forall. intros col _.
    rewrite String.eqb_refl. apply orb_true_r.
  - unfold properties_match. destruct (User.Properties u) as [props|]; [|reflexivity].
    destruct (bool_decide (props = ∅)); [reflexivity|].
    apply bool_decide_eq_true_2. reflexivity.
Qed.

Lemma not_in_filter_negb {R} (p : R -> bool) (l : list R) (r : R) :
  In r (List.filter (fun x => negb (p x)) l) -> p r = false.
Proof.
  intros H. apply List.filter_In in H. destruct H as [_ H].
  apply negb_true_iff in H. exact H.
Qed.

Section MergePurge.

Variable env : Env.

(** C8.  After a successful merge the deleted identity owns no binding;
    the tokens, sessions, verification records, resources, payments,
    transactions and subscriptions that refer to the deleted account,
    and the row of the account, are gone.  A purge that matches no row
    is no error: with the preconditions met, a storage layer that
    answers and ids that are free, the merge succeeds whatever the
    tables of dependent records hold. *)
Theorem merge_purges_deleted_account :
  (forall reservedUserToken deletedUserToken w res w',
     MergeUsers env reservedUserToken deletedUserToken w = (inr res, w') ->
     exists deletedUser,
       In deletedUser (user (db w))
       /\ User.UniversalId deletedUser = deleted_user_id res
       /\ owned_by (deleted_user_id res) (user_identity_binding (db w')) = []
       /\ (forall b, In b (user_identity_binding (db w')) ->
             Binding.UniversalId b <> deleted_user_id res)
       /\ ~ In deletedUser (user (db w'))
       /\ (forall r, In r (token (db w')) -> row_user r <> User.Name deletedUser)
       /\ (forall r, In r (session (db w')) ->
             ~ (row_owner r = User.Owner deletedUser /\ row_name r = User.Name deletedUser))
       /\ (forall r, In r (verification_record (db w')) ->
             row_user r <> User.GetId deletedUser)
       /\ (forall r, In r (resource (db w')) -> row_user r <> User.Name deletedUser)
       /\ (forall r, In r (payment (db w')) -> row_user r <> User.Name deletedUser)
       /\ (forall r, In r (transaction (db w')) -> row_user r <> User.Name deletedUser)
       /\ (forall r, In r (subscription (db w')) -> row_user r <> User.Name deletedUser))
  /\
  (forall reservedUserToken deletedUserToken w
          reservedClaims deletedClaims reservedUser deletedUser,
     ParseJwtTokenByApplication env reservedUserToken = inr reservedClaims ->
     ParseJwtTokenByApplication env deletedUserToken = inr deletedClaims ->
     List.find (fun u => User.UniversalId u =? ClaimsUniversalId reservedClaims)
               (user (db w)) = Some reservedUser ->
     List.find (fun u => User.UniversalId u =? ClaimsUniversalId deletedClaims)
               (user (db w)) = Some deletedUser ->
     User.IsDeleted reservedUser = false ->
     User.IsDeleted deletedUser = false ->
     User.UniversalId reservedUser <> User.UniversalId deletedUser ->
     never_fails_from env (calls w) ->
     fresh_ids_from env (ids w) (user_identity_binding (db w)) ->
     exists res w', MergeUsers env reservedUserToken deletedUserToken w = (inr res, w')).
Proof.
  split; [|apply MergeUsers_succeeds].
  intros rTok dTok w res w' H. apply MergeUsers_inr in H.
  destruct H as [rc [dc [ru [du [_ [_ [_ [Hdu [_ [_ [Hne H]]]]]]]]]]].
  cbv zeta in H. destruct H as [-> [Hdb _]]. simpl.
  apply List.find_some in Hdu. destruct Hdu as [Hin _].
  exists du. rewrite Hdb. simpl.
  split; [exact Hin|]. split; [reflexivity|].
  split; [apply owned_by_purged|].
  split.
  { intros b Hb Hu. apply not_in_filter_negb in Hb. apply String.eqb_neq in Hb.
    contradiction. }
  split.
  { intros Hu. apply not_in_filter_negb in Hu. rewrite user_matches_refl in Hu.
    discriminate. }
  split.
  { intros r Hr Hu. apply not_in_filter_negb in Hr. apply String.eqb_neq in Hr.
    contradiction. }
  split.
  { intros r Hr [Ho Hn]. apply not_in_filter_negb in Hr.
    rewrite Ho, Hn, !String.eqb_refl in Hr. discriminate. }
  split.
  { intros r Hr Hu. apply not_in_filter_negb in Hr. apply String.eqb_neq in Hr.
    contradiction. }
  repeat split; intros r Hr Hu; apply not_in_filter_negb in Hr;
    apply String.eqb_neq in Hr; contradiction.
Qed.

End MergePurge.

(** ** Merge: atomicity and the order of the preconditions *)

Section MergeAtomic.

Variable env : Env.

Lemma mergeTransaction_closed reservedUser deletedUser deletedBindings w r w' :
  mergeTransaction env reservedUser deletedUser deletedBindings w = (r, w') ->
  tx w' = None.
Proof.
  unfold mergeTransaction, deferred_close.
  match goal with |- context [let '(_, _) := ?c w in _] => destruct (c w) as [r1 w1] end.
  intros H. inversion H. apply Close_tx.
Qed.

(** The two ways in which the transaction of a merge fails.  Up to the
    deletion of the account every failing step has called [Rollback];
    when [Commit] fails nothing is rolled back, and what stays behind is
    the working copy with the whole merge in it. *)
Lemma mergeTransaction_failed reservedUser deletedUser deletedBindings w e w' :
  mergeTransaction env reservedUser deletedUser deletedBindings w = (inl e, w') ->
  let ins := transferred env (User.UniversalId reservedUser)
               (credentials_of (User.UniversalId reservedUser)
                               (user_identity_binding (db w)))
               deletedBindings (ids w) (ticks w) in
  unresolved w' = unresolved w
  \/ (unresolved w'
      = Some (purged deletedUser
                (set_user_identity_binding (user_identity_binding (db w) ++ ins) (db w)))
      /\ storage_fault env (Nat.pred (calls w')) = Some e).
Proof.
  unfold mergeTransaction, deferred_close.
  match goal with |- context [let '(_, _) := ?c w in _] => destruct (c w) as [r w1] eqn:E end.
  intros H. inversion H; subst. clear H. rewrite Close_unresolved, Close_calls.
  apply bind_inl in E. destruct E as [E|[u [w2 [B E]]]].
  { left. apply Begin_inl in E. tauto. }
  apply Begin_inr in B. destruct B as [_ ->].
  assert (Hin : in_transaction (set_tx (Some (db w)) (counted w)))
    by (unfold in_transaction; simpl; discriminate).
  apply bind_inl in E. destruct E as [E|[m [w3 [T E]]]].
  { left. eapply transactional_transferBindings in E; [|exact Hin]. destruct E as [_ [U _]].
    exact U. }
  destruct (transactional_transferBindings env _ _ _ _ _ _ Hin T) as [_ [U3 I3]].
  specialize (I3 _ eq_refl).
  eapply transferBindings_inr in T; [|reflexivity]. simpl in T.
  destruct T as [T3 _].
  apply bind_inl in E. destruct E as [E|[u' [w4 [P E]]]].
  { left. eapply transactional_purgeDeletedUser in E; [|exact I3]. destruct E as [_ [U _]].
    simpl in U3. congruence. }
  eapply purgeDeletedUser_inr in P; [|exact T3]. destruct P as [T4 _].
  apply bind_inl in E. destruct E as [E|[u'' [w5 [C E]]]]; [|discriminate].
  right. apply Commit_inl in E. destruct E as [working [T4' [F ->]]]. simpl.
  split; [|exact F]. congruence.
Qed.

(** C2.  A merge that fails returns the error and leaves the committed
    store as it was.  A failure before the transaction (a precondition,
    the reading of the bindings, [Begin]) has written nothing; a failure
    of a step inside the transaction (transfer, deletion of the bindings,
    a purge, deletion of the account) has rolled back what was written.
    The one remaining failure is that of [Commit] itself: the code
    returns its error without a rollback, the store is still as before,
    and the working copy holding the whole merge stays behind, neither
    committed nor rolled back.  The preconditions are met in this order,
    each before any write: the reserved token, the deleted token, the
    reserved account, the account to delete, the deletion flag of the one
    then of the other, and the two universal identities being distinct;
    merging an account with itself stops at the last one. *)
Theorem merge_failure_leaves_store :
  (forall reservedUserToken deletedUserToken w e w',
     MergeUsers env reservedUserToken deletedUserToken w = (inl e, w') ->
     db w' = db w
     /\ ((tx w' = tx w /\ unresolved w' = unresolved w)
         \/ (tx w' = None /\ unresolved w' = unresolved w)
         \/ (tx w' = None
             /\ exists reservedUser deletedUser,
                  unresolved w'
                  = Some (purged deletedUser
                            (set_user_identity_binding
                               (user_identity_binding (db w)
                                ++ transferred env (User.UniversalId reservedUser)
                                     (credentials_of (User.UniversalId reservedUser)
                                                     (user_identity_binding (db w)))
                                     (owned_by (User.UniversalId deletedUser)
                                               (user_identity_binding (db w)))
                                     (ids w) (ticks w))
                               (db w)))
                  /\ storage_fault env (Nat.pred (calls w')) = Some e)))
  /\ (forall reservedUserToken deletedUserToken w err,
        ParseJwtTokenByApplication env reservedUserToken = inl err ->
        MergeUsers env reservedUserToken deletedUserToken w
        = (inl ("invalid reserved user token: " +:+ err), w))
  /\ (forall reservedUserToken deletedUserToken w reservedClaims err,
        ParseJwtTokenByApplication env reservedUserToken = inr reservedClaims ->
        ParseJwtTokenByApplication env deletedUserToken = inl err ->
        MergeUsers env reservedUserToken deletedUserToken w
        = (inl ("invalid deleted user token: " +:+ err), w))
  /\ (forall reservedUserToken deletedUserToken w reservedClaims deletedClaims,
        ParseJwtTokenByApplication env reservedUserToken = inr reservedClaims ->
        ParseJwtTokenByApplication env deletedUserToken = inr deletedClaims ->
        reliable env (calls w) 2 ->
        let reserved := List.find (fun u => User.UniversalId u
                                            =? ClaimsUniversalId reservedClaims)
                                  (user (db w)) in
        let deleted := List.find (fun u => User.UniversalId u
                                           =? ClaimsUniversalId deletedClaims)
                                 (user (db w)) in
        (reserved = None ->
         MergeUsers env reservedUserToken deletedUserToken w
         = (inl ("Reserved account does not exist (UniversalId: "
                 +:+ ClaimsUniversalId reservedClaims +:+ "): "
                 +:+ "user not found for universal_id: "
                 +:+ ClaimsUniversalId reservedClaims), counted w))
        /\ (forall reservedUser, reserved = Some reservedUser -> deleted = None ->
            MergeUsers env reservedUserToken deletedUserToken w
            = (inl ("Account to be deleted does not exist (UniversalId: "
                    +:+ ClaimsUniversalId deletedClaims +:+ "): "
                    +:+ "user not found for universal_id: "
                    +:+ ClaimsUniversalId deletedClaims), counted (counted w)))
        /\ (forall reservedUser deletedUser,
              reserved = Some reservedUser -> deleted = Some deletedUser ->
              (User.IsDeleted reservedUser = true ->
               MergeUsers env reservedUserToken deletedUserToken w
               = (inl ("Reserved account has been deleted and cannot be merged (User: "
                       +:+ User.GetId reservedUser +:+ ")"), counted (counted w)))
              /\ (User.IsDeleted reservedUser = false ->
                  User.IsDeleted deletedUser = true ->
                  MergeUsers env reservedUserToken deletedUserToken w
                  = (inl ("Account to be deleted has been deleted and cannot be merged (User: "
                          +:+ User.GetId deletedUser +:+ ")"), counted (counted w)))
              /\ (User.IsDeleted reservedUser = false ->
                  User.IsDeleted deletedUser = false ->
                  User.UniversalId reservedUser = User.UniversalId deletedUser ->
                  MergeUsers env reservedUserToken deletedUserToken w
                  = (inl "cannot merge the same user", counted (counted w)))))
  /\ (forall token w claims account,
        ParseJwtTokenByApplication env token = inr claims ->
        reliable env (calls w) 2 ->
        List.find (fun u => User.UniversalId u =? ClaimsUniversalId claims)
                  (user (db w)) = Some account ->
        User.IsDeleted account = false ->
        MergeUsers env token token w
        = (inl "cannot merge the same user", counted (counted w))).
Proof.
  assert (Order : forall reservedUserToken deletedUserToken w reservedClaims deletedClaims
                         reservedUser deletedUser,
             ParseJwtTokenByApplication env reservedUserToken = inr reservedClaims ->
             ParseJwtTokenByApplication env deletedUserToken = inr deletedClaims ->
             reliable env (calls w) 2 ->
             List.find (fun u => User.UniversalId u =? ClaimsUniversalId reservedClaims)
                       (user (db w)) = Some reservedUser ->
             List.find (fun u => User.UniversalId u =? ClaimsUniversalId deletedClaims)
                       (user (db w)) = Some deletedUser ->
             MergeUsers env reservedUserToken deletedUserToken w
             = (if User.IsDeleted reservedUser then
                  fail ("Reserved account has been deleted and cannot be merged (User: "
                        +:+ User.GetId reservedUser +:+ ")")
                else if User.IsDeleted deletedUser then
                  fail ("Account to be deleted has been deleted and cannot be merged (User: "
                        +:+ User.GetId deletedUser +:+ ")")
                else if User.UniversalId reservedUser =? User.UniversalId deletedUser then
                  fail "cannot merge the same user"
                else
                  let* deletedBindings :=
                    GetUserIdentityBindingsByUniversalId env (User.UniversalId deletedUser) in
                  mergeTransaction env reservedUser deletedUser deletedBindings)
               (counted (counted w))).
  { intros rTok dTok w rc dc ru du P1 P2 Rel U1 U2.
    assert (F0 : storage_fault env (calls w) = None).
    { specialize (Rel 0%nat). rewrite Nat.add_0_r in Rel. apply Rel. lia. }
    assert (F1 : storage_fault env (calls (counted w)) = None).
    { specialize (Rel 1%nat). simpl. rewrite Nat.add_1_r in Rel. apply Rel. lia. }
    unfold MergeUsers, parse_token, wrap_err. unfold bind at 1. rewrite P1.
    unfold bind at 1. rewrite P2.
    unfold bind at 1. rewrite (getUserByUniversalId_ok env _ w _ F0 U1).
    unfold bind at 1. rewrite (getUserByUniversalId_ok env _ (counted w) _ F1 U2).
    reflexivity. }
  split.
  { intros rTok dTok w e w' H. split; [eapply MergeUsers_inl; exact H|].
    unfold MergeUsers in H.
    apply bind_inl in H. destruct H as [H|[rc [w1 [H1 H]]]].
    { left. eapply read_only_wrap_err in H; [tauto|apply read_only_parse_token]. }
    apply wrap_err_inr in H1. unfold parse_token in H1. inversion H1 as [[P1 W1]].
    subst w1. clear H1.
    apply bind_inl in H. destruct H as [H|[dc [w2 [H2 H]]]].
    { left. eapply read_only_wrap_err in H; [tauto|apply read_only_parse_token]. }
    apply wrap_err_inr in H2. unfold parse_token in H2. inversion H2 as [[P2 W2]].
    subst w2. clear H2.
    apply bind_inl in H. destruct H as [H|[ru [w3 [H3 H]]]].
    { left. eapply read_only_wrap_err in H; [tauto|apply read_only_getUserByUniversalId]. }
    apply wrap_err_inr in H3. apply getUserByUniversalId_inr in H3.
    destruct H3 as [reservedUser [-> [F1 [-> _]]]].
    apply bind_inl in H. destruct H as [H|[du [w4 [H4 H]]]].
    { left. eapply read_only_wrap_err in H; [|apply read_only_getUserByUniversalId].
      simpl in H. tauto. }
    apply wrap_err_inr in H4. apply getUserByUniversalId_inr in H4.
    destruct H4 as [deletedUser [-> [F2 [-> _]]]]. simpl in F2.
    destruct (User.IsDeleted reservedUser); [inversion H; subst; left; auto|].
    destruct (User.IsDeleted deletedUser); [inversion H; subst; left; auto|].
    destruct (User.UniversalId reservedUser =? User.UniversalId deletedUser);
      [inversion H; subst; left; auto|].
    apply bind_inl in H. destruct H as [H|[bs [w5 [H5 H]]]].
    { left. apply read_only_engine_query in H. simpl in H. tauto. }
    apply engine_query_inr in H5. destruct H5 as [-> [-> _]].
    right. pose proof (mergeTransaction_closed _ _ _ _ _ _ H) as Tx.
    apply mergeTransaction_failed in H. simpl in H.
    destruct H as [U|[U F]].
    - left. auto.
    - right. split; [exact Tx|]. exists reservedUser, deletedUser. auto. }
  split.
  { intros rTok dTok w err P1. unfold MergeUsers, parse_token, wrap_err.
    unfold bind at 1. rewrite P1. reflexivity. }
  split.
  { intros rTok dTok w rc err P1 P2. unfold MergeUsers, parse_token, wrap_err.
    unfold bind at 1. rewrite P1. unfold bind at 1. rewrite P2. reflexivity. }
  split.
  { intros rTok dTok w rc dc P1 P2 Rel reserved deleted.
    assert (F0 : storage_fault env (calls w) = None).
    { specialize (Rel 0%nat). rewrite Nat.add_0_r in Rel. apply Rel. lia. }
    assert (F1 : storage_fault env (calls (counted w)) = None).
    { specialize (Rel 1%nat). simpl. rewrite Nat.add_1_r in Rel. apply Rel. lia. }
    split.
    { intros U1. unfold MergeUsers, parse_token, wrap_err. unfold bind at 1. rewrite P1.
      unfold bind at 1. rewrite P2.
      unfold bind at 1. rewrite (getUserByUniversalId_none env _ w F0 U1). reflexivity. }
    split.
    { intros ru U1 U2. unfold MergeUsers, parse_token, wrap_err. unfold bind at 1.
      rewrite P1. unfold bind at 1. rewrite P2.
      unfold bind at 1. rewrite (getUserByUniversalId_ok env _ w _ F0 U1).
      unfold bind at 1. rewrite (getUserByUniversalId_none env _ (counted w) F1 U2).
      reflexivity. }
    intros ru du U1 U2. rewrite (Order _ _ _ _ _ _ _ P1 P2 Rel U1 U2).
    split; [intros ->; reflexivity|].
    split; [intros -> ->; reflexivity|].
    intros -> -> ->. rewrite String.eqb_refl. reflexivity. }
  intros tok w c u P Rel U I.
  rewrite (Order _ _ _ _ _ _ _ P P Rel U U), I, String.eqb_refl. reflexivity.
Qed.

End MergeAtomic.

(** ** Provider resolver *)

Lemma composite_not_empty (owner name : string) : (owner +:+ "/" +:+ name =? "") = false.
Proof. destruct owner; reflexivity. Qed.

Lemma autoDetect_first_non_empty (u : User.t) :
  autoDetectProviderType u = first_non_empty u.
Proof.
  unfold autoDetectProviderType, first_non_empty, priority_order. simpl.
  destruct (User.Email u =? ""); simpl; [|reflexivity].
  destruct (User.Phone u =? ""); simpl; [|reflexivity].
  destruct (User.Password u =? ""); simpl; [|reflexivity].
  destruct (User.GitHub u =? ""); simpl; [|reflexivity].
  destruct (User.Google u =? ""); simpl; [|reflexivity].
  destruct (User.WeChat u =? ""); simpl; [|reflexivity].
  destruct (User.QQ u =? ""); simpl; [|reflexivity].
  destruct (User.Facebook u =? ""); simpl; [|reflexivity].
  destruct (User.DingTalk u =? ""); simpl; [|reflexivity].
  destruct (User.Weibo u =? ""); simpl; [|reflexivity].
  destruct (User.Ldap u =? ""); simpl; [|reflexivity].
  destruct (User.Custom u =? ""); simpl; reflexivity.
Qed.

Lemma autoDetect_empty_iff (u : User.t) :
  autoDetectProviderType u = ("", "") <-> every_field_empty u.
Proof.
  unfold every_field_empty, priority_order. split.
  - unfold autoDetectProviderType. intros H.
    destruct (User.Email u =? "") eqn:E1; simpl in H; [|discriminate].
    destruct (User.Phone u =? "") eqn:E2; simpl in H; [|discriminate].
    destruct (User.Password u =? "") eqn:E3; simpl in H; [|discriminate].
    destruct (User.GitHub u =? "") eqn:E4; simpl in H; [|discriminate].
    destruct (User.Google u =? "") eqn:E5; simpl in H; [|discriminate].
    destruct (User.WeChat u =? "") eqn:E6; simpl in H; [|discriminate].
    destruct (User.QQ u =? "") eqn:E7; simpl in H; [|discriminate].
    destruct (User.Facebook u =? "") eqn:E8; simpl in H; [|discriminate].
    destruct (User.DingTalk u =? "") eqn:E9; simpl in H; [|discriminate].
    destruct (User.Weibo u =? "") eqn:E10; simpl in H; [|discriminate].
    destruct (User.Ldap u =? "") eqn:E11; simpl in H; [|discriminate].
    destruct (User.Custom u =? "") eqn:E12; simpl in H; [|discriminate].
    repeat constructor; simpl; apply String.eqb_eq; assumption.
  - intros H.
    repeat match goal with
           | H : Forall _ (_ :: _) |- _ => inversion H; clear H; subst
           end.
    simpl in *. unfold autoDetectProviderType.
    repeat match goal with
           | H : _ = "" |- _ => rewrite H; clear H
           end.
    reflexivity.
Qed.

(** When some field is set, the detected type is one of the twelve
    lower-case names and the detected value is not empty. *)
Lemma autoDetect_non_empty (env : Env) (u : User.t) :
  autoDetectProviderType u <> ("", "") ->
  (fst (autoDetectProviderType u) =? "") = false
  /\ (snd (autoDetectProviderType u) =? "") = false
  /\ ToLower env (fst (autoDetectProviderType u)) = fst (autoDetectProviderType u).
Proof.
  unfold autoDetectProviderType.
  destruct (User.Email u =? "") eqn:E1; simpl; [|auto].
  destruct (User.Phone u =? "") eqn:E2; simpl; [|auto].
  destruct (User.Password u =? "") eqn:E3; simpl;
    [|intros _; split; [reflexivity|split; [apply composite_not_empty|reflexivity]]].
  destruct (User.GitHub u =? "") eqn:E4; simpl; [|auto].
  destruct (User.Google u =? "") eqn:E5; simpl; [|auto].
  destruct (User.WeChat u =? "") eqn:E6; simpl; [|auto].
  destruct (User.QQ u =? "") eqn:E7; simpl; [|auto].
  destruct (User.Facebook u =? "") eqn:E8; simpl; [|auto].
  destruct (User.DingTalk u =? "") eqn:E9; simpl; [|auto].
  destruct (User.Weibo u =? "") eqn:E10; simpl; [|auto].
  destruct (User.Ldap u =? "") eqn:E11; simpl; [|auto].
  destruct (User.Custom u =? "") eqn:E12; simpl; [|auto].
  intros H. contradiction.
Qed.

Section Resolver.

Variable env : Env.

(** C4.  The auto-detection of the provider resolver returns the first
    non-empty field in the order email, phone, password (reported as
    [owner/name]), github, google, wechat, qq, facebook, dingtalk, weibo,
    ldap, custom, and the empty result only when all of them are empty.
    When account creation is given a hinted type for which the account
    has no value, it registers exactly that detected credential, and it
    fails, before any storage call, only when every field is empty. *)
Theorem resolver_priority_order (u : User.t) :
  autoDetectProviderType u = first_non_empty u
  /\ (autoDetectProviderType u = ("", "") <-> every_field_empty u)
  /\ (forall w universalId hint,
        hint <> "" -> getProviderValue env u hint = "" ->
        (every_field_empty u ->
         createIdentityBindingsWithValue env u universalId hint "" w
         = (inl ("cannot get value for provider type: " +:+ hint), w))
        /\ (~ every_field_empty u ->
            storage_fault env (calls w) = None ->
            ~ In (GenerateId env (ids w))
                 (List.map Binding.Id (user_identity_binding (session_view w))) ->
            let r := createIdentityBindingsWithValue env u universalId hint "" w in
            fst r = inr tt
            /\ user_identity_binding (session_view (snd r))
               = user_identity_binding (session_view w)
                 ++ [Binding.mk (GenerateId env (ids w)) universalId
                                (fst (first_non_empty u)) (snd (first_non_empty u))
                                (GetCurrentTime env (ticks w))])).
Proof.
  split; [apply autoDetect_first_non_empty|].
  split; [apply autoDetect_empty_iff|].
  intros w uid hint Hh Hv. unfold createIdentityBindingsWithValue.
  rewrite (eqb_neq_false _ _ Hh). simpl. rewrite Hv. simpl. split.
  - intros He. apply autoDetect_empty_iff in He. rewrite He. simpl. reflexivity.
  - intros He F Fr.
    assert (Hne : autoDetectProviderType u <> ("", "")).
    { intros H. apply He. apply autoDetect_empty_iff. exact H. }
    destruct (autoDetect_non_empty env u Hne) as [N1 [N2 L]].
    rewrite <- autoDetect_first_non_empty.
    destruct (autoDetectProviderType u) as [ty v]. simpl in *.
    rewrite N1, N2. simpl. rewrite N2. rewrite L.
    unfold util_GenerateId, util_GetCurrentTime. unfold bind at 1. unfold bind at 1.
    unfold session_exec, bind. unfold storage_call. simpl. rewrite F.
    unfold session_view, session_put in *. simpl.
    destruct (tx w) as [t|] eqn:T; simpl;
      rewrite insert_binding_ok by (simpl; exact Fr); simpl; rewrite ?T; auto.
Qed.

End Resolver.

(** ** Binding manager: bind *)

Lemma reliable_0 env k n : reliable env k (S n) -> storage_fault env k = None.
Proof. intros H. rewrite <- (Nat.add_0_r k). apply H. lia. Qed.

Lemma reliable_1 env k n : reliable env k (S (S n)) -> storage_fault env (S k) = None.
Proof. intros H. rewrite <- (Nat.add_1_r k). apply H. lia. Qed.

Lemma affected_rows {R} (p : R -> bool) (l : list R) (r : R) :
  In r l -> p r = true -> (List.length (List.filter p l) =? 0)%nat = false.
Proof.
  intros Hin Hp. assert (H : In r (List.filter p l)) by (apply List.filter_In; auto).
  destruct (List.filter p l); [destruct H|reflexivity].
Qed.

Section Bind.

Variable env : Env.

Lemma engine_exec_unchanged {A} (stmt : DB -> error + (A * DB)) w e w' :
  engine_exec env stmt w = (inl e, w') -> db w' = db w.
Proof.
  unfold engine_exec. intros H. apply bind_inl in H.
  destruct H as [H|[u [w1 [H1 H]]]].
  - apply read_only_storage_call in H. tauto.
  - apply storage_call_inr in H1. destruct H1 as [_ ->].
    destruct (stmt (db (counted w))) as [e'|[a d]]; inversion H; reflexivity.
Qed.

Lemma first_with_some ty v l b :
  first_with ty v l = Some b ->
  In b l /\ Binding.AuthType b = ty /\ Binding.AuthValue b = v.
Proof.
  intros H. apply List.find_some in H. destruct H as [Hin H].
  apply andb_true_iff in H. destruct H as [H1 H2].
  apply String.eqb_eq in H1, H2. auto.
Qed.

Lemma first_with_none ty v l :
  first_with ty v l = None <->
  forall b, In b l -> ~ (Binding.AuthType b = ty /\ Binding.AuthValue b = v).
Proof.
  split.
  - intros H b Hin [H1 H2].
    pose proof (List.find_none _ _ H b Hin) as Hf. simpl in Hf.
    rewrite H1, H2, !String.eqb_refl in Hf. discriminate.
  - intros H. destruct (first_with ty v l) as [b|] eqn:E; [|reflexivity].
    apply first_with_some in E. destruct E as [Hin [H1 H2]].
    exfalso. apply (H b Hin). auto.
Qed.

Lemma bind_found_same universalId authType authValue w b :
  storage_fault env (calls w) = None ->
  first_with authType authValue (user_identity_binding (db w)) = Some b ->
  Binding.UniversalId b = universalId ->
  AddUserIdentityBindingForUser env universalId authType authValue w = (inr b, counted w).
Proof.
  intros F E U. unfold AddUserIdentityBindingForUser, GetUserIdentityBindingByAuth.
  rewrite (bind_step _ _ _ _ _ (engine_query_ok env _ w F)).
  unfold first_with in E. rewrite E, U, String.eqb_refl. reflexivity.
Qed.

Lemma bind_found_other universalId authType authValue w b :
  storage_fault env (calls w) = None ->
  first_with authType authValue (user_identity_binding (db w)) = Some b ->
  Binding.UniversalId b <> universalId ->
  AddUserIdentityBindingForUser env universalId authType authValue w
  = (inl ("this " +:+ authType +:+ " has been bound to other users"), counted w).
Proof.
  intros F E U. unfold AddUserIdentityBindingForUser, GetUserIdentityBindingByAuth.
  rewrite (bind_step _ _ _ _ _ (engine_query_ok env _ w F)).
  unfold first_with in E. rewrite E, (eqb_neq_false _ _ U). reflexivity.
Qed.

Lemma bind_new universalId authType authValue w :
  reliable env (calls w) 2 ->
  first_with authType authValue (user_identity_binding (db w)) = None ->
  ~ In (GenerateId env (ids w)) (List.map Binding.Id (user_identity_binding (db w))) ->
  let binding := Binding.mk (GenerateId env (ids w)) universalId authType authValue
                            (GetCurrentTime env (ticks w)) in
  AddUserIdentityBindingForUser env universalId authType authValue w
  = (inr binding,
     mkWorld (set_user_identity_binding (user_identity_binding (db w) ++ [binding]) (db w))
             (tx w) (S (S (calls w))) (S (ids w)) (S (ticks w)) (unresolved w)).
Proof.
  intros Rel E Fr binding.
  pose proof (reliable_0 _ _ _ Rel) as F0. pose proof (reliable_1 _ _ _ Rel) as F1.
  unfold AddUserIdentityBindingForUser, GetUserIdentityBindingByAuth.
  rewrite (bind_step _ _ _ _ _ (engine_query_ok env _ w F0)).
  unfold first_with in E. rewrite E.
  unfold util_GenerateId, util_GetCurrentTime. unfold bind at 1. unfold bind at 1.
  simpl. fold binding.
  unfold AddUserIdentityBinding, engine_exec, bind, storage_call. simpl.
  rewrite F1. simpl. rewrite insert_binding_ok by (simpl; exact Fr). reflexivity.
Qed.

(** A bind that fails has written nothing. *)
Lemma bind_failure_unchanged universalId authType authValue w e w' :
  AddUserIdentityBindingForUser env universalId authType authValue w = (inl e, w') ->
  db w' = db w.
Proof.
  unfold AddUserIdentityBindingForUser. intros H.
  apply bind_inl in H. destruct H as [H|[found [w1 [H1 H]]]].
  { apply read_only_engine_query in H. tauto. }
  apply read_only_engine_query in H1. destruct H1 as [D1 _].
  destruct found as [b|].
  { destruct (Binding.UniversalId b =? universalId); inversion H; subst; exact D1. }
  apply bind_inl in H. destruct H as [H|[id [w2 [H2 H]]]]; [discriminate|].
  inversion H2; subst id w2. clear H2.
  apply bind_inl in H. destruct H as [H|[now [w3 [H3 H]]]]; [discriminate|].
  inversion H3; subst now w3. clear H3.
  apply bind_inl in H. destruct H as [H|[ok [w4 [H4 H]]]].
  { unfold AddUserIdentityBinding in H. apply bind_inl in H.
    destruct H as [H|[n [w5 [H5 H]]]]; [|discriminate].
    apply engine_exec_unchanged in H. simpl in H. congruence. }
  unfold AddUserIdentityBinding in H4. apply bind_inr in H4.
  destruct H4 as [n [w5 [H5 H6]]]. inversion H6; subst ok w5. clear H6.
  unfold engine_exec in H5. apply bind_inr in H5. destruct H5 as [u [w6 [H7 H8]]].
  apply storage_call_inr in H7. destruct H7 as [_ ->]. simpl in H8.
  destruct (insert_binding env _ (db w1)) as [e'|[n' d]] eqn:I; [discriminate|].
  apply insert_binding_inr in I. destruct I as [_ [-> _]].
  inversion H8; subst. simpl in H. discriminate.
Qed.

(** C5, as amended.  On a store that satisfies credential uniqueness,
    with a storage layer that answers the two calls of a bind and a
    generated id that is free: a credential already bound to the same
    identity is returned as it is stored, the store unchanged; a
    credential bound to another identity makes the bind fail, the store
    unchanged; otherwise exactly one binding is appended, with the
    generated id and the current time, and returned. *)
Theorem bind_cases universalId authType authValue w :
  credential_unique (user_identity_binding (db w)) ->
  reliable env (calls w) 2 ->
  ~ In (GenerateId env (ids w)) (List.map Binding.Id (user_identity_binding (db w))) ->
  let r := AddUserIdentityBindingForUser env universalId authType authValue w in
  let l := user_identity_binding (db w) in
  (forall b, In b l -> Binding.AuthType b = authType -> Binding.AuthValue b = authValue ->
             Binding.UniversalId b = universalId ->
             exists b', fst r = inr b' /\ In b' l
                        /\ Binding.AuthType b' = authType
                        /\ Binding.AuthValue b' = authValue
                        /\ Binding.UniversalId b' = universalId
                        /\ db (snd r) = db w)
  /\ (forall b, In b l -> Binding.AuthType b = authType -> Binding.AuthValue b = authValue ->
                Binding.UniversalId b <> universalId ->
                fst r = inl ("this " +:+ authType +:+ " has been bound to other users")
                /\ db (snd r) = db w)
  /\ ((forall b, In b l ->
                 ~ (Binding.AuthType b = authType /\ Binding.AuthValue b = authValue)) ->
      let binding := Binding.mk (GenerateId env (ids w)) universalId authType authValue
                                (GetCurrentTime env (ticks w)) in
      fst r = inr binding
      /\ db (snd r) = set_user_identity_binding (l ++ [binding]) (db w)).
Proof.
  intros Uq Rel Fr r l. pose proof (reliable_0 _ _ _ Rel) as F0.
  assert (Found : forall b, In b l -> Binding.AuthType b = authType ->
                            Binding.AuthValue b = authValue ->
                            exists b', first_with authType authValue l = Some b'
                                       /\ Binding.UniversalId b' = Binding.UniversalId b).
  { intros b Hin H1 H2. destruct (first_with authType authValue l) as [b'|] eqn:E.
    - exists b'. split; [reflexivity|]. apply first_with_some in E.
      destruct E as [Hin' [H1' H2']]. apply Uq; auto; congruence.
    - exfalso. apply (proj1 (first_with_none _ _ _) E b Hin). auto. }
  split.
  { intros b Hin H1 H2 HU. destruct (Found b Hin H1 H2) as [b' [E U']].
    exists b'. subst r. rewrite (bind_found_same _ _ _ _ _ F0 E) by congruence.
    apply first_with_some in E. destruct E as [Hin' [H1' H2']]. simpl.
    repeat split; auto. congruence. }
  split.
  { intros b Hin H1 H2 HU. destruct (Found b Hin H1 H2) as [b' [E U']].
    subst r. rewrite (bind_found_other _ _ _ _ _ F0 E) by congruence. simpl. auto. }
  intros Hnone binding. subst r.
  apply first_with_none in Hnone.
  rewrite (bind_new _ _ _ _ Rel Hnone Fr). simpl. auto.
Qed.

End Bind.

(** ** Binding manager: unbind *)

(** The storage layer keeps the primary key unique. *)
Lemma insert_keeps_keys (env : Env) (b : UserIdentityBinding) (d : DB) n d' :
  primary_key_unique (user_identity_binding d) ->
  insert_binding env b d = inr (n, d') ->
  primary_key_unique (user_identity_binding d').
Proof.
  unfold primary_key_unique, insert_binding. intros Pk.
  destruct (existsb _ _) eqn:E; intros H; [discriminate|].
  inversion H; subst. simpl. rewrite List.map_app. simpl.
  apply List.NoDup_app; [exact Pk|repeat constructor; simpl; tauto|].
  intros k Hk [<-|[]]. apply in_map_iff in Hk. destruct Hk as [r [Hr Hin]].
  assert (X : existsb (fun r => Binding.Id r =? Binding.Id b) (user_identity_binding d) = true).
  { apply existsb_exists. exists r. split; [exact Hin|]. apply String.eqb_eq. exact Hr. }
  congruence.
Qed.

Lemma delete_keeps_keys (cond : UserIdentityBinding -> bool) (d : DB) n d' :
  primary_key_unique (user_identity_binding d) ->
  delete_where UserIdentityBindingT cond d = inr (n, d') ->
  primary_key_unique (user_identity_binding d').
Proof.
  unfold primary_key_unique, delete_where. intros Pk H. inversion H; subst. simpl.
  clear H. induction (user_identity_binding d) as [|r l IH]; simpl; [constructor|].
  inversion Pk as [|k ks Hk Hks]; subst.
  destruct (cond r); simpl; [apply IH; exact Hks|].
  constructor; [|apply IH; exact Hks].
  intros Hin. apply Hk. apply in_map_iff in Hin. destruct Hin as [x [Hx Hin]].
  apply List.filter_In in Hin. apply in_map_iff. exists x. tauto.
Qed.

Lemma delete_by_key (l1 l2 : list UserIdentityBinding) (target : UserIdentityBinding) :
  primary_key_unique (l1 ++ target :: l2) ->
  List.filter (fun b => negb (Binding.Id b =? Binding.Id target)) (l1 ++ target :: l2)
  = l1 ++ l2.
Proof.
  unfold primary_key_unique. rewrite List.map_app. simpl. intros H.
  apply NoDup_remove in H. destruct H as [_ Hn].
  rewrite List.filter_app. simpl. rewrite String.eqb_refl. simpl.
  f_equal; apply filter_keeps_all; apply Forall_forall; intros b Hb;
    apply negb_true_iff, String.eqb_neq; intros Heq; apply Hn; apply in_or_app;
    [left|right]; apply in_map_iff; exists b; auto.
Qed.

Section Unbind.

Variable env : Env.

Lemma unbind_last universalId authType w :
  storage_fault env (calls w) = None ->
  (List.length (owned_by universalId (user_identity_binding (db w))) <= 1)%nat ->
  RemoveUserIdentityBindingForUser env universalId authType w
  = (inl "cannot delete the only login method, please bind other login methods first",
     counted w).
Proof.
  intros F L. unfold RemoveUserIdentityBindingForUser, GetUserIdentityBindingsByUniversalId.
  rewrite (bind_step _ _ _ _ _ (engine_query_ok env _ w F)).
  fold (owned_by universalId (user_identity_binding (db w))).
  apply Nat.leb_le in L. rewrite L. reflexivity.
Qed.

Lemma unbind_not_found universalId authType w :
  storage_fault env (calls w) = None ->
  (1 < List.length (owned_by universalId (user_identity_binding (db w))))%nat ->
  List.find (fun b => Binding.AuthType b =? authType)
            (owned_by universalId (user_identity_binding (db w))) = None ->
  RemoveUserIdentityBindingForUser env universalId authType w
  = (inl "identity binding to be deleted not found", counted w).
Proof.
  intros F L E. unfold RemoveUserIdentityBindingForUser, GetUserIdentityBindingsByUniversalId.
  rewrite (bind_step _ _ _ _ _ (engine_query_ok env _ w F)).
  fold (owned_by universalId (user_identity_binding (db w))).
  apply Nat.leb_gt in L. rewrite L, E. reflexivity.
Qed.

Lemma unbind_deletes universalId authType w target :
  reliable env (calls w) 2 ->
  (1 < List.length (owned_by universalId (user_identity_binding (db w))))%nat ->
  List.find (fun b => Binding.AuthType b =? authType)
            (owned_by universalId (user_identity_binding (db w))) = Some target ->
  RemoveUserIdentityBindingForUser env universalId authType w
  = (inr tt,
     set_db (set_user_identity_binding
               (List.filter (fun b => negb (Binding.Id b =? Binding.Id target))
                            (user_identity_binding (db w))) (db w))
            (counted (counted w))).
Proof.
  intros Rel L E.
  pose proof (reliable_0 _ _ _ Rel) as F0. pose proof (reliable_1 _ _ _ Rel) as F1.
  unfold RemoveUserIdentityBindingForUser, GetUserIdentityBindingsByUniversalId.
  rewrite (bind_step _ _ _ _ _ (engine_query_ok env _ w F0)).
  fold (owned_by universalId (user_identity_binding (db w))).
  apply Nat.leb_gt in L. rewrite L, E.
  unfold DeleteUserIdentityBinding, engine_exec, bind, storage_call. simpl.
  rewrite F1. simpl.
  apply List.find_some in E. destruct E as [Hin _].
  apply List.filter_In in Hin. destruct Hin as [Hin _].
  rewrite (affected_rows _ _ target Hin) by apply String.eqb_refl.
  reflexivity.
Qed.

(** An unbind that fails has written nothing. *)
Lemma unbind_failure_unchanged universalId authType w e w' :
  RemoveUserIdentityBindingForUser env universalId authType w = (inl e, w') ->
  db w' = db w.
Proof.
  unfold RemoveUserIdentityBindingForUser. intros H.
  apply bind_inl in H. destruct H as [H|[mine [w1 [H1 H]]]].
  { apply read_only_engine_query in H. tauto. }
  apply engine_query_inr in H1. destruct H1 as [-> [-> _]].
  destruct (_ <=? 1)%nat; [inversion H; reflexivity|].
  destruct (List.find _ _) as [target|] eqn:E; [|inversion H; reflexivity].
  apply bind_inl in H. destruct H as [H|[ok [w2 [H2 H]]]].
  { unfold DeleteUserIdentityBinding in H. apply bind_inl in H.
    destruct H as [H|[n [w3 [H3 H]]]]; [|discriminate].
    apply engine_exec_unchanged in H. exact H. }
  unfold DeleteUserIdentityBinding, engine_exec, bind, storage_call in H2. simpl in H2.
  destruct (storage_fault env (S (calls w))); [discriminate|]. simpl in H2.
  inversion H2; subst ok w2. clear H2.
  apply List.find_some in E. destruct E as [Hin _].
  apply List.filter_In in Hin. destruct Hin as [Hin _].
  rewrite (affected_rows _ _ target Hin) in H by apply String.eqb_refl.
  discriminate.
Qed.

(** C6.  With unique primary keys and a storage layer that answers the
    two calls of an unbind: an identity that owns at most one binding
    gets the last-credential error and the store is unchanged; with more
    than one binding and none of the given type the unbind fails as not
    found and the store is unchanged; otherwise the first binding of the
    identity with that type is removed and every other row of every
    table stays.  An identity that owned a binding still owns one
    afterwards. *)
Theorem unbind_cases universalId authType w :
  primary_key_unique (user_identity_binding (db w)) ->
  reliable env (calls w) 2 ->
  let r := RemoveUserIdentityBindingForUser env universalId authType w in
  let l := user_identity_binding (db w) in
  let mine := owned_by universalId l in
  ((List.length mine <= 1)%nat ->
     fst r = inl "cannot delete the only login method, please bind other login methods first"
     /\ db (snd r) = db w)
  /\ ((1 < List.length mine)%nat ->
      (forall b, In b mine -> Binding.AuthType b <> authType) ->
      fst r = inl "identity binding to be deleted not found" /\ db (snd r) = db w)
  /\ ((1 < List.length mine)%nat ->
      forall target,
        List.find (fun b => Binding.AuthType b =? authType) mine = Some target ->
        Binding.UniversalId target = universalId
        /\ Binding.AuthType target = authType
        /\ fst r = inr tt
        /\ exists l1 l2, l = l1 ++ target :: l2
                         /\ db (snd r) = set_user_identity_binding (l1 ++ l2) (db w))
  /\ ((1 <= List.length mine)%nat ->
      (1 <= List.length (owned_by universalId (user_identity_binding (db (snd r)))))%nat).
Proof.
  intros Pk Rel r l mine. pose proof (reliable_0 _ _ _ Rel) as F0.
  assert (Third : (1 < List.length mine)%nat -> forall target,
             List.find (fun b => Binding.AuthType b =? authType) mine = Some target ->
             Binding.UniversalId target = universalId
             /\ Binding.AuthType target = authType
             /\ fst r = inr tt
             /\ exists l1 l2, l = l1 ++ target :: l2
                              /\ db (snd r) = set_user_identity_binding (l1 ++ l2) (db w)).
  { intros L target E. subst r. rewrite (unbind_deletes _ _ _ _ Rel L E). simpl.
    apply List.find_some in E. destruct E as [Hin Hty].
    apply String.eqb_eq in Hty.
    apply List.filter_In in Hin. destruct Hin as [Hin Hu]. apply String.eqb_eq in Hu.
    split; [exact Hu|]. split; [exact Hty|]. split; [reflexivity|].
    destruct (List.in_split _ _ Hin) as [l1 [l2 Hl]]. exists l1, l2.
    split; [exact Hl|]. fold l. rewrite Hl. rewrite delete_by_key; [reflexivity|].
    rewrite <- Hl. exact Pk. }
  split.
  { intros L. subst r. rewrite (unbind_last _ _ _ F0 L). simpl. auto. }
  split.
  { intros L Hn. subst r. rewrite (unbind_not_found _ _ _ F0 L); [simpl; auto|].
    destruct (List.find _ _) as [b|] eqn:E; [|reflexivity].
    apply List.find_some in E. destruct E as [Hin Hty]. apply String.eqb_eq in Hty.
    exfalso. exact (Hn b Hin Hty). }
  split; [exact Third|].
  intros L1.
  destruct (le_lt_dec (List.length mine) 1) as [L|L].
  { subst r. rewrite (unbind_last _ _ _ F0 L). simpl. exact L1. }
  destruct (List.find (fun b => Binding.AuthType b =? authType) mine) as [target|] eqn:E.
  - destruct (Third L target eq_refl) as [Hu [_ [_ [l1 [l2 [Hl ->]]]]]]. simpl.
    unfold mine in L. fold l in L. rewrite Hl in L. unfold owned_by in *.
    rewrite List.filter_app in *. simpl in L. rewrite Hu, String.eqb_refl in L.
    rewrite List.length_app in *. simpl in L. lia.
  - subst r. rewrite (unbind_not_found _ _ _ F0 L E). simpl. exact L1.
Qed.

End Unbind.

(** ** Global credential uniqueness *)

Lemma credential_unique_incl (l l' : list UserIdentityBinding) :
  (forall b, In b l' -> In b l) -> credential_unique l -> credential_unique l'.
Proof. intros Hs Hu b1 b2 H1 H2. apply Hu; auto. Qed.

Lemma credential_unique_snoc (l : list UserIdentityBinding) (b : UserIdentityBinding) :
  credential_unique l ->
  (forall r, In r l -> Binding.AuthType r = Binding.AuthType b ->
             Binding.AuthValue r = Binding.AuthValue b ->
             Binding.UniversalId r = Binding.UniversalId b) ->
  credential_unique (l ++ [b]).
Proof.
  intros Hu Hb b1 b2 H1 H2 Ht Hv.
  apply in_app_or in H1. apply in_app_or in H2.
  destruct H1 as [H1|[<-|[]]], H2 as [H2|[<-|[]]].
  - apply Hu; auto.
  - apply Hb; auto.
  - symmetry. apply Hb; auto.
  - reflexivity.
Qed.

Section Uniqueness.

Variable env : Env.

(** Explicit bind keeps credentials unique. *)
Lemma bind_preserves_unique universalId authType authValue w r w' :
  AddUserIdentityBindingForUser env universalId authType authValue w = (r, w') ->
  credential_unique (user_identity_binding (db w)) ->
  credential_unique (user_identity_binding (db w')).
Proof.
  intros H Hu. destruct r as [e|b].
  { apply bind_failure_unchanged in H. rewrite H. exact Hu. }
  unfold AddUserIdentityBindingForUser in H.
  apply bind_inr in H. destruct H as [found [w1 [H1 H]]].
  apply engine_query_inr in H1. destruct H1 as [-> [-> _]].
  destruct (List.find _ _) as [b0|] eqn:E.
  { destruct (Binding.UniversalId b0 =? universalId); inversion H; subst. exact Hu. }
  apply bind_inr in H. destruct H as [id [w2 [H2 H]]]. inversion H2; subst id w2. clear H2.
  apply bind_inr in H. destruct H as [now [w3 [H3 H]]]. inversion H3; subst now w3. clear H3.
  apply bind_inr in H. destruct H as [ok [w4 [H4 H]]].
  unfold AddUserIdentityBinding, engine_exec in H4.
  apply bind_inr in H4. destruct H4 as [n [w5 [H5 H6]]].
  apply bind_inr in H5. destruct H5 as [u [w6 [H7 H8]]].
  apply storage_call_inr in H7. destruct H7 as [_ ->]. simpl in H8.
  destruct (insert_binding env _ (db w)) as [e'|[n' d]] eqn:I; [discriminate|].
  apply insert_binding_inr in I. destruct I as [_ [-> ->]].
  inversion H8; subst. inversion H6; subst. simpl in H. inversion H; subst. simpl.
  apply credential_unique_snoc; [exact Hu|].
  intros r0 Hin Ht Hv. simpl in *.
  pose proof (List.find_none _ _ E r0 Hin) as Hf. simpl in Hf.
  rewrite Ht, Hv, !String.eqb_refl in Hf. discriminate.
Qed.

(** Unbind only removes rows. *)
Lemma unbind_preserves_unique universalId authType w r w' :
  RemoveUserIdentityBindingForUser env universalId authType w = (r, w') ->
  credential_unique (user_identity_binding (db w)) ->
  credential_unique (user_identity_binding (db w')).
Proof.
  intros H Hu. destruct r as [e|u].
  { apply unbind_failure_unchanged in H. rewrite H. exact Hu. }
  unfold RemoveUserIdentityBindingForUser in H.
  apply bind_inr in H. destruct H as [mine [w1 [H1 H]]].
  apply engine_query_inr in H1. destruct H1 as [-> [-> _]].
  destruct (_ <=? 1)%nat; [discriminate|].
  destruct (List.find _ _) as [target|]; [|discriminate].
  apply bind_inr in H. destruct H as [ok [w2 [H2 H]]].
  unfold DeleteUserIdentityBinding, engine_exec, bind, storage_call in H2. simpl in H2.
  destruct (storage_fault env (S (calls w))); [discriminate|]. simpl in H2.
  inversion H2; subst ok w2. clear H2.
  destruct (negb _); inversion H; subst. simpl.
  eapply credential_unique_incl; [|exact Hu].
  intros b Hb. apply List.filter_In in Hb. tauto.
Qed.

(** The bindings after a successful merge. *)
Lemma MergeUsers_bindings reservedUserToken deletedUserToken w res w' :
  MergeUsers env reservedUserToken deletedUserToken w = (inr res, w') ->
  exists ins,
    user_identity_binding (db w')
    = List.filter (fun b => negb (Binding.UniversalId b =? deleted_user_id res))
                  (user_identity_binding (db w)) ++ ins
    /\ Forall (fun b => Binding.UniversalId b = universal_id res) ins
    /\ (forall b, In b ins ->
          In (credential b)
             (credentials_of (deleted_user_id res) (user_identity_binding (db w)))).
Proof.
  intros H. apply MergeUsers_inr in H.
  destruct H as [rc [dc [ru [du [_ [_ [_ [_ [_ [_ [Hne H]]]]]]]]]]].
  cbv zeta in H. destruct H as [-> [Hdb _]]. simpl.
  exists (transferred env (User.UniversalId ru)
            (credentials_of (User.UniversalId ru) (user_identity_binding (db w)))
            (owned_by (User.UniversalId du) (user_identity_binding (db w)))
            (ids w) (ticks w)).
  split; [|split].
  - rewrite Hdb. simpl. rewrite List.filter_app. f_equal.
    apply filter_keeps_all. eapply Forall_impl; [|apply transferred_owner].
    intros b Hb. simpl in Hb. rewrite Hb, (eqb_neq_false _ _ Hne). reflexivity.
  - apply transferred_owner.
  - intros b Hb. apply (in_map credential) in Hb.
    apply transferred_credentials in Hb. destruct Hb as [Hb _]. exact Hb.
Qed.

(** Merge moves the credentials of the deleted identity and removes the
    rows it moved them from. *)
Lemma merge_preserves_unique reservedUserToken deletedUserToken w r w' :
  MergeUsers env reservedUserToken deletedUserToken w = (r, w') ->
  credential_unique (user_identity_binding (db w)) ->
  credential_unique (user_identity_binding (db w')).
Proof.
  intros H Hu. destruct r as [e|res].
  { apply MergeUsers_inl in H. rewrite H. exact Hu. }
  apply MergeUsers_bindings in H.
  destruct H as [ins [Hnew [Hown Hmoved]]].
  rewrite Hnew. intros b1 b2 H1 H2 Ht Hv.
  assert (Kept : forall b, In b (List.filter
                   (fun b => negb (Binding.UniversalId b =? deleted_user_id res))
                   (user_identity_binding (db w))) ->
                 In b (user_identity_binding (db w))
                 /\ Binding.UniversalId b <> deleted_user_id res).
  { intros b Hb. apply List.filter_In in Hb. destruct Hb as [Hb Hn].
    apply negb_true_iff, String.eqb_neq in Hn. auto. }
  assert (Moved : forall b, In b ins ->
                  exists d, In d (user_identity_binding (db w))
                            /\ Binding.UniversalId d = deleted_user_id res
                            /\ credential d = credential b).
  { intros b Hb. apply Hmoved in Hb. apply In_credentials_of in Hb. exact Hb. }
  assert (Clash : forall k i, In k (List.filter
                    (fun b => negb (Binding.UniversalId b =? deleted_user_id res))
                    (user_identity_binding (db w))) -> In i ins ->
                  Binding.AuthType k = Binding.AuthType i ->
                  Binding.AuthValue k = Binding.AuthValue i -> False).
  { intros k i Hk Hi Et Ev. destruct (Kept k Hk) as [Hin Hn].
    destruct (Moved i Hi) as [d [Hd [Hdu Hdc]]]. inversion Hdc as [[Dt Dv]].
    apply Hn. rewrite <- Hdu. apply Hu; auto; congruence. }
  apply in_app_or in H1. apply in_app_or in H2.
  rewrite Forall_forall in Hown.
  destruct H1 as [H1|H1], H2 as [H2|H2].
  - apply Hu; auto; apply Kept; assumption.
  - exfalso. eapply Clash; eauto.
  - exfalso. eapply Clash; eauto.
  - rewrite (Hown _ H1), (Hown _ H2). reflexivity.
Qed.

End Uniqueness.

(** ** Unified login resolver *)

Lemma Split_two_not_empty (s : string) (sep : ascii) (a b : string) :
  Split s sep = [a; b] -> (s =? "") = false.
Proof. destruct s; simpl; [discriminate|reflexivity]. Qed.

Section Login.

Variable env : Env.

Lemma validate_world userOwnerName password w :
  snd (validateUsernamePassword env userOwnerName password w) = w.
Proof.
  unfold validateUsernamePassword.
  destruct (Split userOwnerName "/") as [|owner [|name [|x parts]]]; reflexivity.
Qed.

Lemma lookup_ok authType authValue w :
  storage_fault env (calls w) = None ->
  go_pair (GetUserIdentityBindingByAuth env authType authValue) w
  = ((first_with authType authValue (user_identity_binding (db w)), None), counted w).
Proof.
  intros F. unfold go_pair, GetUserIdentityBindingByAuth.
  rewrite (engine_query_ok env _ w F). reflexivity.
Qed.

Lemma lookup_fault authType authValue w e :
  storage_fault env (calls w) = Some e ->
  go_pair (GetUserIdentityBindingByAuth env authType authValue) w
  = ((None, Some e), counted w).
Proof.
  intros F. unfold go_pair, GetUserIdentityBindingByAuth.
  rewrite (engine_query_fault env _ w e F). reflexivity.
Qed.

(** The three types that are looked up directly. *)
Lemma login_direct authType authValue password w :
  authType = "github" \/ authType = "phone" \/ authType = "email" ->
  LoginWithUnifiedIdentity env authType authValue password w
  = let '((binding, err), w1) :=
      go_pair (GetUserIdentityBindingByAuth env authType authValue) w in
    loginWithBinding env binding err w1.
Proof.
  intros [-> | [-> | ->]]; reflexivity.
Qed.

Lemma login_password authValue password w user :
  fst (validateUsernamePassword env authValue password w) = inr (Some user) ->
  LoginWithUnifiedIdentity env "password" authValue password w
  = let '((binding, _), w1) :=
      go_pair (GetUserIdentityBindingByAuth env "password"
                 (User.Owner user +:+ "/" +:+ User.Name user)) w in
    loginWithBinding env binding None w1.
Proof.
  intros V. unfold LoginWithUnifiedIdentity. simpl.
  pose proof (validate_world authValue password w) as W.
  unfold go_pair at 1.
  destruct (validateUsernamePassword env authValue password w) as [[e|[u|]] w1];
    simpl in *; inversion V; subst. reflexivity.
Qed.

Lemma login_unsupported authType authValue password w :
  authType <> "github" -> authType <> "phone" -> authType <> "email" ->
  authType <> "password" ->
  LoginWithUnifiedIdentity env authType authValue password w
  = (inl ("unsupported auth type: " +:+ authType), w).
Proof.
  intros H1 H2 H3 H4. unfold LoginWithUnifiedIdentity.
  rewrite (eqb_neq_false _ _ H1), (eqb_neq_false _ _ H2),
    (eqb_neq_false _ _ H3), (eqb_neq_false _ _ H4). reflexivity.
Qed.

(** C9, as amended.  For the types github, phone and email the resolver
    looks the binding up by [(authType, authValue)] and loads the account
    by the universal identity of the binding found; for password it
    first has the secret checked against the account named by the
    [owner/name] composite, returns the checker's error if that fails,
    and only then looks up the password binding of the checked account;
    when the lookup finds no binding the call fails with
    ["authentication failed"]; every other type is refused as
    unsupported, with no lookup. *)
Theorem login_resolution authType authValue password w :
  let l := user_identity_binding (db w) in
  ((authType = "github" \/ authType = "phone" \/ authType = "email") ->
   storage_fault env (calls w) = None ->
   (forall b, first_with authType authValue l = Some b ->
      LoginWithUnifiedIdentity env authType authValue password w
      = getUserByUniversalId env (Binding.UniversalId b) (counted w))
   /\ (first_with authType authValue l = None ->
       LoginWithUnifiedIdentity env authType authValue password w
       = (inl "authentication failed", counted w)))
  /\ (authType = "password" ->
      (forall owner name, Split authValue "/" = [owner; name] ->
         validateUsernamePassword env authValue password w
         = (CheckUserPassword env (db w) owner name password "en", w))
      /\ (forall e, fst (validateUsernamePassword env authValue password w) = inl e ->
            LoginWithUnifiedIdentity env authType authValue password w = (inl e, w))
      /\ (forall user,
            fst (validateUsernamePassword env authValue password w) = inr (Some user) ->
            storage_fault env (calls w) = None ->
            let key := User.Owner user +:+ "/" +:+ User.Name user in
            (forall b, first_with "password" key l = Some b ->
               LoginWithUnifiedIdentity env authType authValue password w
               = getUserByUniversalId env (Binding.UniversalId b) (counted w))
            /\ (first_with "password" key l = None ->
                LoginWithUnifiedIdentity env authType authValue password w
                = (inl "authentication failed", counted w))))
  /\ (authType <> "github" -> authType <> "phone" -> authType <> "email" ->
      authType <> "password" ->
      LoginWithUnifiedIdentity env authType authValue password w
      = (inl ("unsupported auth type: " +:+ authType), w))
  /\ (forall uid account w1,
        storage_fault env (calls w1) = None ->
        List.find (fun u => User.UniversalId u =? uid) (user (db w1)) = Some account ->
        getUserByUniversalId env uid w1 = (inr (Some account), counted w1)).
Proof.
  intros l. split; [|split; [|split]].
  - intros Hty F. rewrite (login_direct _ _ _ _ Hty), (lookup_ok _ _ _ F). fold l.
    split.
    + intros b ->. reflexivity.
    + intros ->. reflexivity.
  - intros ->. split; [|split].
    + intros owner name Hs. unfold validateUsernamePassword. rewrite Hs. reflexivity.
    + intros e V. unfold LoginWithUnifiedIdentity. simpl.
      pose proof (validate_world authValue password w) as W. unfold go_pair.
      destruct (validateUsernamePassword env authValue password w) as [[e'|u] w1];
        simpl in *; inversion V; subst. reflexivity.
    + intros user V F key. rewrite (login_password _ _ _ _ V), (lookup_ok _ _ _ F).
      fold l key. split.
      * intros b ->. reflexivity.
      * intros ->. reflexivity.
  - apply login_unsupported.
  - intros uid account w1 F E. apply getUserByUniversalId_ok; assumption.
Qed.

(** C10.  In the password branch, once the secret has been accepted, an
    error of the storage layer during the lookup of the binding is not
    returned: the lookup fails with that error, yet the call fails with
    ["authentication failed"].  For the types looked up directly the
    same storage error is what the call returns. *)
Theorem password_lookup_error_discarded authValue password w user e :
  fst (validateUsernamePassword env authValue password w) = inr (Some user) ->
  storage_fault env (calls w) = Some e ->
  GetUserIdentityBindingByAuth env "password"
    (User.Owner user +:+ "/" +:+ User.Name user) w = (inl e, counted w)
  /\ LoginWithUnifiedIdentity env "password" authValue password w
     = (inl "authentication failed", counted w)
  /\ (forall authType,
        authType = "github" \/ authType = "phone" \/ authType = "email" ->
        LoginWithUnifiedIdentity env authType authValue password w = (inl e, counted w)).
Proof.
  intros V F. split; [|split].
  - unfold GetUserIdentityBindingByAuth. apply engine_query_fault. exact F.
  - rewrite (login_password _ _ _ _ V), (lookup_fault _ _ _ _ F). reflexivity.
  - intros authType Hty. rewrite (login_direct _ _ _ _ Hty), (lookup_fault _ _ _ _ F).
    reflexivity.
Qed.

End Login.

(** ** Who may start a merge *)

Section Boundary.

Variable env : Env.

(** C3, as amended.  The orchestrator does not validate the caller: it
    takes the two tokens and nothing about who calls, and with its own
    four preconditions met (and a storage layer that answers, ids that
    are free) it carries the merge out.  The only check of the caller is
    the one the HTTP boundary makes before it calls the orchestrator.
    What that check does in the code is the first part: it compares
    account names, so a caller whose account name is that of neither
    token subject is refused with the store untouched, and every caller
    whose account name is that of one of them is passed on with the two
    tokens, whatever the caller's organisation or universal identity. *)
Theorem caller_checked_at_boundary_only :
  (forall authHeader token request claims reservedClaims deletedClaims w,
     Split authHeader " " = ["Bearer"; token] ->
     ParseJwtTokenByApplication env token = inr claims ->
     ReservedUserToken request <> "" ->
     DeletedUserToken request <> "" ->
     ParseJwtTokenByApplication env (ReservedUserToken request) = inr reservedClaims ->
     ParseJwtTokenByApplication env (DeletedUserToken request) = inr deletedClaims ->
     let currentUserId := User.Name (ClaimsUser claims) in
     (currentUserId <> User.Name (ClaimsUser reservedClaims) ->
      currentUserId <> User.Name (ClaimsUser deletedClaims) ->
      ApiController_MergeUsers env authHeader (inr request) w
      = (ResponseError "Unauthorized: You can only merge accounts you own", w))
     /\ (currentUserId = User.Name (ClaimsUser reservedClaims)
         \/ currentUserId = User.Name (ClaimsUser deletedClaims) ->
         ApiController_MergeUsers env authHeader (inr request) w
         = match MergeUsers env (ReservedUserToken request) (DeletedUserToken request) w with
           | (inl err, w') => (ResponseError err, w')
           | (inr result, w') => (ServeJSON result, w')
           end))
  /\ (forall reservedUserToken deletedUserToken w
             reservedClaims deletedClaims reservedUser deletedUser,
        ParseJwtTokenByApplication env reservedUserToken = inr reservedClaims ->
        ParseJwtTokenByApplication env deletedUserToken = inr deletedClaims ->
        List.find (fun u => User.UniversalId u =? ClaimsUniversalId reservedClaims)
                  (user (db w)) = Some reservedUser ->
        List.find (fun u => User.UniversalId u =? ClaimsUniversalId deletedClaims)
                  (user (db w)) = Some deletedUser ->
        User.IsDeleted reservedUser = false ->
        User.IsDeleted deletedUser = false ->
        User.UniversalId reservedUser <> User.UniversalId deletedUser ->
        never_fails_from env (calls w) ->
        fresh_ids_from env (ids w) (user_identity_binding (db w)) ->
        exists res w', MergeUsers env reservedUserToken deletedUserToken w = (inr res, w')).
Proof.
  split; [|apply MergeUsers_succeeds].
  intros authHeader token request claims rc dc w Hs P Hr Hd P1 P2 currentUserId.
  unfold ApiController_MergeUsers.
  rewrite (Split_two_not_empty _ _ _ _ Hs), Hs. simpl. rewrite P.
  rewrite (eqb_neq_false _ _ Hr), (eqb_neq_false _ _ Hd). simpl. rewrite P1, P2.
  fold currentUserId. split.
  - intros N1 N2. rewrite (eqb_neq_false _ _ N1), (eqb_neq_false _ _ N2). reflexivity.
  - intros [E|E]; apply String.eqb_eq in E; rewrite E; simpl;
      rewrite ?andb_false_r; reflexivity.
Qed.

End Boundary.

(** * The engine run on the concrete deployment *)

Import Example.

Lemma env0_never_fails k : never_fails_from env0 k.
Proof. intros i _. reflexivity. Qed.

Lemma env0_reliable k n : reliable env0 k n.
Proof. intros i _. reflexivity. Qed.

Lemma store1_unique : credential_unique (user_identity_binding store1).
Proof. intros b1 b2 [<-|[]] [<-|[]] _ _. reflexivity. Qed.

Lemma store0_keys : primary_key_unique (user_identity_binding store0).
Proof.
  unfold primary_key_unique. simpl.
  repeat (constructor; [simpl; intuition discriminate|]). constructor.
Qed.

(** C7.  Creating the binding of a new account whose email is already
    bound to another identity succeeds and leaves the same credential
    under two identities: the creation path inserts without the lookup
    that explicit bind performs. *)
Theorem creation_breaks_uniqueness :
  let r := createIdentityBindingsWithValue env0 bob "uid-B" "email" "" world1 in
  credential_unique (user_identity_binding (db world1))
  /\ fst r = inr tt
  /\ user_identity_binding (db (snd r))
     = [Binding.mk "b1" "uid-A" "email" "a@x.com" "t";
        Binding.mk "id-0" "uid-B" "email" "a@x.com" "t0"]
  /\ ~ credential_unique (user_identity_binding (db (snd r))).
Proof.
  assert (E : user_identity_binding
                (db (snd (createIdentityBindingsWithValue env0 bob "uid-B" "email" "" world1)))
              = [Binding.mk "b1" "uid-A" "email" "a@x.com" "t";
                 Binding.mk "id-0" "uid-B" "email" "a@x.com" "t0"])
    by (vm_compute; reflexivity).
  cbv zeta. split; [exact store1_unique|]. split; [vm_compute; reflexivity|].
  split; [exact E|]. rewrite E. intros H.
  specialize (H (Binding.mk "b1" "uid-A" "email" "a@x.com" "t")
                (Binding.mk "id-0" "uid-B" "email" "a@x.com" "t0")).
  simpl in H. discriminate H; auto.
Qed.

(** C3 as stated fails: the orchestrator merges [alice] and [bob] for any
    caller, for instance one whose universal identity is ["uid-M"]. *)
Lemma orchestrator_ignores_caller :
  ~ (forall env (caller : string) reservedUserToken deletedUserToken
            reservedClaims deletedClaims w,
       ParseJwtTokenByApplication env reservedUserToken = inr reservedClaims ->
       ParseJwtTokenByApplication env deletedUserToken = inr deletedClaims ->
       caller <> ClaimsUniversalId reservedClaims ->
       caller <> ClaimsUniversalId deletedClaims ->
       exists e, fst (MergeUsers env reservedUserToken deletedUserToken w) = inl e).
Proof.
  intros H.
  destruct (H env0 "uid-M" "tokA" "tokB" (mkClaims alice "uid-A") (mkClaims bob "uid-B")
              world0 eq_refl eq_refl) as [e He]; [discriminate|discriminate|].
  vm_compute in He. discriminate He.
Qed.

(** C5 as stated fails: on a store in which [bob] and [alice] hold the
    same email, [alice]'s row stored first, [bob] binding that email
    again is refused although he owns the credential. *)
Lemma bind_refuses_second_owner :
  ~ (forall env universalId authType authValue w b,
       reliable env (calls w) 2 ->
       In b (user_identity_binding (db w)) ->
       Binding.AuthType b = authType ->
       Binding.AuthValue b = authValue ->
       Binding.UniversalId b = universalId ->
       exists existing w',
         AddUserIdentityBindingForUser env universalId authType authValue w
         = (inr existing, w')
         /\ db w' = db w).
Proof.
  intros H.
  destruct (H env0 "uid-B" "email" "a@x.com" world0
              (Binding.mk "b2" "uid-B" "email" "a@x.com" "t") (env0_reliable _ _))
    as [existing [w' [E _]]]; try reflexivity.
  - simpl. auto.
  - vm_compute in E. discriminate E.
Qed.

(** C9 as stated fails: a stored google binding of a stored account is
    not looked up, the type is refused. *)
Lemma login_refuses_other_types :
  ~ (forall env authType authValue password w b account,
       authType <> "password" ->
       never_fails_from env (calls w) ->
       first_with authType authValue (user_identity_binding (db w)) = Some b ->
       List.find (fun u => User.UniversalId u =? Binding.UniversalId b) (user (db w))
       = Some account ->
       fst (LoginWithUnifiedIdentity env authType authValue password w)
       = inr (Some account)).
Proof.
  intros H.
  specialize (H env0 "google" "g-7" "" world0
                (Binding.mk "b4" "uid-M" "google" "g-7" "t") mallory).
  assert (N : "google" <> "password") by discriminate.
  specialize (H N (env0_never_fails _) eq_refl eq_refl).
  vm_compute in H. discriminate H.
Qed.

(** ** The theorems at concrete inputs *)


(** The purge of the payment records, the thirteenth storage call of this
    merge, fails: the error comes back, the store is as before and
    nothing stays behind.  The commit, the seventeenth call, fails: the
    error comes back, the store is as before, and the working copy, in
    which [bob] has no binding left, stays behind unresolved. *)
Lemma merge_failure_leaves_store_witness :
  exists e w',
    MergeUsers (env_fault 12) "tokA" "tokB" world0 = (inl e, w')
    /\ e = "connection lost"
    /\ db w' = db world0
    /\ unresolved w' = None
    /\ (exists w2 working,
          MergeUsers (env_fault 16) "tokA" "tokB" world0 = (inl "connection lost", w2)
          /\ db w2 = db world0
          /\ tx w2 = None
          /\ unresolved w2 = Some working
          /\ owned_by "uid-B" (user_identity_binding working) = []
          /\ ~ In bob (user working))
    /\ MergeUsers env0 "tokA" "tokA" world0
       = (inl "cannot merge the same user", counted (counted world0)).
Proof.
  destruct (MergeUsers (env_fault 12) "tokA" "tokB" world0) as [[e|res] w'] eqn:E;
    [|vm_compute in E; discriminate E].
  exists e, w'. split; [reflexivity|].
  destruct (merge_failure_leaves_store (env_fault 12)) as [Atomic _].
  destruct (Atomic "tokA" "tokB" world0 e w' E) as [D _].
  destruct (merge_failure_leaves_store env0) as [_ [_ [_ [_ Self]]]].
  split; [vm_compute in E; inversion E; reflexivity|]. split; [exact D|].
  split; [vm_compute in E; inversion E; reflexivity|].
  split.
  - destruct (MergeUsers (env_fault 16) "tokA" "tokB" world0) as [[e2|res] w2] eqn:E2;
      [|vm_compute in E2; discriminate E2].
    destruct (merge_failure_leaves_store (env_fault 16)) as [Atomic2 _].
    destruct (Atomic2 "tokA" "tokB" world0 e2 w2 E2) as [D2 _].
    vm_compute in E2. inversion E2; subst e2 w2. clear E2.
    eexists. eexists. split; [reflexivity|]. split; [exact D2|].
    split; [reflexivity|]. split; [reflexivity|].
    split; [reflexivity|]. simpl. intuition discriminate.
  - apply (Self "tokA" world0 (mkClaims alice "uid-A") alice).
    + reflexivity.
    + apply env0_reliable.
    + reflexivity.
    + reflexivity.
Defined.

(** [mallory] asks the boundary to merge [alice] and [bob] and is
    refused; the [alice] of another organisation, who has no part in the
    merge either, asks the same and is let through: the orchestrator
    merges. *)
Lemma caller_checked_at_boundary_only_witness :
  ApiController_MergeUsers env0 "Bearer tokM" (inr (mkMergeRequest "tokA" "tokB")) world0
  = (ResponseError "Unauthorized: You can only merge accounts you own", world0)
  /\ ClaimsUniversalId (mkClaims Quiet.namesake "uid-X") <> "uid-A"
  /\ ClaimsUniversalId (mkClaims Quiet.namesake "uid-X") <> "uid-B"
  /\ exists result w',
       ApiController_MergeUsers Quiet.env_namesake "Bearer tokX"
         (inr (mkMergeRequest "tokA" "tokB")) world0
       = (ServeJSON result, w')
       /\ deleted_user_id result = "uid-B".
Proof.
  destruct (caller_checked_at_boundary_only env0) as [Boundary _].
  assert (Hr : ReservedUserToken (mkMergeRequest "tokA" "tokB") <> "") by discriminate.
  assert (Hd : DeletedUserToken (mkMergeRequest "tokA" "tokB") <> "") by discriminate.
  destruct (Boundary "Bearer tokM" "tokM" (mkMergeRequest "tokA" "tokB")
              (mkClaims mallory "uid-M") (mkClaims alice "uid-A") (mkClaims bob "uid-B")
              world0 eq_refl eq_refl Hr Hd eq_refl eq_refl) as [Refused _].
  destruct (caller_checked_at_boundary_only Quiet.env_namesake) as [Boundary' _].
  destruct (Boundary' "Bearer tokX" "tokX" (mkMergeRequest "tokA" "tokB")
              (mkClaims Quiet.namesake "uid-X") (mkClaims alice "uid-A")
              (mkClaims bob "uid-B")
              world0 eq_refl eq_refl Hr Hd eq_refl eq_refl) as [_ Passed].
  split; [apply Refused; simpl; discriminate|].
  split; [discriminate|]. split; [discriminate|].
  rewrite Passed by (left; reflexivity).
  destruct (MergeUsers Quiet.env_namesake _ _ world0) as [[e|res] w'] eqn:E;
    [vm_compute in E; discriminate E|].
  exists res, w'. split; [reflexivity|].
  vm_compute in E. inversion E. reflexivity.
Defined.

(** [alice] is created with the hint ["github"], for which she has no
    value: her email is registered. *)
Lemma resolver_priority_order_witness :
  "github" <> ""
  /\ getProviderValue env0 alice "github" = ""
  /\ autoDetectProviderType alice = ("email", "a@x.com")
  /\ user_identity_binding
       (session_view (snd (createIdentityBindingsWithValue env0 alice "uid-A" "github" ""
                             (mkWorld store1 None 0 0 0 None))))
     = [Binding.mk "b1" "uid-A" "email" "a@x.com" "t";
        Binding.mk "id-0" "uid-A" "email" "a@x.com" "t0"].
Proof.
  destruct (resolver_priority_order env0 alice) as [First [Empty Create]].
  assert (Hh : "github" <> "") by discriminate.
  assert (Hv : getProviderValue env0 alice "github" = "") by reflexivity.
  destruct (Create (mkWorld store1 None 0 0 0 None) "uid-A" "github" Hh Hv) as [_ Registers].
  split; [exact Hh|]. split; [exact Hv|]. split; [rewrite First; reflexivity|].
  assert (Hne : ~ every_field_empty alice).
  { intros H. apply Empty in H. discriminate H. }
  assert (Hfresh : ~ In (GenerateId env0 (ids (mkWorld store1 None 0 0 0 None)))
                        (List.map Binding.Id
                           (user_identity_binding (session_view (mkWorld store1 None 0 0 0 None))))).
  { simpl. intuition discriminate. }
  destruct (Registers Hne eq_refl Hfresh) as [_ R]. rewrite R. reflexivity.
Defined.

(** [alice] binds her own email again. *)
Lemma bind_cases_witness :
  credential_unique (user_identity_binding (db world1))
  /\ AddUserIdentityBindingForUser env0 "uid-A" "email" "a@x.com" world1
     = (inr (Binding.mk "b1" "uid-A" "email" "a@x.com" "t"), counted world1)
  /\ fst (AddUserIdentityBindingForUser env0 "uid-B" "email" "a@x.com" world1)
     = inl "this email has been bound to other users"
  /\ db (snd (AddUserIdentityBindingForUser env0 "uid-B" "email" "a@x.com" world1))
     = db world1.
Proof.
  assert (Hfresh : ~ In (GenerateId env0 (ids world1))
                        (List.map Binding.Id (user_identity_binding (db world1)))).
  { simpl. intuition discriminate. }
  destruct (bind_cases env0 "uid-B" "email" "a@x.com" world1 store1_unique
              (env0_reliable _ _) Hfresh) as [_ [Other _]].
  destruct (Other (Binding.mk "b1" "uid-A" "email" "a@x.com" "t")) as [O1 O2];
    try reflexivity; [simpl; auto|discriminate|].
  split; [exact store1_unique|]. split; [vm_compute; reflexivity|].
  split; [exact O1|exact O2].
Defined.

(** [bob] unbinds his email and keeps his phone. *)
Lemma unbind_cases_witness :
  primary_key_unique (user_identity_binding (db world0))
  /\ fst (RemoveUserIdentityBindingForUser env0 "uid-B" "email" world0) = inr tt
  /\ owned_by "uid-B"
       (user_identity_binding
          (db (snd (RemoveUserIdentityBindingForUser env0 "uid-B" "email" world0))))
     = [Binding.mk "b3" "uid-B" "phone" "555" "t"]
  /\ fst (RemoveUserIdentityBindingForUser env0 "uid-M" "google" world0)
     = inl "cannot delete the only login method, please bind other login methods first".
Proof.
  destruct (unbind_cases env0 "uid-B" "email" world0 store0_keys (env0_reliable _ _))
    as [_ [_ [Deletes _]]].
  destruct (Deletes ltac:(simpl; lia) (Binding.mk "b2" "uid-B" "email" "a@x.com" "t") eq_refl)
    as [_ [_ [Ok _]]].
  destruct (unbind_cases env0 "uid-M" "google" world0 store0_keys (env0_reliable _ _))
    as [Last _].
  destruct (Last ltac:(simpl; lia)) as [L _].
  split; [exact store0_keys|]. split; [exact Ok|]. split; [vm_compute; reflexivity|exact L].
Defined.

(** After merging [bob] into [alice], nothing of [bob] is left. *)
Lemma merge_purges_deleted_account_witness :
  exists res w',
    MergeUsers env0 "tokA" "tokB" world0 = (inr res, w')
    /\ owned_by "uid-B" (user_identity_binding (db w')) = []
    /\ ~ In bob (user (db w'))
    /\ payment (db w') = [].
Proof.
  destruct (MergeUsers env0 "tokA" "tokB" world0) as [[e|res] w'] eqn:E;
    [vm_compute in E; discriminate E|].
  exists res, w'. split; [reflexivity|].
  destruct (merge_purges_deleted_account env0) as [Purged _].
  destruct (Purged "tokA" "tokB" world0 res w' E) as [du [_ [_ [Hown _]]]].
  vm_compute in E. inversion E; subst res w'. clear E.
  split; [exact Hown|]. split; [simpl; intuition discriminate|reflexivity].
Defined.

(** [alice] logs in by email; [mallory], whose only binding is a google
    one, is refused. *)
Lemma login_resolution_witness :
  LoginWithUnifiedIdentity env0 "email" "a@x.com" "" world0
  = (inr (Some alice), counted (counted world0))
  /\ LoginWithUnifiedIdentity env0 "google" "g-7" "" world0
     = (inl "unsupported auth type: google", world0).
Proof.
  destruct (login_resolution env0 "email" "a@x.com" "" world0) as [Direct [_ [_ Loaded]]].
  destruct (Direct ltac:(auto) eq_refl) as [Found _].
  destruct (login_resolution env0 "google" "g-7" "" world0) as [_ [_ [Refused _]]].
  split.
  - rewrite (Found (Binding.mk "b1" "uid-A" "email" "a@x.com" "t") eq_refl).
    apply Loaded; reflexivity.
  - apply Refused; discriminate.
Defined.

(** [alice] gives the right password while the storage layer is down. *)
Lemma password_lookup_error_discarded_witness :
  storage_fault (env_fault 0) (calls world0) = Some "connection lost"
  /\ LoginWithUnifiedIdentity (env_fault 0) "password" "org/alice" "secret" world0
     = (inl "authentication failed", counted world0)
  /\ LoginWithUnifiedIdentity (env_fault 0) "email" "org/alice" "secret" world0
     = (inl "connection lost", counted world0).
Proof.
  destruct (password_lookup_error_discarded (env_fault 0) "org/alice" "secret" world0
              alice "connection lost" eq_refl eq_refl) as [_ [Discarded Returned]].
  split; [reflexivity|]. split; [exact Discarded|]. apply Returned. auto.
Defined.


(** * Further properties of the code *)

(** ** [strings.Split] on one separator byte *)

Lemma Split_length (s : string) (sep : ascii) :
  List.length (Split s sep) = S (count_sep sep s).
Proof.
  induction s as [|c s IH]; simpl; [reflexivity|].
  destruct (Ascii.eqb c sep); simpl; [rewrite IH; reflexivity|].
  destruct (Split s sep) as [|part parts]; simpl in *; [discriminate|exact IH].
Qed.

Lemma Split_one (s : string) (sep : ascii) (b : string) :
  Split s sep = [b] <-> s = b /\ count_sep sep b = 0%nat.
Proof.
  split.
  - revert b. induction s as [|c s IH]; intros b H; simpl in H.
    + inversion H. auto.
    + destruct (Ascii.eqb c sep) eqn:E.
      * inversion H as [[H1 H2]]. pose proof (Split_length s sep) as L.
        rewrite H2 in L. discriminate L.
      * destruct (Split s sep) as [|part parts] eqn:S; [inversion H; subst|].
        { pose proof (Split_length s sep) as L. rewrite S in L. discriminate L. }
        inversion H; subst. destruct (IH part eq_refl) as [-> C].
        split; [reflexivity|]. simpl. rewrite E, C. reflexivity.
  - intros [-> C]. induction b as [|c b IH]; simpl in *; [reflexivity|].
    destruct (Ascii.eqb c sep); [discriminate|]. rewrite IH by exact C. reflexivity.
Qed.

Lemma Split_two (s : string) (sep : ascii) (a b : string) :
  Split s sep = [a; b] <->
  s = a +:+ String sep b /\ count_sep sep a = 0%nat /\ count_sep sep b = 0%nat.
Proof.
  split.
  - revert a. induction s as [|c s IH]; intros a H; simpl in H; [discriminate|].
    destruct (Ascii.eqb c sep) eqn:E.
    + inversion H as [[H1 H2]]. apply Split_one in H2. destruct H2 as [-> C].
      apply Ascii.eqb_eq in E. subst c. auto.
    + destruct (Split s sep) as [|part parts] eqn:S; [discriminate|].
      inversion H; subst. destruct (IH part eq_refl) as [-> [C1 C2]].
      split; [reflexivity|]. split; [|exact C2]. simpl. rewrite E, C1. reflexivity.
  - intros [-> [C1 C2]]. induction a as [|c a IH]; simpl in *.
    + rewrite Ascii.eqb_refl. rewrite (proj2 (Split_one b sep b)); auto.
    + destruct (Ascii.eqb c sep); [discriminate|]. rewrite IH by exact C1. reflexivity.
Qed.

(** ** The bearer header of the identity endpoints *)

Section BearerHeader.

Variable env : Env.

(** X1.  The identity endpoints go on with the caller's claims exactly
    when the [Authorization] header is ["Bearer "] followed by a token
    without a space, the token verifies, and its universal identity is not
    empty; a second space, another scheme or a missing token part is
    refused. *)
Theorem bearer_header_accepted authHeader claims :
  bearerIdentity env authHeader = inr claims <->
  exists token,
    authHeader = "Bearer " +:+ token
    /\ count_sep " " token = 0%nat
    /\ ParseJwtTokenByApplication env token = inr claims
    /\ ClaimsUniversalId claims <> "".
Proof.
  unfold bearerIdentity. split.
  - destruct (authHeader =? ""); [discriminate|].
    destruct (Split authHeader " ") as [|scheme [|token [|x parts]]] eqn:S;
      try discriminate.
    destruct (scheme =? "Bearer") eqn:B; simpl; [|discriminate].
    apply String.eqb_eq in B. subst scheme.
    destruct (ParseJwtTokenByApplication env token) as [e|c] eqn:P; [discriminate|].
    destruct (ClaimsUniversalId c =? "") eqn:U; [discriminate|].
    intros H. inversion H; subst c. apply Split_two in S. destruct S as [-> [_ C]].
    exists token. apply String.eqb_neq in U. auto.
  - intros [token [-> [C [P U]]]].
    assert (S : Split ("Bearer " +:+ token) " " = ["Bearer"; token]).
    { apply Split_two. auto. }
    rewrite S. simpl. rewrite P, (eqb_neq_false _ _ U). reflexivity.
Qed.

End BearerHeader.

(** ** Login: the password form, and what a returned account proves *)

Section LoginMore.

Variable env : Env.

(** X2.  A password login whose [authValue] does not hold exactly one
    ["/"] fails with the format error, without asking the password
    checker or the store; with exactly one, the checker is asked about
    the part before it as owner and the part after it as name. *)
Theorem login_password_format authValue password w :
  (count_sep "/" authValue <> 1%nat ->
   LoginWithUnifiedIdentity env "password" authValue password w
   = (inl "invalid username format, expected: owner/name", w))
  /\ (forall owner name,
        authValue = owner +:+ "/" +:+ name ->
        count_sep "/" owner = 0%nat -> count_sep "/" name = 0%nat ->
        validateUsernamePassword env authValue password w
        = (CheckUserPassword env (db w) owner name password "en", w)).
Proof.
  split.
  - intros C. pose proof (Split_length authValue "/") as L.
    unfold LoginWithUnifiedIdentity, go_pair, validateUsernamePassword. simpl.
    destruct (Split authValue "/") as [|owner [|name [|x parts]]]; simpl in L;
      try reflexivity.
    exfalso. apply C. lia.
  - intros owner name E C1 C2. unfold validateUsernamePassword.
    rewrite (proj2 (Split_two authValue "/" owner name)); auto.
Qed.

(** X3.  When the password checker returns neither a user nor an error,
    the login returns neither an account nor an error, and no binding is
    looked up. *)
Theorem login_password_no_user_no_error authValue password w :
  fst (validateUsernamePassword env authValue password w) = inr None ->
  LoginWithUnifiedIdentity env "password" authValue password w = (inr None, w).
Proof.
  intros V. unfold LoginWithUnifiedIdentity, go_pair. simpl.
  pose proof (validate_world env authValue password w) as W.
  destruct (validateUsernamePassword env authValue password w) as [[e|[u|]] w1];
    simpl in *; inversion V; subst. reflexivity.
Qed.

(** X4.  A login never writes to the store.  When it returns an account,
    the type is one of github, phone, email and password, the account is
    stored, and a stored binding of exactly that type carries the
    account's universal identity: for the three direct types its value is
    the [authValue] given, for password it is the [owner/name] of the
    account the checker accepted. *)
Theorem login_returns_bound_account authType authValue password w r w' :
  LoginWithUnifiedIdentity env authType authValue password w = (r, w') ->
  db w' = db w /\ tx w' = tx w
  /\ forall account, r = inr (Some account) ->
       In account (user (db w))
       /\ (authType = "github" \/ authType = "phone" \/ authType = "email"
           \/ authType = "password")
       /\ exists b, In b (user_identity_binding (db w))
                    /\ Binding.AuthType b = authType
                    /\ Binding.UniversalId b = User.UniversalId account
                    /\ (authType <> "password" -> Binding.AuthValue b = authValue)
                    /\ (authType = "password" ->
                        exists checked,
                          fst (validateUsernamePassword env authValue password w)
                          = inr (Some checked)
                          /\ Binding.AuthValue b
                             = User.Owner checked +:+ "/" +:+ User.Name checked).
Proof.
  assert (After : forall ty v (keep : bool) w0 r0 w0',
             (let '((binding, err), w1) := go_pair (GetUserIdentityBindingByAuth env ty v) w0 in
              loginWithBinding env binding (if keep then err else None) w1) = (r0, w0') ->
             db w0' = db w0 /\ tx w0' = tx w0
             /\ forall account, r0 = inr (Some account) ->
                  In account (user (db w0))
                  /\ exists b, In b (user_identity_binding (db w0))
                               /\ Binding.AuthType b = ty /\ Binding.AuthValue b = v
                               /\ Binding.UniversalId b = User.UniversalId account).
  { intros ty v keep w0 r0 w0'. unfold go_pair, GetUserIdentityBindingByAuth.
    destruct (engine_query env _ w0) as [[e|found] w1] eqn:Q.
    - pose proof (read_only_engine_query env _ _ _ _ Q) as [D [T _]].
      destruct keep; simpl; intros H; inversion H; subst;
        (split; [exact D|split; [exact T|intros a Ha; discriminate]]).
    - apply engine_query_inr in Q. destruct Q as [-> [-> _]].
      destruct keep; simpl;
        (destruct (List.find _ _) as [b|] eqn:F; simpl;
         [|intros H; inversion H; subst;
           split; [reflexivity|split; [reflexivity|intros a Ha; discriminate]]]);
        intros H;
        pose proof (read_only_getUserByUniversalId env _ _ _ _ H) as [D [T _]];
        (split; [exact D|split; [exact T|]]);
        intros account ->; apply getUserByUniversalId_inr in H;
        destruct H as [u [Hu [Fu _]]]; inversion Hu; subst u;
        apply List.find_some in Fu; destruct Fu as [Hin Huid];
        apply String.eqb_eq in Huid; simpl in *;
        (split; [exact Hin|]); exists b;
        apply first_with_some in F; destruct F as [Hb [Ht Hv]]; auto. }
  unfold LoginWithUnifiedIdentity.
  destruct (authType =? "github") eqn:E1.
  { apply String.eqb_eq in E1. subst. intros H.
    destruct (After "github" authValue true w r w' H) as [D [T K]].
    split; [exact D|split; [exact T|]]. intros account Ha.
    destruct (K account Ha) as [Hin [b [Hb [Ht [Hv Hu]]]]].
    split; [exact Hin|split; [auto|]]. exists b. repeat split; auto.
    intros X. discriminate X. }
  destruct (authType =? "phone") eqn:E2.
  { apply String.eqb_eq in E2. subst. intros H.
    destruct (After "phone" authValue true w r w' H) as [D [T K]].
    split; [exact D|split; [exact T|]]. intros account Ha.
    destruct (K account Ha) as [Hin [b [Hb [Ht [Hv Hu]]]]].
    split; [exact Hin|split; [auto|]]. exists b. repeat split; auto.
    intros X. discriminate X. }
  destruct (authType =? "email") eqn:E3.
  { apply String.eqb_eq in E3. subst. intros H.
    destruct (After "email" authValue true w r w' H) as [D [T K]].
    split; [exact D|split; [exact T|]]. intros account Ha.
    destruct (K account Ha) as [Hin [b [Hb [Ht [Hv Hu]]]]].
    split; [exact Hin|split; [auto|]]. exists b. repeat split; auto.
    intros X. discriminate X. }
  destruct (authType =? "password") eqn:E4.
  { apply String.eqb_eq in E4. subst.
    pose proof (validate_world env authValue password w) as W.
    unfold go_pair at 1.
    destruct (validateUsernamePassword env authValue password w) as [[e|[checked|]] w1];
      simpl in W; subst w1.
    - intros H. inversion H; subst.
      split; [reflexivity|split; [reflexivity|intros a Ha; discriminate]].
    - intros H.
      destruct (After "password" (User.Owner checked +:+ "/" +:+ User.Name checked)
                      false w r w' H) as [D [T K]].
      split; [exact D|split; [exact T|]]. intros account Ha.
      destruct (K account Ha) as [Hin [b [Hb [Ht [Hv Hu]]]]].
      split; [exact Hin|split; [auto|]]. exists b. repeat split; auto.
      + intros X. contradiction.
      + intros _. exists checked. auto.
    - intros H. inversion H; subst.
      split; [reflexivity|split; [reflexivity|intros a Ha; discriminate]]. }
  intros H. inversion H; subst.
  split; [reflexivity|split; [reflexivity|intros a Ha; discriminate]].
Qed.

End LoginMore.

(** ** Binding store: summary, insertion and deletion *)

Lemma find_app_last {R} (p : R -> bool) (l : list R) (x : R) :
  List.find p (l ++ [x])
  = match List.find p l with
    | Some y => Some y
    | None => if p x then Some x else None
    end.
Proof.
  induction l as [|y l IH]; simpl; [reflexivity|].
  destruct (p y); [reflexivity|exact IH].
Qed.

Lemma authInfo_fold (l : list UserIdentityBinding) :
  forall acc,
    List.fold_left authInfoStep l acc
    = (match last_of_type "phone" l with
       | Some b => Binding.AuthValue b
       | None => fst acc
       end,
       match last_of_type "github" l with
       | Some b => Binding.AuthValue b
       | None => snd acc
       end).
Proof.
  unfold last_of_type. induction l as [|b l IH]; intros [p g]; simpl; [reflexivity|].
  rewrite IH, !find_app_last. unfold authInfoStep.
  destruct (List.find (fun b => Binding.AuthType b =? "phone") (List.rev l));
    destruct (List.find (fun b => Binding.AuthType b =? "github") (List.rev l));
    destruct (Binding.AuthType b =? "phone") eqn:E1;
    destruct (Binding.AuthType b =? "github") eqn:E2; simpl; try reflexivity;
    apply String.eqb_eq in E1, E2; congruence.
Qed.

Lemma set_bindings_same (d : DB) :
  set_user_identity_binding (user_identity_binding d) d = d.
Proof. destruct d; reflexivity. Qed.

Lemma set_bindings_twice (l l' : list UserIdentityBinding) (d : DB) :
  set_user_identity_binding l (set_user_identity_binding l' d)
  = set_user_identity_binding l d.
Proof. reflexivity. Qed.

Lemma filter_drops_fresh (l : list UserIdentityBinding) (b : UserIdentityBinding) :
  ~ In (Binding.Id b) (List.map Binding.Id l) ->
  List.filter (fun r => negb (Binding.Id r =? Binding.Id b)) (l ++ [b]) = l.
Proof.
  intros Hn. rewrite List.filter_app. simpl. rewrite String.eqb_refl. simpl.
  rewrite app_nil_r. apply filter_keeps_all. apply Forall_forall. intros r Hr.
  apply negb_true_iff, String.eqb_neq. intros E. apply Hn. apply in_map_iff. eauto.
Qed.

Lemma filter_none {R} (p : R -> bool) (l : list R) :
  (forall r, In r l -> p r = false) -> List.filter p l = [].
Proof.
  induction l as [|r l IH]; intros H; simpl; [reflexivity|].
  rewrite (H r) by (left; reflexivity). apply IH. intros x Hx. apply H. right. exact Hx.
Qed.

Section StoreMore.

Variable env : Env.

(** X5.  [getUserAuthInfo] reports the value of the last phone binding
    and of the last github binding that the identity owns, in storage
    order, and the empty string for a type it does not own; bindings of
    other identities and of other types play no part.  A storage failure
    is returned as it is. *)
Theorem getUserAuthInfo_last universalId w :
  let mine := owned_by universalId (user_identity_binding (db w)) in
  (storage_fault env (calls w) = None ->
   getUserAuthInfo env universalId w
   = (inr (match last_of_type "phone" mine with
           | Some b => Binding.AuthValue b
           | None => ""
           end,
           match last_of_type "github" mine with
           | Some b => Binding.AuthValue b
           | None => ""
           end), counted w))
  /\ (forall e, storage_fault env (calls w) = Some e ->
        getUserAuthInfo env universalId w = (inl e, counted w)).
Proof.
  intros mine. unfold getUserAuthInfo. split.
  - intros F. rewrite (bind_step _ _ _ _ _ (engine_query_ok env _ w F)).
    fold (owned_by universalId (user_identity_binding (db w))). fold mine.
    rewrite authInfo_fold. reflexivity.
  - intros e F. unfold bind. rewrite (engine_query_fault env _ w e F). reflexivity.
Qed.

(** X6.  [DeleteUserIdentityBindingsByUniversalId] answers [true] when
    the identity owned a binding and [false], without error, when it
    owned none; afterwards the identity owns nothing, the bindings of
    every other identity are as before, and no other table has changed. *)
Theorem delete_bindings_of_identity universalId w :
  storage_fault env (calls w) = None ->
  let r := DeleteUserIdentityBindingsByUniversalId env universalId w in
  let l := user_identity_binding (db w) in
  fst r = inr (negb (List.length (owned_by universalId l) =? 0)%nat)
  /\ owned_by universalId (user_identity_binding (db (snd r))) = []
  /\ (forall other, other <> universalId ->
        owned_by other (user_identity_binding (db (snd r))) = owned_by other l)
  /\ same_other_tables (db w) (db (snd r)).
Proof.
  intros F r l. subst r.
  unfold DeleteUserIdentityBindingsByUniversalId, engine_exec, bind, storage_call.
  rewrite F. simpl. split; [reflexivity|]. split; [apply owned_by_purged|].
  split; [|reflexivity].
  intros other Hne. apply owned_by_other. exact Hne.
Qed.

(** X7.  Inserting a binding whose id is already a key returns the error
    of the database driver, not [false], and changes nothing.  Inserting
    one with a free id and then deleting by that id answers [true] twice
    and gives back the store as it was; deleting an id that no row has
    answers [false], without error, and changes nothing. *)
Theorem insert_then_delete binding w :
  reliable env (calls w) 2 ->
  let l := user_identity_binding (db w) in
  (In (Binding.Id binding) (List.map Binding.Id l) ->
   AddUserIdentityBinding env binding w
   = (inl (duplicate_key env binding), counted w))
  /\ (~ In (Binding.Id binding) (List.map Binding.Id l) ->
      DeleteUserIdentityBinding env (Binding.Id binding) w = (inr false, counted w)
      /\ exists w1,
           AddUserIdentityBinding env binding w = (inr true, w1)
           /\ user_identity_binding (db w1) = l ++ [binding]
           /\ DeleteUserIdentityBinding env (Binding.Id binding) w1
              = (inr true, set_db (db w) (counted w1))).
Proof.
  intros Rel l.
  pose proof (reliable_0 _ _ _ Rel) as F0. pose proof (reliable_1 _ _ _ Rel) as F1.
  split.
  - intros Hin. unfold AddUserIdentityBinding, engine_exec, bind, storage_call.
    rewrite F0. simpl. unfold insert_binding.
    destruct (existsb _ _) eqn:E; [reflexivity|].
    exfalso. apply in_map_iff in Hin. destruct Hin as [r [Hr Hin]].
    assert (X : existsb (fun r => Binding.Id r =? Binding.Id binding)
                        (user_identity_binding (db w)) = true).
    { apply existsb_exists. exists r. split; [exact Hin|]. apply String.eqb_eq. exact Hr. }
    congruence.
  - intros Hn. split.
    + unfold DeleteUserIdentityBinding, engine_exec, bind, storage_call.
      rewrite F0. simpl.
      assert (N : List.filter (fun b => Binding.Id b =? Binding.Id binding)
                              (user_identity_binding (db w)) = []).
      { apply filter_none. intros r Hr. apply String.eqb_neq. intros E.
        apply Hn. apply in_map_iff. eauto. }
      rewrite N. simpl. f_equal. unfold set_db, counted. simpl.
      rewrite filter_keeps_all.
      * f_equal. apply (set_bindings_same (db w)).
      * apply Forall_forall. intros r Hr. apply negb_true_iff, String.eqb_neq.
        intros E. apply Hn. apply in_map_iff. eauto.
    + eexists. split; [|split].
      * unfold AddUserIdentityBinding, engine_exec, bind, storage_call.
        rewrite F0. simpl. rewrite insert_binding_ok by exact Hn. reflexivity.
      * reflexivity.
      * unfold DeleteUserIdentityBinding, engine_exec, bind, storage_call. simpl.
        rewrite F1. simpl. fold l.
        rewrite (affected_rows _ (l ++ [binding]) binding)
          by (try apply in_or_app; try apply String.eqb_refl; right; left; reflexivity).
        rewrite filter_drops_fresh by exact Hn. simpl.
        unfold set_db, counted. simpl. rewrite set_bindings_twice. unfold l.
        rewrite set_bindings_same. reflexivity.
Qed.

End StoreMore.

(** ** Bind and unbind composed *)

Lemma first_with_app_new ty v (l : list UserIdentityBinding) (b : UserIdentityBinding) :
  first_with ty v l = None -> Binding.AuthType b = ty -> Binding.AuthValue b = v ->
  first_with ty v (l ++ [b]) = Some b.
Proof.
  intros N Ht Hv. unfold first_with in *. rewrite find_app_last, N, Ht, Hv, !String.eqb_refl.
  reflexivity.
Qed.

Lemma count_credentials_absent uid ty v (l : list UserIdentityBinding) :
  first_with ty v l = None ->
  count_occ AuthMethod_eq_dec (credentials_of uid l) (mkAuthMethod ty v) = 0%nat.
Proof.
  intros N. apply count_occ_not_In. intros Hin. apply In_credentials_of in Hin.
  destruct Hin as [b [Hb [_ Hc]]]. inversion Hc.
  apply (proj1 (first_with_none ty v l) N b Hb). auto.
Qed.

Lemma filter_keeps_keys (p : UserIdentityBinding -> bool) (l : list UserIdentityBinding) :
  primary_key_unique l -> primary_key_unique (List.filter p l).
Proof.
  unfold primary_key_unique. induction l as [|r l IH]; simpl; intros Pk; [constructor|].
  inversion Pk as [|k ks Hk Hks]; subst.
  destruct (p r); simpl; [|apply IH; exact Hks].
  constructor; [|apply IH; exact Hks].
  intros Hin. apply Hk. apply in_map_iff in Hin. destruct Hin as [x [Hx Hin]].
  apply List.filter_In in Hin. apply in_map_iff. exists x. tauto.
Qed.

Section BindCompose.

Variable env : Env.

(** What a successful bind has done: it found the credential under the
    same identity, or the credential was bound to nobody and one row was
    appended. *)
Lemma bind_inr_cases universalId authType authValue w b w' :
  AddUserIdentityBindingForUser env universalId authType authValue w = (inr b, w') ->
  let l := user_identity_binding (db w) in
  (first_with authType authValue l = Some b
   /\ Binding.UniversalId b = universalId /\ w' = counted w)
  \/ (first_with authType authValue l = None
      /\ b = Binding.mk (GenerateId env (ids w)) universalId authType authValue
                        (GetCurrentTime env (ticks w))
      /\ ~ In (Binding.Id b) (List.map Binding.Id l)
      /\ db w' = set_user_identity_binding (l ++ [b]) (db w)
      /\ tx w' = tx w /\ calls w' = S (S (calls w))).
Proof.
  intros H l. unfold AddUserIdentityBindingForUser in H.
  apply bind_inr in H. destruct H as [found [w1 [H1 H]]].
  apply engine_query_inr in H1. destruct H1 as [-> [-> _]].
  fold (first_with authType authValue (user_identity_binding (db w))) in H. fold l in H.
  destruct (first_with authType authValue l) as [b0|] eqn:E.
  { left. destruct (Binding.UniversalId b0 =? universalId) eqn:U; inversion H; subst.
    apply String.eqb_eq in U. auto. }
  right. split; [reflexivity|].
  apply bind_inr in H. destruct H as [id [w2 [H2 H]]]. inversion H2; subst id w2. clear H2.
  apply bind_inr in H. destruct H as [now [w3 [H3 H]]]. inversion H3; subst now w3. clear H3.
  apply bind_inr in H. destruct H as [ok [w4 [H4 H]]].
  unfold AddUserIdentityBinding, engine_exec in H4.
  apply bind_inr in H4. destruct H4 as [n [w5 [H5 H6]]].
  apply bind_inr in H5. destruct H5 as [u [w6 [H7 H8]]].
  apply storage_call_inr in H7. destruct H7 as [_ ->]. simpl in H8.
  destruct (insert_binding env _ (db w)) as [e'|[n' d]] eqn:I; [discriminate|].
  apply insert_binding_inr in I. destruct I as [Fr [-> ->]].
  inversion H8; subst. inversion H6; subst. simpl in H. inversion H; subst. simpl.
  auto.
Qed.

(** X8.  A bind that succeeded is idempotent: asked again, with the
    storage layer answering, it returns the same binding and leaves the
    store as the first call left it. *)
Theorem bind_twice universalId authType authValue w b w1 :
  AddUserIdentityBindingForUser env universalId authType authValue w = (inr b, w1) ->
  storage_fault env (calls w1) = None ->
  AddUserIdentityBindingForUser env universalId authType authValue w1 = (inr b, counted w1).
Proof.
  intros H F. apply bind_inr_cases in H. cbv zeta in H.
  destruct H as [[E [U ->]]|[E [B [_ [D _]]]]].
  - apply bind_found_same; auto.
  - apply bind_found_same; [exact F| |subst b; reflexivity].
    rewrite D. simpl. apply first_with_app_new; [exact E| |]; subst b; reflexivity.
Qed.

(** X9.  After a successful bind the credential is listed for the
    identity, as often as it was before and at least once:
    [GetUserIdentityBindingsByUniversalId] returns it exactly once unless
    the store already held it more than once for that identity. *)
Theorem bind_then_list universalId authType authValue w b w1 :
  AddUserIdentityBindingForUser env universalId authType authValue w = (inr b, w1) ->
  let c := mkAuthMethod authType authValue in
  let before := count_occ AuthMethod_eq_dec
                  (credentials_of universalId (user_identity_binding (db w))) c in
  credential b = c
  /\ count_occ AuthMethod_eq_dec
       (credentials_of universalId (user_identity_binding (db w1))) c
     = Nat.max 1 before
  /\ (storage_fault env (calls w1) = None ->
      exists listed,
        GetUserIdentityBindingsByUniversalId env universalId w1 = (inr listed, counted w1)
        /\ count_occ AuthMethod_eq_dec (List.map credential listed) c = Nat.max 1 before).
Proof.
  intros H c before.
  assert (Main : credential b = c
                 /\ count_occ AuthMethod_eq_dec
                      (credentials_of universalId (user_identity_binding (db w1))) c
                    = Nat.max 1 before).
  { apply bind_inr_cases in H. cbv zeta in H.
    destruct H as [[E [U ->]]|[E [B [_ [D _]]]]].
    - apply first_with_some in E. destruct E as [Hin [Ht Hv]].
      assert (Hc : credential b = c) by (unfold credential, c; rewrite Ht, Hv; reflexivity).
      split; [exact Hc|]. simpl.
      assert (Hin' : In c (credentials_of universalId (user_identity_binding (db w)))).
      { apply In_credentials_of. exists b. auto. }
      apply (count_occ_In AuthMethod_eq_dec) in Hin'. fold before in Hin'. fold before. lia.
    - assert (Hc : credential b = c) by (subst b; reflexivity).
      split; [exact Hc|]. rewrite D. simpl. rewrite credentials_of_app, count_occ_app.
      unfold before, c. rewrite (count_credentials_absent _ _ _ _ E).
      assert (Own : credentials_of universalId [b] = [mkAuthMethod authType authValue]).
      { subst b. unfold credentials_of, owned_by. simpl. rewrite String.eqb_refl.
        reflexivity. }
      rewrite Own. simpl. destruct (AuthMethod_eq_dec _ _); [reflexivity|contradiction]. }
  destruct Main as [Hc Hn]. split; [exact Hc|]. split; [exact Hn|].
  intros F. eexists. split.
  - unfold GetUserIdentityBindingsByUniversalId. apply engine_query_ok. exact F.
  - exact Hn.
Qed.

(** X10.  For an identity that owns a binding but none of the given
    type, binding a credential that nobody holds and then unbinding the
    type gives back the store as it was.  For an identity that owned
    nothing, the unbind is refused as the only login method and the new
    binding stays. *)
Theorem bind_then_unbind universalId authType authValue w :
  reliable env (calls w) 4 ->
  let l := user_identity_binding (db w) in
  first_with authType authValue l = None ->
  ~ In (GenerateId env (ids w)) (List.map Binding.Id l) ->
  (forall b, In b (owned_by universalId l) -> Binding.AuthType b <> authType) ->
  exists b w1,
    AddUserIdentityBindingForUser env universalId authType authValue w = (inr b, w1)
    /\ ((1 <= List.length (owned_by universalId l))%nat ->
        exists w2,
          RemoveUserIdentityBindingForUser env universalId authType w1 = (inr tt, w2)
          /\ db w2 = db w)
    /\ (owned_by universalId l = [] ->
        exists w2,
          RemoveUserIdentityBindingForUser env universalId authType w1
          = (inl "cannot delete the only login method, please bind other login methods first",
             w2)
          /\ user_identity_binding (db w2) = l ++ [b]).
Proof.
  intros Rel l N Fr NoType.
  assert (Rel2 : reliable env (calls w) 2) by (intros i Hi; apply Rel; lia).
  pose proof (bind_new env universalId authType authValue w Rel2 N Fr) as B. cbv zeta in B.
  set (b := Binding.mk (GenerateId env (ids w)) universalId authType authValue
                       (GetCurrentTime env (ticks w))) in *.
  eexists. eexists. split; [exact B|].
  set (w1 := mkWorld (set_user_identity_binding (user_identity_binding (db w) ++ [b]) (db w))
                     (tx w) (S (S (calls w))) (S (ids w)) (S (ticks w)) (unresolved w)) in *.
  assert (Rel' : reliable env (calls w1) 2).
  { intros i Hi. assert (Hi' : (2 + i < 4)%nat) by lia.
    pose proof (Rel (2 + i)%nat Hi') as R.
    replace (calls w + (2 + i))%nat with (calls w1 + i)%nat in R by (simpl; lia).
    exact R. }
  assert (Mine : owned_by universalId (user_identity_binding (db w1))
                 = owned_by universalId l ++ [b]).
  { simpl. unfold owned_by. rewrite List.filter_app. simpl. rewrite String.eqb_refl.
    reflexivity. }
  split.
  - intros L. eexists. split.
    + apply (unbind_deletes env universalId authType w1 b Rel').
      * rewrite Mine, List.length_app. simpl. lia.
      * rewrite Mine, find_app_last.
        destruct (List.find _ (owned_by universalId l)) as [x|] eqn:E.
        { apply List.find_some in E. destruct E as [Hx Ht]. apply String.eqb_eq in Ht.
          exfalso. exact (NoType x Hx Ht). }
        simpl. rewrite String.eqb_refl. reflexivity.
    + pose proof (filter_drops_fresh l b Fr) as X. unfold l in X.
      simpl in X |- *. rewrite X. exact (set_bindings_same (db w)).
  - intros Empty. eexists. split.
    + apply unbind_last; [apply (reliable_0 _ _ _ Rel')|].
      rewrite Mine, Empty. simpl. lia.
    + reflexivity.
Qed.

(** X11.  The primary key of the bindings stays unique through every
    operation that writes bindings: explicit bind, unbind, merge, the two
    deletions of the store, and, for what the session sees, creation with
    the account. *)
Theorem primary_key_kept w :
  primary_key_unique (user_identity_binding (db w)) ->
  (forall universalId authType authValue r w',
     AddUserIdentityBindingForUser env universalId authType authValue w = (r, w') ->
     primary_key_unique (user_identity_binding (db w')))
  /\ (forall universalId authType r w',
        RemoveUserIdentityBindingForUser env universalId authType w = (r, w') ->
        primary_key_unique (user_identity_binding (db w')))
  /\ (forall reservedUserToken deletedUserToken r w',
        MergeUsers env reservedUserToken deletedUserToken w = (r, w') ->
        primary_key_unique (user_identity_binding (db w')))
  /\ (forall universalId r w',
        DeleteUserIdentityBindingsByUniversalId env universalId w = (r, w') ->
        primary_key_unique (user_identity_binding (db w')))
  /\ (forall id r w',
        DeleteUserIdentityBinding env id w = (r, w') ->
        primary_key_unique (user_identity_binding (db w')))
  /\ (forall user universalId primaryProvider providerValue r w',
        primary_key_unique (user_identity_binding (session_view w)) ->
        createIdentityBindingsWithValue env user universalId primaryProvider providerValue w
        = (r, w') ->
        primary_key_unique (user_identity_binding (session_view w'))).
Proof.
  intros Pk.
  assert (Del : forall cond r w',
             (let* affected := engine_exec env (delete_where UserIdentityBindingT cond) in
              ret (negb (affected =? 0)%nat)) w = (r, w') ->
             primary_key_unique (user_identity_binding (db w'))).
  { intros cond r w'. unfold engine_exec, bind, storage_call.
    destruct (storage_fault env (calls w)); simpl; intros H; inversion H; subst; simpl;
      [exact Pk|].
    apply filter_keeps_keys. exact Pk. }
  split; [|split; [|split; [|split; [|split]]]].
  - intros uid ty v [e|b] w' H.
    + apply bind_failure_unchanged in H. rewrite H. exact Pk.
    + apply bind_inr_cases in H. cbv zeta in H.
      destruct H as [[_ [_ ->]]|[_ [_ [Fr [D _]]]]]; [exact Pk|].
      rewrite D. simpl. unfold primary_key_unique. rewrite List.map_app. simpl.
      apply List.NoDup_app; [exact Pk|repeat constructor; simpl; tauto|].
      intros k Hk [<-|[]]. exact (Fr Hk).
  - intros uid ty [e|u] w' H.
    + apply unbind_failure_unchanged in H. rewrite H. exact Pk.
    + unfold RemoveUserIdentityBindingForUser in H.
      apply bind_inr in H. destruct H as [mine [w1 [H1 H]]].
      apply engine_query_inr in H1. destruct H1 as [-> [-> _]].
      destruct (_ <=? 1)%nat; [discriminate|].
      destruct (List.find _ _) as [target|]; [|discriminate].
      apply bind_inr in H. destruct H as [ok [w2 [H2 H]]].
      unfold DeleteUserIdentityBinding, engine_exec, bind, storage_call in H2. simpl in H2.
      destruct (storage_fault env (S (calls w))); [discriminate|]. simpl in H2.
      inversion H2; subst ok w2. clear H2.
      destruct (negb _); inversion H; subst. simpl.
      apply filter_keeps_keys. exact Pk.
  - intros rTok dTok [e|res] w' H.
    + apply MergeUsers_inl in H. rewrite H. exact Pk.
    + apply MergeUsers_inr in H.
      destruct H as [rc [dc [ru [du [_ [_ [_ [_ [_ [_ [Hne H]]]]]]]]]]].
      cbv zeta in H. destruct H as [_ [Hdb [Hnd Hfresh]]]. rewrite Hdb. simpl.
      match goal with
      | |- primary_key_unique (List.filter ?p (?old ++ ?ins)) =>
          assert (All : primary_key_unique (old ++ ins))
      end.
      { unfold primary_key_unique. rewrite List.map_app.
        apply List.NoDup_app; [exact Pk|exact Hnd|].
        intros k Hk Hi. apply in_map_iff in Hi. destruct Hi as [b [<- Hb]].
        exact (Hfresh b Hb Hk). }
      apply filter_keeps_keys. exact All.
  - intros uid r w' H. exact (Del _ _ _ H).
  - intros id r w' H. exact (Del _ _ _ H).
  - intros u uid p v r w' Pks. unfold createIdentityBindingsWithValue.
    destruct (p =? ""); [intros H; inversion H; subst; exact Pks|].
    match goal with
    | |- context [let '(_, _) := ?x in _] => destruct x as [p' v']
    end.
    destruct (v' =? ""); [intros H; inversion H; subst; exact Pks|].
    unfold util_GenerateId, util_GetCurrentTime. unfold bind at 1. unfold bind at 1.
    unfold session_exec, bind, storage_call. simpl.
    destruct (storage_fault env (calls w)); simpl;
      [intros H; inversion H; subst; exact Pks|].
    unfold session_view, session_put in *. simpl.
    destruct (tx w) as [t|] eqn:T; simpl;
      (destruct (insert_binding env _ _) as [e|[n d]] eqn:I; simpl;
       [intros H; inversion H; subst; simpl; rewrite ?T; exact Pks|]);
      intros H; inversion H; subst; simpl; rewrite ?T; simpl;
      eapply insert_keeps_keys; eauto.
Qed.

End BindCompose.


(** ** Creation with the account, further *)

Lemma lower_ascii_idem (c : ascii) : lower_ascii (lower_ascii c) = lower_ascii c.
Proof.
  destruct c as [[] [] [] [] [] [] [] []]; reflexivity.
Qed.

Lemma lower_ascii_below (c : ascii) :
  (nat_of_ascii (lower_ascii c) <? 128)%nat = (nat_of_ascii c <? 128)%nat.
Proof.
  destruct c as [[] [] [] [] [] [] [] []]; reflexivity.
Qed.

Lemma lower_bytes_idem (s : string) : lower_bytes (lower_bytes s) = lower_bytes s.
Proof.
  induction s as [|c s IH]; simpl; [reflexivity|]. rewrite lower_ascii_idem, IH. reflexivity.
Qed.

Lemma isASCII_lower_bytes (s : string) : isASCII (lower_bytes s) = isASCII s.
Proof.
  induction s as [|c s IH]; simpl; [reflexivity|]. rewrite lower_ascii_below, IH. reflexivity.
Qed.

(** On a string of ASCII bytes [strings.ToLower] needs no table. *)
Lemma ToLower_ascii (env : Env) (s : string) :
  isASCII s = true -> ToLower env s = lower_bytes s.
Proof. unfold ToLower. intros ->. reflexivity. Qed.

Lemma ToLower_idem (env : Env) (s : string) :
  isASCII s = true -> ToLower env (ToLower env s) = ToLower env s.
Proof.
  intros A. rewrite (ToLower_ascii env s A).
  rewrite ToLower_ascii by (rewrite isASCII_lower_bytes; exact A).
  apply lower_bytes_idem.
Qed.

Lemma ToLower_not_empty (env : Env) (s : string) :
  isASCII s = true -> s <> "" -> ToLower env s <> "".
Proof.
  intros A. rewrite (ToLower_ascii env s A). destruct s; simpl; [contradiction|discriminate].
Qed.

Section CreationMore.

Variable env : Env.

(** The insertion that ends [createIdentityBindingsWithValue]. *)
Lemma creation_insert universalId provider value w r w' :
  (let* id := util_GenerateId env in
   let* now := util_GetCurrentTime env in
   let* _ := session_exec env
               (insert_binding env (Binding.mk id universalId (ToLower env provider) value now)) in
   ret tt) w = (r, w') ->
  (tx w = None <-> tx w' = None)
  /\ (tx w <> None -> db w' = db w)
  /\ (forall e, r = inl e -> session_view w' = session_view w /\ db w' = db w)
  /\ (r = inr tt ->
      session_view w'
      = set_user_identity_binding
          (user_identity_binding (session_view w)
           ++ [Binding.mk (GenerateId env (ids w)) universalId (ToLower env provider) value
                          (GetCurrentTime env (ticks w))])
          (session_view w)).
Proof.
  unfold util_GenerateId, util_GetCurrentTime. unfold bind at 1. unfold bind at 1.
  unfold session_exec, bind, storage_call. simpl.
  destruct (storage_fault env (calls w)); simpl.
  { intros H. inversion H; subst. unfold session_view. simpl.
    repeat split; auto; intros; discriminate. }
  unfold session_view, session_put. simpl.
  destruct (tx w) as [t|] eqn:T; simpl;
    (destruct (insert_binding env _ _) as [e|[n d]] eqn:I; simpl;
     [intros H; inversion H; subst; simpl; rewrite ?T;
      repeat split; auto; intros; discriminate|]);
    apply insert_binding_inr in I; destruct I as [_ [_ ->]];
    intros H; inversion H; subst; simpl; rewrite ?T; simpl;
    repeat split; auto; try discriminate; try congruence;
    intros; discriminate.
Qed.

(** X12.  A creation that succeeds appends exactly one binding to what
    the session sees: under the given universal identity, with the id and
    time just drawn and a non-empty value.  An explicit value is
    registered as given under [strings.ToLower] of the hint; without one,
    the hinted type's own value is, under the same type; only then the
    detected credential, under its own name.  When the hint is written in
    ASCII bytes, or the credential is the detected one, the type stored
    is not empty and [strings.ToLower] leaves it as it is.  A creation
    that fails leaves what the session sees, and the committed store, as
    they were. *)
Theorem creation_shape user universalId primaryProvider providerValue w r w' :
  createIdentityBindingsWithValue env user universalId primaryProvider providerValue w
  = (r, w') ->
  (tx w = None <-> tx w' = None)
  /\ (tx w <> None -> db w' = db w)
  /\ (forall e, r = inl e -> session_view w' = session_view w /\ db w' = db w)
  /\ (r = inr tt ->
      exists b,
        session_view w'
        = set_user_identity_binding (user_identity_binding (session_view w) ++ [b])
                                    (session_view w)
        /\ Binding.Id b = GenerateId env (ids w)
        /\ Binding.CreatedTime b = GetCurrentTime env (ticks w)
        /\ Binding.UniversalId b = universalId
        /\ Binding.AuthValue b <> ""
        /\ (providerValue <> "" ->
            Binding.AuthType b = ToLower env primaryProvider
            /\ Binding.AuthValue b = providerValue)
        /\ (providerValue = "" -> getProviderValue env user primaryProvider <> "" ->
            Binding.AuthType b = ToLower env primaryProvider
            /\ Binding.AuthValue b = getProviderValue env user primaryProvider)
        /\ (providerValue = "" -> getProviderValue env user primaryProvider = "" ->
            (Binding.AuthType b, Binding.AuthValue b) = autoDetectProviderType user)
        /\ (isASCII primaryProvider = true
            \/ (providerValue = "" /\ getProviderValue env user primaryProvider = "") ->
            Binding.AuthType b <> ""
            /\ ToLower env (Binding.AuthType b) = Binding.AuthType b)).
Proof.
  assert (Fail : forall e w0 (r0 : error + unit) w0',
             (inl e, w0) = (r0, w0') ->
             (tx w0 = None <-> tx w0' = None)
             /\ (tx w0 <> None -> db w0' = db w0)
             /\ (forall e', r0 = inl e' -> session_view w0' = session_view w0 /\ db w0' = db w0)
             /\ (r0 = inr tt -> False)).
  { intros e w0 r0 w0' H. inversion H; subst. repeat split; auto. discriminate. }
  assert (Tail : forall provider value,
             value <> "" ->
             (providerValue <> "" -> provider = primaryProvider /\ value = providerValue) ->
             (providerValue = "" -> getProviderValue env user primaryProvider <> "" ->
              provider = primaryProvider /\ value = getProviderValue env user primaryProvider) ->
             (providerValue = "" -> getProviderValue env user primaryProvider = "" ->
              (ToLower env provider, value) = autoDetectProviderType user) ->
             (isASCII primaryProvider = true
              \/ (providerValue = "" /\ getProviderValue env user primaryProvider = "") ->
              ToLower env provider <> ""
              /\ ToLower env (ToLower env provider) = ToLower env provider) ->
             (let* id := util_GenerateId env in
              let* now := util_GetCurrentTime env in
              let* _ := session_exec env
                          (insert_binding env
                             (Binding.mk id universalId (ToLower env provider) value now)) in
              ret tt) w = (r, w') ->
             (tx w = None <-> tx w' = None)
             /\ (tx w <> None -> db w' = db w)
             /\ (forall e, r = inl e -> session_view w' = session_view w /\ db w' = db w)
             /\ (r = inr tt ->
                 exists b,
                   session_view w'
                   = set_user_identity_binding (user_identity_binding (session_view w) ++ [b])
                                               (session_view w)
                   /\ Binding.Id b = GenerateId env (ids w)
                   /\ Binding.CreatedTime b = GetCurrentTime env (ticks w)
                   /\ Binding.UniversalId b = universalId
                   /\ Binding.AuthValue b <> ""
                   /\ (providerValue <> "" ->
                       Binding.AuthType b = ToLower env primaryProvider
                       /\ Binding.AuthValue b = providerValue)
                   /\ (providerValue = "" -> getProviderValue env user primaryProvider <> "" ->
                       Binding.AuthType b = ToLower env primaryProvider
                       /\ Binding.AuthValue b = getProviderValue env user primaryProvider)
                   /\ (providerValue = "" -> getProviderValue env user primaryProvider = "" ->
                       (Binding.AuthType b, Binding.AuthValue b)
                       = autoDetectProviderType user)
                   /\ (isASCII primaryProvider = true
                       \/ (providerValue = ""
                           /\ getProviderValue env user primaryProvider = "") ->
                       Binding.AuthType b <> ""
                       /\ ToLower env (Binding.AuthType b) = Binding.AuthType b))).
  { intros provider value Hv Exp Hint Auto Low H.
    apply creation_insert in H. destruct H as [T [D [E S]]].
    split; [exact T|]. split; [exact D|]. split; [exact E|].
    intros Hr. eexists. split; [apply S; exact Hr|]. simpl.
    split; [reflexivity|]. split; [reflexivity|]. split; [reflexivity|].
    split; [exact Hv|].
    split; [intros X; destruct (Exp X) as [-> ->]; auto|].
    split; [intros X Y; destruct (Hint X Y) as [-> ->]; auto|].
    split; [exact Auto|exact Low]. }
  assert (Hinted : primaryProvider <> "" ->
             isASCII primaryProvider = true ->
             ToLower env primaryProvider <> ""
             /\ ToLower env (ToLower env primaryProvider) = ToLower env primaryProvider).
  { intros P A. split; [apply ToLower_not_empty; assumption|apply ToLower_idem; exact A]. }
  unfold createIdentityBindingsWithValue.
  destruct (primaryProvider =? "") eqn:P.
  { intros H. destruct (Fail _ _ _ _ H) as [A [B [C D]]].
    split; [exact A|split; [exact B|split; [exact C|intros X; destruct (D X)]]]. }
  apply String.eqb_neq in P.
  destruct (providerValue =? "") eqn:V.
  - apply String.eqb_eq in V. subst providerValue.
    destruct (getProviderValue env user primaryProvider =? "") eqn:G.
    + pose proof G as Gs. apply String.eqb_eq in Gs.
      destruct (autoDetectProviderType user) as [ty v] eqn:AD.
      destruct (negb (ty =? "") && negb (v =? "")) eqn:C; simpl.
      * apply andb_true_iff in C. destruct C as [C1 C2].
        apply negb_true_iff in C1, C2. rewrite C2.
        apply String.eqb_neq in C1. pose proof C2 as C2'. apply String.eqb_neq in C2'.
        assert (Hne : (ty, v) <> ("", "")) by congruence.
        rewrite <- AD in Hne.
        destruct (autoDetect_non_empty env user Hne) as [_ [_ L]]. rewrite AD in L.
        simpl in L.
        intros H. apply (Tail ty v); [exact C2'|congruence|congruence| | |exact H].
        -- intros _ _. f_equal. exact L.
        -- intros _. rewrite !L. split; [exact C1|reflexivity].
      * rewrite G. intros H. destruct (Fail _ _ _ _ H) as [A [B [C' D]]].
        split; [exact A|split; [exact B|split; [exact C'|intros X; destruct (D X)]]].
    + simpl. rewrite ?G. simpl. apply String.eqb_neq in G.
      intros H.
      apply (Tail primaryProvider (getProviderValue env user primaryProvider));
        [exact G|congruence|auto|congruence| |exact H].
      intros [A|[_ X]]; [exact (Hinted P A)|contradiction].
  - simpl. rewrite ?V. simpl. apply String.eqb_neq in V.
    intros H.
    apply (Tail primaryProvider providerValue);
      [exact V|auto|congruence|congruence| |exact H].
    intros [A|[X _]]; [exact (Hinted P A)|contradiction].
Qed.

(** X13.  [getProviderValue] ignores the case of the hint for the twelve
    types it names; for any other hint it reads the account property
    [oauth_<hint>_id] with the hint spelled as given, and is empty when
    the account has no properties. *)
Theorem getProviderValue_case user providerType :
  (In (ToLower env providerType) listed_types ->
   getProviderValue env user providerType = getProviderValue env user (ToLower env providerType))
  /\ (~ In (ToLower env providerType) listed_types ->
      getProviderValue env user providerType
      = match User.Properties user with
        | Some props => property props ("oauth_" +:+ providerType +:+ "_id")
        | None => ""
        end).
Proof.
  split.
  - intros Hin. unfold getProviderValue.
    simpl in Hin.
    repeat (destruct Hin as [Hin|Hin]; [rewrite <- Hin; reflexivity|]).
    destruct Hin.
  - intros Hn. unfold getProviderValue.
    assert (N : forall t, In t listed_types -> (ToLower env providerType =? t) = false).
    { intros t Ht. apply String.eqb_neq. intros E. apply Hn. rewrite E. exact Ht. }
    rewrite !N by (simpl; tauto).
    destruct (User.Properties user) as [props|]; [|reflexivity].
    destruct (property props ("oauth_" +:+ providerType +:+ "_id") =? "") eqn:E;
      simpl; [|reflexivity].
    apply String.eqb_eq in E. rewrite E. reflexivity.
Qed.

(** X14.  A binding created with the account under the type github,
    phone or email, in whatever case the hint is written, for a value
    that nobody holds, is what the login then finds: the login of that
    type and value returns the stored account of the universal
    identity. *)
Theorem creation_then_login newUser universalId hint value password w w1 account :
  tx w = None ->
  ToLower env hint = "github" \/ ToLower env hint = "phone" \/ ToLower env hint = "email" ->
  value <> "" ->
  createIdentityBindingsWithValue env newUser universalId hint value w = (inr tt, w1) ->
  first_with (ToLower env hint) value (user_identity_binding (db w)) = None ->
  reliable env (calls w1) 2 ->
  List.find (fun u => User.UniversalId u =? universalId) (user (db w)) = Some account ->
  LoginWithUnifiedIdentity env (ToLower env hint) value password w1
  = (inr (Some account), counted (counted w1)).
Proof.
  intros T Hty Hv H N Rel U.
  assert (Hh : hint <> "").
  { intros ->. simpl in Hty. destruct Hty as [X|[X|X]]; discriminate X. }
  unfold createIdentityBindingsWithValue in H.
  rewrite (eqb_neq_false _ _ Hh) in H.
  repeat (rewrite (eqb_neq_false _ _ Hv) in H; cbv beta iota zeta in H).
  apply (creation_insert universalId hint value) in H. destruct H as [Tx [_ [_ S]]].
  specialize (S eq_refl).
  assert (T1 : tx w1 = None) by (apply Tx; exact T).
  unfold session_view in S. rewrite T, T1 in S.
  rewrite (login_direct env _ _ _ _ Hty), (lookup_ok env _ _ _ (reliable_0 _ _ _ Rel)).
  rewrite S. simpl.
  rewrite (first_with_app_new _ _ _
             (Binding.mk (GenerateId env (ids w)) universalId (ToLower env hint) value
                         (GetCurrentTime env (ticks w))) N eq_refl eq_refl). simpl.
  apply getUserByUniversalId_ok.
  - simpl. apply (reliable_1 _ _ _ Rel).
  - simpl. rewrite S. simpl. exact U.
Qed.

End CreationMore.

(** ** Merge: what it leaves alone, and login afterwards *)

Lemma owned_by_foreign uid other (l : list UserIdentityBinding) :
  uid <> other ->
  Forall (fun b => Binding.UniversalId b = other) l -> owned_by uid l = [].
Proof.
  intros Hne. unfold owned_by. induction 1 as [|b l Hb Hl IH]; simpl; [reflexivity|].
  rewrite Hb, (eqb_neq_false other uid), IH; [reflexivity|congruence].
Qed.

Lemma user_matches_identity (bean r : User.t) :
  user_matches bean r = true ->
  User.UniversalId bean = "" \/ User.UniversalId bean = User.UniversalId r.
Proof.
  unfold user_matches. intros H. apply andb_true_iff in H. destruct H as [H _].
  pose proof (proj1 (forallb_forall _ _) H User.UniversalId) as X. simpl in X.
  assert (Hin : In User.UniversalId user_columns) by (unfold user_columns; simpl; tauto).
  specialize (X Hin). apply orb_true_iff in X.
  destruct X as [X|X]; apply String.eqb_eq in X; auto.
Qed.

Lemma find_filter {R} (p q : R -> bool) (l : list R) :
  (forall x, In x l -> p x = true -> q x = true) ->
  List.find p (List.filter q l) = List.find p l.
Proof.
  induction l as [|x l IH]; intros H; simpl; [reflexivity|].
  destruct (q x) eqn:Q; simpl.
  - destruct (p x); [reflexivity|]. apply IH. intros y Hy. apply H. right. exact Hy.
  - destruct (p x) eqn:P.
    + rewrite (H x (or_introl eq_refl) P) in Q. discriminate.
    + apply IH. intros y Hy. apply H. right. exact Hy.
Qed.

Section MergeMore.

Variable env : Env.

(** The credentials of the reserved identity after a successful merge. *)
Lemma MergeUsers_reserved_credentials reservedUserToken deletedUserToken w res w' :
  MergeUsers env reservedUserToken deletedUserToken w = (inr res, w') ->
  forall c,
    In c (credentials_of (universal_id res) (user_identity_binding (db w'))) <->
    In c (credentials_of (universal_id res) (user_identity_binding (db w)))
    \/ In c (credentials_of (deleted_user_id res) (user_identity_binding (db w))).
Proof.
  intros H c. apply MergeUsers_inr in H.
  destruct H as [rc [dc [ru [du [_ [_ [_ [_ [_ [_ [Hne H]]]]]]]]]]].
  cbv zeta in H. destruct H as [-> [Hdb _]]. simpl.
  set (R := User.UniversalId ru) in *. set (D := User.UniversalId du) in *.
  set (old := user_identity_binding (db w)) in *.
  set (ins := transferred env R (credentials_of R old) (owned_by D old) (ids w) (ticks w)) in *.
  assert (Hown : Forall (fun b => Binding.UniversalId b = R) ins) by apply transferred_owner.
  assert (HcR : credentials_of R (user_identity_binding (db w'))
                = credentials_of R old ++ List.map credential ins).
  { rewrite Hdb. simpl. fold D old. fold ins.
    unfold credentials_of at 1. rewrite owned_by_other by exact Hne.
    fold (credentials_of R (old ++ ins)). rewrite credentials_of_app. f_equal.
    unfold credentials_of. rewrite owned_by_all by exact Hown. reflexivity. }
  rewrite HcR, in_app_iff. unfold ins. rewrite transferred_credentials.
  fold (credentials_of D old).
  destruct (in_dec AuthMethod_eq_dec c (credentials_of R old)); tauto.
Qed.

(** X15.  A successful merge removes from tokens, resources, payments,
    transactions and subscriptions exactly the rows whose user is the
    name of the deleted account, whatever their owner; from sessions the
    rows with its owner and name; from verification records the rows of
    its [owner/name]; from the accounts the rows that agree with it on
    its non-empty columns, the properties map among them when it has
    entries.  Every other row stays, in order; the bindings of an
    identity that takes no part in the merge are untouched; when the
    deleted universal identity is not empty, every account with another
    universal identity stays; and when the deleted account has
    properties, every account with other properties stays. *)
Theorem merge_frame reservedUserToken deletedUserToken w res w' :
  MergeUsers env reservedUserToken deletedUserToken w = (inr res, w') ->
  exists deletedUser,
    List.find (fun u => User.UniversalId u =? deleted_user_id res) (user (db w))
    = Some deletedUser
    /\ token (db w')
       = List.filter (fun r => negb (row_user r =? User.Name deletedUser)) (token (db w))
    /\ session (db w')
       = List.filter (fun r => negb ((row_owner r =? User.Owner deletedUser)
                                     && (row_name r =? User.Name deletedUser)))
                     (session (db w))
    /\ verification_record (db w')
       = List.filter (fun r => negb (row_user r =? User.GetId deletedUser))
                     (verification_record (db w))
    /\ resource (db w')
       = List.filter (fun r => negb (row_user r =? User.Name deletedUser)) (resource (db w))
    /\ payment (db w')
       = List.filter (fun r => negb (row_user r =? User.Name deletedUser)) (payment (db w))
    /\ transaction (db w')
       = List.filter (fun r => negb (row_user r =? User.Name deletedUser))
                     (transaction (db w))
    /\ subscription (db w')
       = List.filter (fun r => negb (row_user r =? User.Name deletedUser))
                     (subscription (db w))
    /\ user (db w')
       = List.filter (fun r => negb (user_matches deletedUser r)) (user (db w))
    /\ (forall other, other <> universal_id res -> other <> deleted_user_id res ->
          owned_by other (user_identity_binding (db w'))
          = owned_by other (user_identity_binding (db w)))
    /\ (deleted_user_id res <> "" ->
        forall u, In u (user (db w)) -> User.UniversalId u <> deleted_user_id res ->
                  In u (user (db w')))
    /\ (forall props u,
          User.Properties deletedUser = Some props -> props <> ∅ ->
          In u (user (db w)) -> User.Properties u <> Some props ->
          In u (user (db w'))).
Proof.
  intros H. apply MergeUsers_inr in H.
  destruct H as [rc [dc [ru [du [_ [_ [_ [Fd [_ [_ [Hne H]]]]]]]]]]].
  cbv zeta in H. destruct H as [-> [Hdb _]]. simpl.
  assert (Ed : User.UniversalId du = ClaimsUniversalId dc).
  { apply List.find_some in Fd. destruct Fd as [_ E]. apply String.eqb_eq in E. exact E. }
  exists du. rewrite Ed. split; [exact Fd|]. rewrite Hdb. simpl.
  repeat (split; [reflexivity|]). split.
  - intros other N1 N2. rewrite Ed. rewrite owned_by_other by exact N2.
    unfold owned_by. rewrite List.filter_app.
    match goal with
    | |- _ ++ ?x = _ => assert (E : x = [])
    end.
    { apply (owned_by_foreign other (User.UniversalId ru)); [exact N1|].
      apply transferred_owner. }
    rewrite E. apply app_nil_r.
  - split.
    + intros Hd u Hu Nu. apply List.filter_In. split; [exact Hu|].
      apply negb_true_iff. destruct (user_matches du u) eqn:M; [|reflexivity].
      apply user_matches_identity in M. rewrite Ed in M. destruct M as [M|M]; congruence.
    + intros props u Hp Hne' Hu Nu. apply List.filter_In. split; [exact Hu|].
      apply negb_true_iff. unfold user_matches, properties_match. rewrite Hp.
      rewrite (bool_decide_eq_false_2 _ Hne'), (bool_decide_eq_false_2 _ Nu).
      apply andb_false_r.
Qed.

(** X16.  After a successful merge on a store with unique credentials,
    a github, phone or email credential that the deleted identity held
    logs into the surviving account: the login returns a stored account
    whose universal identity is the reserved one. *)
Theorem merge_then_login reservedUserToken deletedUserToken w res w'
        authType authValue password d :
  MergeUsers env reservedUserToken deletedUserToken w = (inr res, w') ->
  credential_unique (user_identity_binding (db w)) ->
  deleted_user_id res <> "" ->
  In d (user_identity_binding (db w)) ->
  Binding.UniversalId d = deleted_user_id res ->
  Binding.AuthType d = authType -> Binding.AuthValue d = authValue ->
  authType = "github" \/ authType = "phone" \/ authType = "email" ->
  reliable env (calls w') 2 ->
  exists account,
    LoginWithUnifiedIdentity env authType authValue password w'
    = (inr (Some account), counted (counted w'))
    /\ User.UniversalId account = universal_id res
    /\ In account (user (db w)).
Proof.
  intros H Uq Hd Hin Hu Ht Hv Hty Rel.
  pose proof (merge_preserves_unique env _ _ _ _ _ H Uq) as Uq'.
  pose proof (MergeUsers_reserved_credentials _ _ _ _ _ H (mkAuthMethod authType authValue))
    as Cr.
  assert (Held : In (mkAuthMethod authType authValue)
                    (credentials_of (universal_id res) (user_identity_binding (db w')))).
  { apply Cr. right. apply In_credentials_of. exists d. split; [exact Hin|].
    split; [exact Hu|]. unfold credential. rewrite Ht, Hv. reflexivity. }
  apply In_credentials_of in Held. destruct Held as [b [Hb [Hbu Hbc]]].
  unfold credential in Hbc. injection Hbc as Hbt Hbv.
  destruct (first_with authType authValue (user_identity_binding (db w'))) as [b'|] eqn:F.
  2:{ exfalso. apply (proj1 (first_with_none _ _ _) F b Hb). auto. }
  pose proof (first_with_some _ _ _ _ F) as [Hb' [Hbt' Hbv']].
  assert (Hbu' : Binding.UniversalId b' = universal_id res).
  { rewrite <- Hbu. apply Uq'; auto; congruence. }
  apply MergeUsers_inr in H.
  destruct H as [rc [dc [ru [du [_ [_ [Fr [Fd [_ [_ [Hne H]]]]]]]]]]].
  cbv zeta in H. destruct H as [-> [Hdb _]]. simpl in *.
  assert (Er : User.UniversalId ru = ClaimsUniversalId rc).
  { apply List.find_some in Fr. destruct Fr as [_ E]. apply String.eqb_eq in E. exact E. }
  exists ru. split; [|split; [reflexivity|apply List.find_some in Fr; tauto]].
  rewrite (login_direct env _ _ _ _ Hty), (lookup_ok env _ _ _ (reliable_0 _ _ _ Rel)).
  rewrite F. simpl. rewrite Hbu'.
  apply getUserByUniversalId_ok; [simpl; apply (reliable_1 _ _ _ Rel)|].
  simpl. rewrite Hdb. simpl. rewrite find_filter; [rewrite Er; exact Fr|].
  intros x Hx Px. apply String.eqb_eq in Px. apply negb_true_iff.
  destruct (user_matches du x) eqn:M; [|reflexivity].
  apply user_matches_identity in M. destruct M as [M|M]; congruence.
Qed.

End MergeMore.

(** ** The identity endpoints *)

Section Endpoints.

Variable env : Env.

(** X17.  An identity endpoint that answers with an error has left the
    store as it was: the merge, bind and unbind endpoints whatever the
    reason of the error, and the information endpoint, which never
    writes, whatever it answers. *)
Theorem endpoint_errors_leave_store :
  (forall authHeader requestBody w msg w',
     ApiController_MergeUsers env authHeader requestBody w = (ResponseError msg, w') ->
     db w' = db w)
  /\ (forall authHeader w response w',
        ApiController_GetIdentityInfo env authHeader w = (response, w') -> db w' = db w)
  /\ (forall authHeader requestBody w msg w',
        ApiController_BindAuthMethod env authHeader requestBody w = (IdentityError msg, w') ->
        db w' = db w)
  /\ (forall authHeader requestBody w msg w',
        ApiController_UnbindAuthMethod env authHeader requestBody w = (IdentityError msg, w') ->
        db w' = db w).
Proof.
  split; [|split; [|split]].
  - intros h body w msg w'. unfold ApiController_MergeUsers.
    destruct (h =? ""); [intros H; inversion H; reflexivity|].
    destruct (Split h " ") as [|scheme [|token [|x parts]]];
      try (intros H; inversion H; reflexivity).
    destruct (negb (scheme =? "Bearer")); [intros H; inversion H; reflexivity|].
    destruct (ParseJwtTokenByApplication env token); [intros H; inversion H; reflexivity|].
    destruct body as [e|request]; [intros H; inversion H; reflexivity|].
    destruct (_ || _); [intros H; inversion H; reflexivity|].
    destruct (ParseJwtTokenByApplication env (ReservedUserToken request));
      [intros H; inversion H; reflexivity|].
    destruct (ParseJwtTokenByApplication env (DeletedUserToken request));
      [intros H; inversion H; reflexivity|].
    destruct (_ && _); [intros H; inversion H; reflexivity|].
    destruct (MergeUsers env _ _ w) as [[err|result] w1] eqn:M; intros H; inversion H; subst.
    eapply MergeUsers_inl. exact M.
  - intros h w response w'. unfold ApiController_GetIdentityInfo.
    destruct (bearerIdentity env h) as [msg|claims]; [intros H; inversion H; reflexivity|].
    destruct (GetUserIdentityBindingsByUniversalId env _ w) as [[err|bs] w1] eqn:G;
      intros H; inversion H; subst;
      apply read_only_engine_query in G; tauto.
  - intros h body w msg w'. unfold ApiController_BindAuthMethod.
    destruct (bearerIdentity env h) as [m|claims]; [intros H; inversion H; reflexivity|].
    destruct body as [e|request]; [intros H; inversion H; reflexivity|].
    destruct (_ || _); [intros H; inversion H; reflexivity|].
    destruct (AddUserIdentityBindingForUser env _ _ _ w) as [[err|b] w1] eqn:B;
      intros H; inversion H; subst.
    eapply bind_failure_unchanged. exact B.
  - intros h body w msg w'. unfold ApiController_UnbindAuthMethod.
    destruct (bearerIdentity env h) as [m|claims]; [intros H; inversion H; reflexivity|].
    destruct body as [e|request]; [intros H; inversion H; reflexivity|].
    destruct (_ =? ""); [intros H; inversion H; reflexivity|].
    destruct (RemoveUserIdentityBindingForUser env _ _ w) as [[err|u] w1] eqn:U;
      intros H; inversion H; subst.
    eapply unbind_failure_unchanged. exact U.
Qed.

(** X18.  After the bind endpoint has answered with a binding, the
    information endpoint, called with the same header, lists that
    credential among the methods bound to the caller's universal
    identity; the binding answered is the type and value of the
    request. *)
Theorem bind_endpoint_then_info authHeader request claims w c w1 :
  bearerIdentity env authHeader = inr claims ->
  ApiController_BindAuthMethod env authHeader (inr request) w = (BindOk c, w1) ->
  storage_fault env (calls w1) = None ->
  c = mkAuthMethod (RequestAuthType request) (RequestAuthValue request)
  /\ exists methods,
       ApiController_GetIdentityInfo env authHeader w1
       = (IdentityInfo (ClaimsUniversalId claims) methods, counted w1)
       /\ In c methods
       /\ methods = credentials_of (ClaimsUniversalId claims) (user_identity_binding (db w1)).
Proof.
  intros Hb H F. unfold ApiController_BindAuthMethod in H. rewrite Hb in H.
  destruct (_ || _); [discriminate|].
  destruct (AddUserIdentityBindingForUser env _ _ _ w) as [[err|b] w2] eqn:B;
    inversion H; subst. clear H.
  apply bind_inr_cases in B. cbv zeta in B.
  assert (Owned : In b (user_identity_binding (db w1))
                  /\ Binding.UniversalId b = ClaimsUniversalId claims
                  /\ Binding.AuthType b = RequestAuthType request
                  /\ Binding.AuthValue b = RequestAuthValue request).
  { destruct B as [[E [U ->]]|[E [B [_ [D _]]]]].
    - apply first_with_some in E. simpl. tauto.
    - rewrite D. simpl. subst b. simpl. split; [apply in_or_app; simpl; auto|auto]. }
  destruct Owned as [Hin [Hu [Ht Hv]]].
  split; [rewrite Ht, Hv; reflexivity|].
  eexists. split; [|split; [|reflexivity]].
  - unfold ApiController_GetIdentityInfo. rewrite Hb.
    unfold GetUserIdentityBindingsByUniversalId. rewrite (engine_query_ok env _ w1 F).
    reflexivity.
  - apply In_credentials_of. exists b. auto.
Qed.

End Endpoints.

(** ** The custom identity provider *)

Lemma mapStep_other (d : gmap string Value) (k v x : string) :
  x <> k -> mapStep d (k, v) !! x = d !! x.
Proof.
  intros N. unfold mapStep. destruct (v =? "")%string;
    apply lookup_insert_ne; congruence.
Qed.

Lemma mapStep_key (d : gmap string Value) (k v : string) :
  mapStep d (k, v) !! k = Some (source_value d v).
Proof.
  unfold mapStep, source_value. destruct (v =? "")%string;
    apply lookup_insert_eq.
Qed.

Lemma mapUserInfo_other (visit : list (string * string)) :
  forall (d : gmap string Value) (x : string),
    x ∉ visit.*1 -> mapUserInfo visit d !! x = d !! x.
Proof.
  induction visit as [|[k v] rest IH]; intros d x N; [reflexivity|].
  simpl in N. apply not_elem_of_cons in N as [N1 N2].
  unfold mapUserInfo in *. simpl. rewrite (IH _ x N2).
  apply mapStep_other. exact N1.
Qed.

Lemma source_value_agree (d d0 : gmap string Value) (v : string) :
  (v <> "" -> index d v = index d0 v) -> source_value d v = source_value d0 v.
Proof.
  intros A. unfold source_value. destruct (String.eqb_spec v ""); [reflexivity|].
  apply A. assumption.
Qed.

(** The loop in closed form, for an order without repeated keys in which
    no entry reads what another one writes. *)
Lemma mapUserInfo_fold (d0 : gmap string Value) (visit : list (string * string)) :
  forall d : gmap string Value,
    base.NoDup visit.*1 ->
    (forall k v k' v', (k, v) ∈ visit -> (k', v') ∈ visit -> k <> k' -> v' <> k) ->
    (forall k v, (k, v) ∈ visit -> v <> "" -> index d v = index d0 v) ->
    forall x,
      mapUserInfo visit d !! x
      = match (list_to_map visit : gmap string string) !! x with
        | Some v => Some (source_value d0 v)
        | None => d !! x
        end.
Proof.
  induction visit as [|[k v] rest IH]; intros d ND Ind Agree x.
  - reflexivity.
  - simpl in ND. apply list.NoDup_cons in ND as [Nk ND].
    assert (Fresh : forall k' v', (k', v') ∈ rest -> k <> k').
    { intros k' v' I E. subst k'. apply Nk.
      apply list_elem_of_fmap. exists (k, v'). auto. }
    change (mapUserInfo ((k, v) :: rest) d) with (mapUserInfo rest (mapStep d (k, v))).
    rewrite (IH (mapStep d (k, v)) ND).
    + rewrite list_to_map_cons.
      destruct (decide (x = k)) as [->|Nx].
      * rewrite lookup_insert_eq.
        rewrite (not_elem_of_list_to_map_1 rest k Nk).
        rewrite mapStep_key. f_equal. apply source_value_agree.
        apply (Agree k v). left.
      * rewrite lookup_insert_ne by congruence.
        destruct (list_to_map rest !! x); [reflexivity|].
        apply mapStep_other. exact Nx.
    + intros a b a' b' I I'. apply (Ind a b a' b'); right; assumption.
    + intros k' v' I Nv.
      assert (Nvk : v' <> k).
      { apply (Ind k v k' v'); [left|right; exact I|exact (Fresh k' v' I)]. }
      unfold index. rewrite (mapStep_other d k v v' Nvk).
      apply (Agree k' v'); [right; exact I|exact Nv].
Qed.

Lemma sources_untouched_spec (UserMapping : gmap string string) :
  sources_untouched UserMapping = true ->
  forall k v k' v',
    UserMapping !! k = Some v -> UserMapping !! k' = Some v' -> k <> k' -> v' <> k.
Proof.
  unfold sources_untouched. rewrite forallb_forall. intros F k v k' v' L L' N E.
  subst v'.
  specialize (F (k', k)). simpl in F.
  assert (I : In (k', k) (map_to_list UserMapping)).
  { apply list_elem_of_In. apply elem_of_map_to_list. exact L'. }
  specialize (F I). apply orb_true_iff in F as [F|F].
  - apply String.eqb_eq in F. congruence.
  - apply negb_true_iff in F. apply bool_decide_eq_false in F.
    apply F. exists v. exact L.
Qed.

Lemma mapUserInfo_closed (UserMapping : gmap string string)
      (visit : list (string * string)) (dataMap : gmap string Value) :
  visit ≡ₚ map_to_list UserMapping ->
  sources_untouched UserMapping = true ->
  forall x,
    mapUserInfo visit dataMap !! x
    = match UserMapping !! x with
      | Some v => Some (source_value dataMap v)
      | None => dataMap !! x
      end.
Proof.
  intros P U x.
  assert (ND : base.NoDup visit.*1).
  { rewrite P. apply NoDup_fst_map_to_list. }
  assert (In_M : forall k v, (k, v) ∈ visit <-> UserMapping !! k = Some v).
  { intros k v. rewrite P. apply elem_of_map_to_list. }
  rewrite (mapUserInfo_fold dataMap visit dataMap ND).
  - rewrite (list_to_map_proper visit (map_to_list UserMapping) ND P).
    rewrite list_to_map_to_list. reflexivity.
  - intros k v k' v' I I'. apply In_M in I. apply In_M in I'.
    exact (sources_untouched_spec UserMapping U k v k' v' I I').
  - reflexivity.
Qed.

Section Provider.

Variable ienv : IdpEnv.

(** X19.  When no entry of the user mapping reads a key that another entry
    writes, the mapping loop has a result that does not depend on the
    order in which Go ranges over the map: every key of the mapping ends
    up holding the response's value under the entry's source (the empty
    string for an empty source, nil for a source the response lacks),
    every other key keeps its value, and [processUserInfoResponse]
    returns the same for every order. *)
Theorem mapping_order_free (UserMapping : gmap string string)
        (visit : list (string * string)) (dataMap : gmap string Value) :
  visit ≡ₚ map_to_list UserMapping ->
  sources_untouched UserMapping = true ->
  (forall x,
      mapUserInfo visit dataMap !! x
      = match UserMapping !! x with
        | Some v => Some (source_value dataMap v)
        | None => dataMap !! x
        end)
  /\ (forall visit',
         visit' ≡ₚ map_to_list UserMapping ->
         processUserInfoResponse ienv UserMapping visit' (Some dataMap)
         = processUserInfoResponse ienv UserMapping visit (Some dataMap)).
Proof.
  intros P U. split.
  - exact (mapUserInfo_closed UserMapping visit dataMap P U).
  - intros visit' P'.
    assert (E : mapUserInfo visit' dataMap = mapUserInfo visit dataMap).
    { apply map_eq. intros x.
      rewrite (mapUserInfo_closed UserMapping visit' dataMap P' U).
      rewrite (mapUserInfo_closed UserMapping visit dataMap P U).
      reflexivity. }
    unfold processUserInfoResponse. rewrite E. reflexivity.
Qed.

(** X20.  When an entry [k -> v] of the user mapping reads a key [v] that
    another entry [v -> v2] writes, the result depends on the order in
    which Go ranges over the map: in one order [k] receives the
    response's own value under [v], in another the value that the other
    entry has just stored there. *)
Theorem mapping_order_matters (UserMapping : gmap string string)
        (dataMap : gmap string Value) (k v v2 : string) :
  UserMapping !! k = Some v ->
  v <> k ->
  v <> "" ->
  UserMapping !! v = Some v2 ->
  index dataMap v <> source_value dataMap v2 ->
  exists visit1 visit2,
    visit1 ≡ₚ map_to_list UserMapping
    /\ visit2 ≡ₚ map_to_list UserMapping
    /\ mapUserInfo visit1 dataMap !! k = Some (index dataMap v)
    /\ mapUserInfo visit2 dataMap !! k = Some (source_value dataMap v2)
    /\ mapUserInfo visit1 dataMap <> mapUserInfo visit2 dataMap.
Proof.
  intros Lk Nvk Nv Lv Diff.
  assert (I1 : (k, v) ∈ map_to_list UserMapping) by (apply elem_of_map_to_list; exact Lk).
  assert (I2 : (v, v2) ∈ map_to_list UserMapping) by (apply elem_of_map_to_list; exact Lv).
  apply elem_of_Permutation in I1 as [rest1 P1].
  rewrite P1 in I2. apply elem_of_cons in I2 as [I2|I2]; [congruence|].
  apply elem_of_Permutation in I2 as [rest2 P2].
  assert (ND : base.NoDup ((k, v) :: (v, v2) :: rest2).*1).
  { rewrite <- P2, <- P1. apply NoDup_fst_map_to_list. }
  simpl in ND. apply list.NoDup_cons in ND as [Nk ND].
  apply not_elem_of_cons in Nk as [_ Nk].
  assert (V1 : mapUserInfo ((k, v) :: (v, v2) :: rest2) dataMap !! k
               = Some (index dataMap v)).
  { change (mapUserInfo ((k, v) :: (v, v2) :: rest2) dataMap)
      with (mapUserInfo rest2 (mapStep (mapStep dataMap (k, v)) (v, v2))).
    rewrite (mapUserInfo_other rest2 _ k Nk).
    rewrite mapStep_other by congruence.
    rewrite mapStep_key. unfold source_value.
    destruct (String.eqb_spec v ""); [contradiction|reflexivity]. }
  assert (V2 : mapUserInfo ((v, v2) :: (k, v) :: rest2) dataMap !! k
               = Some (source_value dataMap v2)).
  { change (mapUserInfo ((v, v2) :: (k, v) :: rest2) dataMap)
      with (mapUserInfo rest2 (mapStep (mapStep dataMap (v, v2)) (k, v))).
    rewrite (mapUserInfo_other rest2 _ k Nk).
    rewrite mapStep_key. unfold source_value at 1.
    destruct (String.eqb_spec v ""); [contradiction|].
    unfold index. rewrite mapStep_key. reflexivity. }
  exists ((k, v) :: (v, v2) :: rest2), ((v, v2) :: (k, v) :: rest2).
  split; [|split; [|split; [exact V1|split; [exact V2|]]]].
  - rewrite P1, P2. reflexivity.
  - rewrite P1, P2. apply perm_swap.
  - intros E. rewrite E in V1. rewrite V1 in V2. congruence.
Qed.

(** X21.  [executeUserInfoRequest] returns a user exactly when the
    response was read and decoded to a map that is not nil, the map has
    no key ["errcode"] (whatever value the key would hold), the user
    mapping has the three keys ["id"], ["username"] and ["displayName"],
    the mapped id parses and the mapped object decodes; the user then
    holds the decoded fields.  The call panics exactly when the response
    decoded to the nil map, as it does for the JSON document [null],
    and the user mapping has the three keys: the mapping loop then
    assigns to a nil map. *)
Theorem user_info_returned (UserMapping : gmap string string)
        (visit : list (string * string))
        (response : error + option (gmap string Value)) :
  (forall info,
      executeUserInfoRequest ienv UserMapping visit response = Returns (inr info)
      <-> exists dataMap id custom,
          response = inr (Some dataMap)
          /\ dataMap !! "errcode" = None
          /\ (forall field, In field requiredFields -> is_Some (UserMapping !! field))
          /\ ParseIdToString ienv (index (mapUserInfo visit dataMap) "id") = inr id
          /\ Decode ienv (<["id" := Text id]> (mapUserInfo visit dataMap)) = inr custom
          /\ info = UserInfo.mk (CustomUserInfo.Id custom) (CustomUserInfo.Username custom)
                                (CustomUserInfo.DisplayName custom)
                                (CustomUserInfo.Email custom)
                                (CustomUserInfo.AvatarUrl custom))
  /\ (visit ≡ₚ map_to_list UserMapping ->
      (executeUserInfoRequest ienv UserMapping visit response = Panics
       <-> response = inr None
           /\ forall field, In field requiredFields -> is_Some (UserMapping !! field))).
Proof.
  assert (Found : forall field,
             List.find (fun f => negb (bool_decide (is_Some (UserMapping !! f))))
                       requiredFields = Some field ->
             ~ (forall f, In f requiredFields -> is_Some (UserMapping !! f))).
  { intros field F Req. apply find_some in F as [I N]. apply negb_true_iff in N.
    apply bool_decide_eq_false in N. exact (N (Req field I)). }
  assert (NotFound :
             List.find (fun f => negb (bool_decide (is_Some (UserMapping !! f))))
                       requiredFields = None ->
             forall f, In f requiredFields -> is_Some (UserMapping !! f)).
  { intros F field I. pose proof (find_none _ _ F field I) as N. simpl in N.
    apply negb_false_iff in N. apply bool_decide_eq_true in N. exact N. }
  unfold executeUserInfoRequest, processUserInfoResponse. split.
  - intros info. split.
    + intros H. destruct response as [err|[dataMap|]]; [discriminate| |].
      * cbn [read] in H. destruct (dataMap !! "errcode") eqn:Ec.
        { destruct (dataMap !! "errmsg"); discriminate. }
        destruct (List.find _ requiredFields) eqn:F; [discriminate|].
        destruct (ParseIdToString ienv _) as [err|id] eqn:Pid; [discriminate|].
        destruct (Decode ienv _) as [err|custom] eqn:D; [discriminate|].
        exists dataMap, id, custom.
        split; [reflexivity|]. split; [exact Ec|]. split; [exact (NotFound eq_refl)|].
        split; [exact Pid|]. split; [exact D|]. congruence.
      * cbn [read] in H. destruct (List.find _ requiredFields); [discriminate|].
        destruct visit; [|discriminate].
        destruct (ParseIdToString ienv Null); discriminate.
    + intros (dataMap & id & custom & -> & Ec & Req & Pid & D & ->).
      cbn [read]. rewrite Ec.
      destruct (List.find _ requiredFields) as [field|] eqn:F;
        [destruct (Found field eq_refl Req)|].
      rewrite Pid. rewrite D. reflexivity.
  - intros P. split.
    + intros H. destruct response as [err|[dataMap|]]; [discriminate| |].
      * cbn [read] in H. destruct (dataMap !! "errcode").
        { destruct (dataMap !! "errmsg"); discriminate. }
        destruct (List.find _ requiredFields); [discriminate|].
        destruct (ParseIdToString ienv _); [discriminate|].
        destruct (Decode ienv _); discriminate.
      * cbn [read] in H. destruct (List.find _ requiredFields) eqn:F; [discriminate|].
        split; [reflexivity|exact (NotFound eq_refl)].
    + intros [-> Req]. cbn [read].
      destruct (List.find _ requiredFields) as [field|] eqn:F;
        [destruct (Found field eq_refl Req)|].
      destruct visit as [|entry rest]; [|reflexivity].
      exfalso. destruct (Req "id") as [v Hv]; [simpl; auto|].
      apply elem_of_map_to_list in Hv. rewrite <- P in Hv.
      apply elem_of_nil in Hv. exact Hv.
Qed.

(** X22.  A user mapping that lacks a required key is refused with the
    name of the first missing one in the order id, username, displayName,
    before the response is looked at and whatever the parser and the
    decoder would say; a key mapped to the empty string counts as
    present. *)
Theorem required_mapping_first (UserMapping : gmap string string)
        (visit : list (string * string)) (dataMap : option (gmap string Value))
        (before after : list string) (field : string) :
  requiredFields = before ++ field :: after ->
  (forall f, In f before -> is_Some (UserMapping !! f)) ->
  UserMapping !! field = None ->
  processUserInfoResponse ienv UserMapping visit dataMap
  = Returns (inl ("cannot find " +:+ field
         +:+ " in userMapping, please check your configuration in custom provider")).
Proof.
  intros Split Before Missing. unfold processUserInfoResponse. rewrite Split.
  assert (F : List.find
                (fun f => negb (bool_decide (is_Some (UserMapping !! f))))
                (before ++ field :: after) = Some field).
  { clear Split. induction before as [|f before IH]; simpl.
    - rewrite Missing.
      rewrite bool_decide_eq_false_2; [reflexivity|].
      intros [x X]. discriminate.
    - rewrite bool_decide_eq_true_2 by (apply Before; left; reflexivity).
      simpl. apply IH. intros g G. apply Before. right. exact G. }
  rewrite F. reflexivity.
Qed.

End Provider.

(** ** The mock SMS service *)

(** X23.  The SMS handler reports success only for a POST request, and
    then with a non-empty phone number and code and the current time; the
    phone number is the form's [phoneNumber] or, when that is empty, its
    [phone], and with an empty form the body's [PhoneNumber] or, when that
    is empty, its [Phone].  As soon as the form has any key the JSON body
    plays no part in the answer.  An empty phone number is reported before
    an empty code. *)
Theorem sms_handler_answer (now : Z) (r : SMSHttpRequest) :
  (forall status resp,
      sendSMSHandler now r = (status, Some resp) ->
      Success resp = true ->
      status = 200%nat /\ Method r = "POST"
      /\ exists phone code,
          Data resp = Some (mkSMSData phone code now)
          /\ phone <> "" /\ code <> ""
          /\ (Form r <> ∅ ->
              code = FormValue r "code"
              /\ (FormValue r "phoneNumber" <> "" -> phone = FormValue r "phoneNumber")
              /\ (FormValue r "phoneNumber" = "" -> phone = FormValue r "phone"))
          /\ (Form r = ∅ ->
              code = Code (decodedBody r)
              /\ (PhoneNumber (decodedBody r) <> "" -> phone = PhoneNumber (decodedBody r))
              /\ (PhoneNumber (decodedBody r) = "" -> phone = Phone (decodedBody r))))
  /\ (Form r <> ∅ -> forall body, sendSMSHandler now (with_body r body) = sendSMSHandler now r)
  /\ (forall status resp,
         sendSMSHandler now r = (status, Some resp) ->
         Message resp = "Verification code cannot be empty" ->
         status = 400%nat /\ Success resp = false
         /\ (Form r <> ∅ -> FormValue r "phoneNumber" <> "" \/ FormValue r "phone" <> "")
         /\ (Form r = ∅ ->
             PhoneNumber (decodedBody r) <> "" \/ Phone (decodedBody r) <> "")).
Proof.
  split; [|split].
  - intros status resp H S. unfold sendSMSHandler in H.
    destruct (String.eqb_spec (Method r) "OPTIONS") as [|NO]; [discriminate|].
    destruct (String.eqb_spec (Method r) "POST") as [MP|NP]; simpl in H;
      [|inversion H; subst; discriminate].
    destruct (decide (Form r = ∅)) as [FE|FN].
    + rewrite bool_decide_eq_true_2 in H by exact FE. simpl in H.
      destruct (String.eqb_spec (PhoneNumber (decodedBody r)) "") as [PE|PN]; simpl in H.
      * destruct (String.eqb_spec (Phone (decodedBody r)) "") as [QE|QN];
          [inversion H; subst; discriminate|].
        destruct (String.eqb_spec (Code (decodedBody r)) "") as [CE|CN];
          [inversion H; subst; discriminate|].
        inversion H; subst. simpl. split; [reflexivity|]. split; [exact MP|].
        exists (Phone (decodedBody r)), (Code (decodedBody r)).
        split; [reflexivity|]. split; [exact QN|]. split; [exact CN|].
        split; [intros X; contradiction|]. intros _.
        split; [reflexivity|]. split; [intros X; contradiction|reflexivity].
      * destruct (String.eqb_spec (PhoneNumber (decodedBody r)) "") as [|_];
          [contradiction|].
        destruct (String.eqb_spec (Code (decodedBody r)) "") as [CE|CN];
          [inversion H; subst; discriminate|].
        inversion H; subst. simpl. split; [reflexivity|]. split; [exact MP|].
        exists (PhoneNumber (decodedBody r)), (Code (decodedBody r)).
        split; [reflexivity|]. split; [exact PN|]. split; [exact CN|].
        split; [intros X; contradiction|]. intros _.
        split; [reflexivity|]. split; [reflexivity|intros X; contradiction].
    + rewrite bool_decide_eq_false_2 in H by exact FN. simpl in H.
      destruct (String.eqb_spec (FormValue r "phoneNumber") "") as [PE|PN]; simpl in H.
      * destruct (String.eqb_spec (FormValue r "phone") "") as [QE|QN];
          [inversion H; subst; discriminate|].
        destruct (String.eqb_spec (FormValue r "code") "") as [CE|CN];
          [inversion H; subst; discriminate|].
        inversion H; subst. simpl. split; [reflexivity|]. split; [exact MP|].
        exists (FormValue r "phone"), (FormValue r "code").
        split; [reflexivity|]. split; [exact QN|]. split; [exact CN|].
        split; [|intros X; contradiction]. intros _.
        split; [reflexivity|]. split; [intros X; contradiction|reflexivity].
      * destruct (String.eqb_spec (FormValue r "phoneNumber") "") as [|_];
          [contradiction|].
        destruct (String.eqb_spec (FormValue r "code") "") as [CE|CN];
          [inversion H; subst; discriminate|].
        inversion H; subst. simpl. split; [reflexivity|]. split; [exact MP|].
        exists (FormValue r "phoneNumber"), (FormValue r "code").
        split; [reflexivity|]. split; [exact PN|]. split; [exact CN|].
        split; [|intros X; contradiction]. intros _.
        split; [reflexivity|]. split; [reflexivity|intros X; contradiction].
  - intros FN body. unfold sendSMSHandler, with_body, FormValue. simpl.
    rewrite bool_decide_eq_false_2 by exact FN. reflexivity.
  - intros status resp H Msg. unfold sendSMSHandler in H.
    destruct (String.eqb_spec (Method r) "OPTIONS") as [|NO]; [discriminate|].
    destruct (String.eqb_spec (Method r) "POST") as [MP|NP]; simpl in H;
      [|inversion H; subst; discriminate].
    destruct (decide (Form r = ∅)) as [FE|FN].
    + rewrite bool_decide_eq_true_2 in H by exact FE. simpl in H.
      destruct (String.eqb_spec (PhoneNumber (decodedBody r)) "") as [PE|PN]; simpl in H.
      * destruct (String.eqb_spec (Phone (decodedBody r)) "") as [QE|QN];
          [inversion H; subst; discriminate|].
        destruct (String.eqb_spec (Code (decodedBody r)) "") as [CE|CN];
          [|inversion H; subst; discriminate].
        inversion H; subst. simpl. split; [reflexivity|]. split; [reflexivity|].
        split; [intros X; contradiction|]. intros _. right. exact QN.
      * destruct (String.eqb_spec (PhoneNumber (decodedBody r)) "") as [|_];
          [contradiction|].
        destruct (String.eqb_spec (Code (decodedBody r)) "") as [CE|CN];
          [|inversion H; subst; discriminate].
        inversion H; subst. simpl. split; [reflexivity|]. split; [reflexivity|].
        split; [intros X; contradiction|]. intros _. left. exact PN.
    + rewrite bool_decide_eq_false_2 in H by exact FN. simpl in H.
      destruct (String.eqb_spec (FormValue r "phoneNumber") "") as [PE|PN]; simpl in H.
      * destruct (String.eqb_spec (FormValue r "phone") "") as [QE|QN];
          [inversion H; subst; discriminate|].
        destruct (String.eqb_spec (FormValue r "code") "") as [CE|CN];
          [|inversion H; subst; discriminate].
        inversion H; subst. simpl. split; [reflexivity|]. split; [reflexivity|].
        split; [|intros X; contradiction]. intros _. right. exact QN.
      * destruct (String.eqb_spec (FormValue r "phoneNumber") "") as [|_];
          [contradiction|].
        destruct (String.eqb_spec (FormValue r "code") "") as [CE|CN];
          [|inversion H; subst; discriminate].
        inversion H; subst. simpl. split; [reflexivity|]. split; [reflexivity|].
        split; [|intros X; contradiction]. intros _. left. exact PN.
Qed.

(** * The further properties at concrete inputs *)

Import Quiet ProviderExample.

Lemma store2_unique : credential_unique (user_identity_binding store2).
Proof.
  intros b1 b2 [<-|[<-|[]]] [<-|[<-|[]]] T V; try reflexivity; discriminate.
Qed.

(** [alice]'s token after ["Bearer "]. *)
Lemma bearer_header_accepted_witness :
  bearerIdentity env0 "Bearer tokA" = inr (mkClaims alice "uid-A").
Proof.
  apply (proj2 (bearer_header_accepted env0 "Bearer tokA" (mkClaims alice "uid-A"))).
  exists "tokA". split; [reflexivity|]. split; [reflexivity|].
  split; [reflexivity|discriminate].
Defined.

(** A name without an owner, and [org/alice]. *)
Lemma login_password_format_witness :
  LoginWithUnifiedIdentity env0 "password" "alice" "secret" world0
  = (inl "invalid username format, expected: owner/name", world0)
  /\ validateUsernamePassword env0 "org/alice" "secret" world0
     = (CheckUserPassword env0 (db world0) "org" "alice" "secret" "en", world0).
Proof.
  destruct (login_password_format env0 "alice" "secret" world0) as [Format _].
  destruct (login_password_format env0 "org/alice" "secret" world0) as [_ Asked].
  split.
  - apply Format. simpl. lia.
  - apply (Asked "org" "alice"); reflexivity.
Defined.

(** The checker that knows nobody. *)
Lemma login_password_no_user_no_error_witness :
  LoginWithUnifiedIdentity env_silent "password" "org/alice" "secret" world0
  = (inr None, world0).
Proof.
  apply (login_password_no_user_no_error env_silent "org/alice" "secret" world0).
  reflexivity.
Defined.

(** [alice] logs in by email. *)
Lemma login_returns_bound_account_witness :
  exists b,
    In b (user_identity_binding (db world0))
    /\ Binding.AuthType b = "email"
    /\ Binding.UniversalId b = "uid-A"
    /\ Binding.AuthValue b = "a@x.com".
Proof.
  assert (E : LoginWithUnifiedIdentity env0 "email" "a@x.com" "" world0
              = (inr (Some alice), counted (counted world0)))
    by (vm_compute; reflexivity).
  destruct (login_returns_bound_account env0 "email" "a@x.com" "" world0 _ _ E)
    as [_ [_ Bound]].
  destruct (Bound alice eq_refl) as [_ [_ [b [I [T [U [V _]]]]]]].
  exists b. split; [exact I|]. split; [exact T|]. split; [exact U|].
  apply V. discriminate.
Defined.

(** [bob] has a phone and no github account. *)
Lemma getUserAuthInfo_last_witness :
  getUserAuthInfo env0 "uid-B" world0 = (inr ("555", ""), counted world0).
Proof.
  destruct (getUserAuthInfo_last env0 "uid-B" world0) as [Answer _].
  exact (Answer eq_refl).
Defined.

(** The two bindings of [bob] are deleted. *)
Lemma delete_bindings_of_identity_witness :
  fst (DeleteUserIdentityBindingsByUniversalId env0 "uid-B" world0) = inr true
  /\ owned_by "uid-B"
       (user_identity_binding
          (db (snd (DeleteUserIdentityBindingsByUniversalId env0 "uid-B" world0))))
     = [].
Proof.
  destruct (delete_bindings_of_identity env0 "uid-B" world0 eq_refl) as [Answer [Gone _]].
  split; [exact Answer|exact Gone].
Defined.

(** The id ["b1"] is taken; the id ["b9"] is free. *)
Lemma insert_then_delete_witness :
  (exists e,
      AddUserIdentityBinding env0 (Binding.mk "b1" "uid-M" "phone" "1" "t") world0
      = (inl e, counted world0))
  /\ exists w1,
       AddUserIdentityBinding env0 (Binding.mk "b9" "uid-M" "phone" "1" "t") world0
       = (inr true, w1)
       /\ DeleteUserIdentityBinding env0 "b9" w1 = (inr true, set_db (db world0) (counted w1)).
Proof.
  destruct (insert_then_delete env0 (Binding.mk "b1" "uid-M" "phone" "1" "t") world0
              (env0_reliable _ _)) as [Taken _].
  destruct (insert_then_delete env0 (Binding.mk "b9" "uid-M" "phone" "1" "t") world0
              (env0_reliable _ _)) as [_ Free].
  split.
  - eexists. apply Taken. simpl. auto.
  - destruct Free as [_ [w1 [Added [_ Deleted]]]].
    + simpl. intuition discriminate.
    + exists w1. split; [exact Added|exact Deleted].
Defined.

(** [alice] binds a phone twice. *)
Lemma bind_twice_witness :
  AddUserIdentityBindingForUser env0 "uid-A" "phone" "777"
    (snd (AddUserIdentityBindingForUser env0 "uid-A" "phone" "777" world1))
  = (inr (Binding.mk "id-0" "uid-A" "phone" "777" "t0"),
     counted (snd (AddUserIdentityBindingForUser env0 "uid-A" "phone" "777" world1))).
Proof.
  apply (bind_twice env0 "uid-A" "phone" "777" world1).
  - vm_compute. reflexivity.
  - reflexivity.
Defined.

(** After it the phone is listed once for [alice]. *)
Lemma bind_then_list_witness :
  count_occ AuthMethod_eq_dec
    (credentials_of "uid-A"
       (user_identity_binding
          (db (snd (AddUserIdentityBindingForUser env0 "uid-A" "phone" "777" world1)))))
    (mkAuthMethod "phone" "777")
  = 1%nat.
Proof.
  assert (E : AddUserIdentityBindingForUser env0 "uid-A" "phone" "777" world1
              = (inr (Binding.mk "id-0" "uid-A" "phone" "777" "t0"),
                 snd (AddUserIdentityBindingForUser env0 "uid-A" "phone" "777" world1)))
    by (vm_compute; reflexivity).
  destruct (bind_then_list env0 "uid-A" "phone" "777" world1 _ _ E) as [_ [Count _]].
  rewrite Count. simpl.
  destruct (AuthMethod_eq_dec _ _) as [X|_]; [discriminate X|reflexivity].
Defined.

(** [alice], who has an email, binds a phone and unbinds it. *)
Lemma bind_then_unbind_witness :
  exists b w1 w2,
    AddUserIdentityBindingForUser env0 "uid-A" "phone" "777" world1 = (inr b, w1)
    /\ RemoveUserIdentityBindingForUser env0 "uid-A" "phone" w1 = (inr tt, w2)
    /\ db w2 = db world1.
Proof.
  assert (Fresh : ~ In (GenerateId env0 (ids world1))
                       (List.map Binding.Id (user_identity_binding (db world1)))).
  { simpl. intuition discriminate. }
  assert (Other : forall b, In b (owned_by "uid-A" (user_identity_binding (db world1))) ->
                            Binding.AuthType b <> "phone").
  { intros b [<-|[]]. discriminate. }
  destruct (bind_then_unbind env0 "uid-A" "phone" "777" world1 (env0_reliable _ _)
              eq_refl Fresh Other) as [b [w1 [Bound [Back _]]]].
  destruct (Back ltac:(simpl; lia)) as [w2 [Unbound Same]].
  exists b, w1, w2. split; [exact Bound|]. split; [exact Unbound|exact Same].
Defined.

(** The keys stay unique through the merge of [bob] into [alice]. *)
Lemma primary_key_kept_witness :
  primary_key_unique
    (user_identity_binding (db (snd (MergeUsers env0 "tokA" "tokB" world0)))).
Proof.
  destruct (primary_key_kept env0 world0 store0_keys) as [_ [_ [Merge _]]].
  apply (Merge "tokA" "tokB" (fst (MergeUsers env0 "tokA" "tokB" world0))).
  destruct (MergeUsers env0 "tokA" "tokB" world0). reflexivity.
Defined.

(** [bob] is created with the hint ["Phone"]. *)
Lemma creation_shape_witness :
  exists b,
    session_view (snd (createIdentityBindingsWithValue env0 bob "uid-B" "Phone" "" world1))
    = set_user_identity_binding (user_identity_binding (session_view world1) ++ [b])
                                (session_view world1)
    /\ Binding.AuthType b = "phone"
    /\ Binding.AuthValue b = "555".
Proof.
  assert (E : createIdentityBindingsWithValue env0 bob "uid-B" "Phone" "" world1
              = (inr tt,
                 snd (createIdentityBindingsWithValue env0 bob "uid-B" "Phone" "" world1)))
    by (vm_compute; reflexivity).
  destruct (creation_shape env0 bob "uid-B" "Phone" "" world1 _ _ E) as [_ [_ [_ Made]]].
  destruct (Made eq_refl) as [b [S [_ [_ [_ [_ [_ [Hinted _]]]]]]]].
  assert (V : getProviderValue env0 bob "Phone" <> "") by (vm_compute; discriminate).
  destruct (Hinted eq_refl V) as [Ty Val].
  exists b. split; [exact S|]. split; [exact Ty|exact Val].
Defined.

(** The hint in capitals. *)
Lemma getProviderValue_case_witness :
  getProviderValue env0 bob "PHONE" = getProviderValue env0 bob "phone".
Proof.
  destruct (getProviderValue_case env0 bob "PHONE") as [Listed _].
  apply Listed. vm_compute. do 8 right. left. reflexivity.
Defined.

(** [alice] is created with a github account and logs in with it. *)
Lemma creation_then_login_witness :
  LoginWithUnifiedIdentity env0 "github" "gh-1" ""
    (snd (createIdentityBindingsWithValue env0 alice "uid-A" "GitHub" "gh-1" world1))
  = (inr (Some alice),
     counted (counted
       (snd (createIdentityBindingsWithValue env0 alice "uid-A" "GitHub" "gh-1" world1)))).
Proof.
  assert (E : createIdentityBindingsWithValue env0 alice "uid-A" "GitHub" "gh-1" world1
              = (inr tt,
                 snd (createIdentityBindingsWithValue env0 alice "uid-A" "GitHub" "gh-1"
                        world1)))
    by (vm_compute; reflexivity).
  assert (V : "gh-1" <> "") by discriminate.
  exact (creation_then_login env0 alice "uid-A" "GitHub" "gh-1" "" world1 _ alice
           eq_refl (or_introl eq_refl) V E eq_refl (env0_reliable _ _) eq_refl).
Defined.

(** The merge of [bob] into [alice] keeps [alice]'s token only. *)
Lemma merge_frame_witness :
  token (db (snd (MergeUsers env0 "tokA" "tokB" world0)))
  = [mkScoped "org" "tk1" "alice"].
Proof.
  destruct (MergeUsers env0 "tokA" "tokB" world0) as [[e|res] w'] eqn:E;
    [vm_compute in E; discriminate E|].
  destruct (merge_frame env0 "tokA" "tokB" world0 res w' E) as [du [Found [Tokens _]]].
  vm_compute in E. inversion E; subst res w'. clear E.
  vm_compute in Found. injection Found as <-.
  exact Tokens.
Defined.

(** After the merge of [bob] into [alice], [bob]'s phone logs into
    [alice]. *)
Lemma merge_then_login_witness :
  exists account,
    LoginWithUnifiedIdentity env0 "phone" "555" ""
      (snd (MergeUsers env0 "tokA" "tokB" world2))
    = (inr (Some account), counted (counted (snd (MergeUsers env0 "tokA" "tokB" world2))))
    /\ User.UniversalId account = "uid-A".
Proof.
  destruct (MergeUsers env0 "tokA" "tokB" world2) as [[e|res] w'] eqn:E;
    [vm_compute in E; discriminate E|].
  assert (R : universal_id res = "uid-A" /\ deleted_user_id res = "uid-B").
  { vm_compute in E. inversion E. split; reflexivity. }
  destruct R as [Ru Rd].
  assert (Nd : deleted_user_id res <> "") by (rewrite Rd; discriminate).
  assert (In_d : In (Binding.mk "b3" "uid-B" "phone" "555" "t")
                    (user_identity_binding (db world2))) by (simpl; auto).
  destruct (merge_then_login env0 "tokA" "tokB" world2 res w' "phone" "555" ""
              (Binding.mk "b3" "uid-B" "phone" "555" "t") E store2_unique Nd In_d
              (eq_sym Rd) eq_refl eq_refl (or_intror (or_introl eq_refl))
              (env0_reliable _ _)) as [account [L [U _]]].
  exists account. split; [exact L|]. rewrite U. exact Ru.
Defined.

(** [mallory] asks to unbind her only login method. *)
Lemma endpoint_errors_leave_store_witness :
  db (snd (ApiController_UnbindAuthMethod env0 "Bearer tokM"
             (inr (mkUnbindRequest "google")) world0))
  = db world0.
Proof.
  destruct (endpoint_errors_leave_store env0) as [_ [_ [_ Unbind]]].
  apply (Unbind "Bearer tokM" (inr (mkUnbindRequest "google")) world0
           "cannot delete the only login method, please bind other login methods first").
  vm_compute. reflexivity.
Defined.

(** [alice] binds a phone through the endpoint and asks for her
    identity. *)
Lemma bind_endpoint_then_info_witness :
  exists methods,
    ApiController_GetIdentityInfo env0 "Bearer tokA"
      (snd (ApiController_BindAuthMethod env0 "Bearer tokA"
              (inr (mkBindRequest "phone" "777")) world1))
    = (IdentityInfo "uid-A" methods,
       counted (snd (ApiController_BindAuthMethod env0 "Bearer tokA"
                       (inr (mkBindRequest "phone" "777")) world1)))
    /\ In (mkAuthMethod "phone" "777") methods.
Proof.
  assert (E : ApiController_BindAuthMethod env0 "Bearer tokA"
                (inr (mkBindRequest "phone" "777")) world1
              = (BindOk (mkAuthMethod "phone" "777"),
                 snd (ApiController_BindAuthMethod env0 "Bearer tokA"
                        (inr (mkBindRequest "phone" "777")) world1)))
    by (vm_compute; reflexivity).
  destruct (bind_endpoint_then_info env0 "Bearer tokA" (mkBindRequest "phone" "777")
              (mkClaims alice "uid-A") world1 _ _ eq_refl E eq_refl)
    as [_ [methods [Info [Listed _]]]].
  exists methods. split; [exact Info|exact Listed].
Defined.

(** The mapping of the example read in the order of the map and in the
    reverse order. *)
Lemma mapping_order_free_witness :
  mapUserInfo (map_to_list mapping) answer !! "id" = Some (Number "7")
  /\ processUserInfoResponse ienv0 mapping (List.rev (map_to_list mapping)) (Some answer)
     = processUserInfoResponse ienv0 mapping (map_to_list mapping) (Some answer).
Proof.
  assert (U : sources_untouched mapping = true) by (vm_compute; reflexivity).
  destruct (mapping_order_free ienv0 mapping (map_to_list mapping) answer
              (Permutation_refl _) U) as [Closed Same].
  split.
  - rewrite (Closed "id"). vm_compute. reflexivity.
  - apply Same. symmetry. apply Permutation_rev.
Defined.

(** The mapping that swaps id and username. *)
Lemma mapping_order_matters_witness :
  exists visit1 visit2,
    visit1 ≡ₚ map_to_list swapped
    /\ visit2 ≡ₚ map_to_list swapped
    /\ mapUserInfo visit1 answer !! "id" = Some (Text "ann")
    /\ mapUserInfo visit2 answer !! "id" = Some (Text "row-1").
Proof.
  assert (N1 : "username" <> "id") by discriminate.
  assert (N2 : "username" <> "") by discriminate.
  assert (D : index answer "username" <> source_value answer "id")
    by (vm_compute; discriminate).
  destruct (mapping_order_matters swapped answer "id" "username" "id"
              ltac:(vm_compute; reflexivity) N1 N2 ltac:(vm_compute; reflexivity) D)
    as [visit1 [visit2 [P1 [P2 [V1 [V2 _]]]]]].
  exists visit1, visit2. split; [exact P1|]. split; [exact P2|].
  split; [exact V1|exact V2].
Defined.

(** The answer of the example under the mapping of the example, and the
    document [null] under the same mapping. *)
Lemma user_info_returned_witness :
  executeUserInfoRequest ienv0 mapping (map_to_list mapping) (inr (Some answer))
  = Returns (inr (UserInfo.mk "7" "ann" "Ann" "" ""))
  /\ executeUserInfoRequest ienv0 mapping (map_to_list mapping) (inr None) = Panics.
Proof.
  assert (Req : forall field, In field requiredFields -> is_Some (mapping !! field)).
  { intros field [<-|[<-|[<-|[]]]].
    - exists "uid". vm_compute. reflexivity.
    - exists "login". vm_compute. reflexivity.
    - exists "name". vm_compute. reflexivity. }
  split.
  - destruct (user_info_returned ienv0 mapping (map_to_list mapping) (inr (Some answer)))
      as [Returned _].
    apply (proj2 (Returned (UserInfo.mk "7" "ann" "Ann" "" ""))).
    exists answer, "7", (CustomUserInfo.mk "7" "ann" "Ann" "" "").
    split; [reflexivity|]. split; [vm_compute; reflexivity|]. split; [exact Req|].
    split; [vm_compute; reflexivity|]. split; [vm_compute; reflexivity|reflexivity].
  - destruct (user_info_returned ienv0 mapping (map_to_list mapping) (inr None))
      as [_ Panicked].
    apply (proj2 (Panicked (Permutation_refl _))). split; [reflexivity|exact Req].
Defined.

(** A mapping with an id and an empty username, and no display name. *)
Lemma required_mapping_first_witness :
  processUserInfoResponse ienv0 partial (map_to_list partial) (Some answer)
  = Returns (inl "cannot find displayName in userMapping, please check your configuration in custom provider").
Proof.
  apply (required_mapping_first ienv0 partial (map_to_list partial) (Some answer)
           ["id"; "username"] [] "displayName").
  - reflexivity.
  - intros f [<-|[<-|[]]].
    + exists "uid". vm_compute. reflexivity.
    + exists "". vm_compute. reflexivity.
  - vm_compute. reflexivity.
Defined.

(** A form with both phone keys: [phoneNumber] is answered. *)
Lemma sms_handler_answer_witness :
  exists resp phone code,
    sendSMSHandler 5 sms_form = (200%nat, Some resp)
    /\ Data resp = Some (mkSMSData phone code 5)
    /\ phone = "+8613800000000"
    /\ code = "4711".
Proof.
  assert (E : sendSMSHandler 5 sms_form
              = (200%nat,
                 Some (mkSMSResponse true
                         "Verification code has been successfully sent to phone number +8613800000000"
                         (Some (mkSMSData "+8613800000000" "4711" 5)))))
    by (vm_compute; reflexivity).
  assert (NE : Form sms_form <> ∅).
  { intros X. apply (f_equal (fun m => m !! "code")) in X. vm_compute in X.
    discriminate X. }
  destruct (sms_handler_answer 5 sms_form) as [Sent _].
  destruct (Sent _ _ E eq_refl) as [_ [_ [phone [code [D [_ [_ [Formed _]]]]]]]].
  destruct (Formed NE) as [C [P _]].
  exists (mkSMSResponse true
            "Verification code has been successfully sent to phone number +8613800000000"
            (Some (mkSMSData "+8613800000000" "4711" 5))), phone, code.
  split; [exact E|]. split; [exact D|]. split.
  - rewrite P; [vm_compute; reflexivity|vm_compute; discriminate].
  - rewrite C. vm_compute. reflexivity.
Defined.
